(** * The organic-scoring scheduler ([atom/organic_scoring/organic_scoring_base.py])

    A shallow embedding of class [OrganicScoringBase]: its constructor, the
    step-counter methods, the annealing rate [sample_rate_dynamic], the waiting
    phase [wait_until_next] and the scheduling loop [start_loop].

    Conventions of the embedding.
    - Python numbers ([Union[float, int]]) are the type [number]: an [int] is
      an unbounded integer, a [float] is an IEEE 754 binary64 value (the
      primitive type [float]), with its rounding, its infinities and NaN.
      Arithmetic is Python's: an [int] that meets a [float] is converted
      first, which raises [OverflowError] when it is too large.
    - Where versions of Python differ the model follows Python 3.13: a
      [with] on an object without [__enter__] raises [TypeError]
      ([AttributeError] before 3.11), and [asyncio.sleep] refuses a delay
      that is NaN (before 3.13 it returns at once); the theorems on the
      loop are stated so as to hold either way.
    - A method is a function in a state-and-exception monad over the object
      ([self]); a coroutine is one over a [world], which adds the observable
      trace (sleeps, calls of [forward], logged errors) and the behaviour of
      everything the loop awaits on.
    - Python's [while] loops take a bound on their number of iterations; a
      loop that is still running when the bound is reached yields [Pending],
      so "returns" is [Returned] for some bound and "never returns" is
      [Pending] for every bound. *)

From Stdlib Require Import ZArith QArith List Ascii String Lia.
From Stdlib Require Import PrimFloat SpecFloat FloatOps FloatAxioms.
From stdpp Require Import base gmap strings.

Local Open Scope Z_scope.

(** ** Python numbers *)

Inductive number :=
| PyInt (z : Z)
| PyFloat (f : float).

(** An integer as the pair of a mantissa and the exponent 0. *)
Definition int_as_SF (z : Z) : spec_float :=
  match z with
  | Z0 => S754_zero false
  | Zpos m => S754_finite false m 0
  | Zneg m => S754_finite true m 0
  end.

(** The double nearest to an integer, ties to even; an infinity when the
    integer is beyond the largest double. *)
Definition nearest_double (z : Z) : spec_float :=
  binary_normalize prec emax z 0 false.

(** The quotient of two integers, rounded once, to the nearest double. *)
Definition true_quotient (x y : Z) : spec_float :=
  SFdiv prec emax (int_as_SF x) (int_as_SF y).

(** The order between an integer and a double, by their exact values;
    none when the double is NaN. *)
Definition compare_int_float (z : Z) (f : float) : option comparison :=
  match Prim2SF f with
  | S754_nan => None
  | S754_infinity s => Some (if s then Gt else Lt)
  | S754_zero _ => Some (z ?= 0)
  | S754_finite s m e =>
      let v := cond_Zopp s (Zpos m) in
      Some (match e with
            | Zneg k => (z * 2 ^ Zpos k ?= v)
            | _ => (z ?= v * 2 ^ e)
            end)
  end.

(** Comparisons.  Two [int]s are compared as integers, two [float]s as
    doubles (NaN is neither below nor above anything), and an [int] with a
    [float] by their exact values, without conversion. *)
Definition py_lt (a b : number) : bool :=
  match a, b with
  | PyInt x, PyInt y => x <? y
  | PyFloat f, PyFloat g => (f <? g)%float
  | PyInt x, PyFloat g =>
      match compare_int_float x g with Some Lt => true | _ => false end
  | PyFloat f, PyInt y =>
      match compare_int_float y f with Some Gt => true | _ => false end
  end.

Definition py_le (a b : number) : bool :=
  match a, b with
  | PyInt x, PyInt y => x <=? y
  | PyFloat f, PyFloat g => (f <=? g)%float
  | PyInt x, PyFloat g =>
      match compare_int_float x g with
      | Some Lt | Some Eq => true
      | _ => false
      end
  | PyFloat f, PyInt y =>
      match compare_int_float y f with
      | Some Gt | Some Eq => true
      | _ => false
      end
  end.

Definition py_gt (a b : number) : bool := py_lt b a.
Definition py_ge (a b : number) : bool := py_le b a.

(** The builtin [max(a, b)]: the first argument is kept unless the second is
    strictly greater. *)
Definition py_max (a b : number) : number :=
  if py_gt b a then b else a.

(** The value of a number, for the statements: an infinity counts as
    2^1024 with its sign, the first power of two beyond every double, and
    NaN, which no comparison places, as 0. *)
Definition SF_to_Q (f : spec_float) : Q :=
  match f with
  | S754_zero _ | S754_nan => 0
  | S754_infinity s => inject_Z (cond_Zopp s (2 ^ 1024))
  | S754_finite s m e =>
      match e with
      | Zneg k => Qmake (cond_Zopp s (Zpos m)) (2 ^ k)
      | _ => inject_Z (cond_Zopp s (Zpos m) * 2 ^ e)
      end
  end.

Definition to_Q (n : number) : Q :=
  match n with
  | PyInt z => inject_Z z
  | PyFloat f => SF_to_Q (Prim2SF f)
  end.

(** ** Exceptions *)

(** The exception classes the model distinguishes.  [UserException] stands for
    any other class derived from [Exception]; the last four derive from
    [BaseException] only. *)
Inductive exc_class :=
| AssertionError
| TypeError
| ZeroDivisionError
| OverflowError
| ValueError
| UserException (name : string)
| CancelledError
| KeyboardInterrupt
| SystemExit
| GeneratorExit.

Record exn := mk_exn { exc_type : exc_class; exc_msg : string }.

(** [isinstance(e, Exception)]. *)
Definition isinstance_Exception (e : exn) : bool :=
  match exc_type e with
  | AssertionError | TypeError | ZeroDivisionError | OverflowError
  | ValueError | UserException _ => true
  | CancelledError | KeyboardInterrupt | SystemExit | GeneratorExit => false
  end.

(** ** The monad of methods and coroutines *)

Inductive outcome (A : Type) :=
| Returned (a : A)
| Raised (e : exn)
| Pending.

Arguments Returned {A} a.
Arguments Raised {A} e.
Arguments Pending {A}.

Definition M (St A : Type) : Type := St -> outcome A * St.

Definition ret {St A} (a : A) : M St A := fun s => (Returned a, s).

Definition bind {St A B} (m : M St A) (k : A -> M St B) : M St B :=
  fun s =>
    match m s with
    | (Returned a, s') => k a s'
    | (Raised e, s') => (Raised e, s')
    | (Pending, s') => (Pending, s')
    end.

Definition raise {St A} (e : exn) : M St A := fun s => (Raised e, s).
Definition gets {St A} (f : St -> A) : M St A := fun s => (Returned (f s), s).
Definition modify {St} (f : St -> St) : M St unit := fun s => (Returned tt, f s).

Declare Scope py_scope.
Delimit Scope py_scope with py.
Notation "x <- m ;; k" := (bind m (fun x => k))
  (at level 100, m at next level, right associativity) : py_scope.
Notation "m ;; k" := (bind m (fun _ => k))
  (at level 100, right associativity) : py_scope.
Local Open Scope py_scope.

(** [try: body / except Exception as e: handler e].  An exception that is
    not an instance of [Exception] is not caught. *)
Definition try_except_Exception {St A} (body : M St A) (handler : exn -> M St A)
  : M St A :=
  fun s =>
    match body s with
    | (Raised e, s') =>
        if isinstance_Exception e then handler e s' else (Raised e, s')
    | r => r
    end.

(** [while cond: body], run for at most [fuel] evaluations of [cond]. *)
Fixpoint while {St} (fuel : nat) (cond : M St bool) (body : M St unit)
  : M St unit :=
  match fuel with
  | O => fun s => (Pending, s)
  | S n =>
      b <- cond ;;
      if b then (body ;; while n cond body) else ret tt
  end.

(** [assert cond, msg], with assertions enabled (the interpreter's default). *)
Definition assert_ {St} (cond : bool) (msg : string) : M St unit :=
  if cond then ret tt else raise (mk_exn AssertionError msg).

(** A coroutine that never resumes. *)
Definition never {St A} : M St A := fun s => (Pending, s).

(** ** Arithmetic *)

(** An operand of a [float] operation: a [float] is taken as it is, an
    [int] is converted to the nearest double. *)
Definition py_float {St} (a : number) : M St float :=
  match a with
  | PyFloat f => ret f
  | PyInt z =>
      match nearest_double z with
      | S754_infinity _ =>
          raise (mk_exn OverflowError "int too large to convert to float")
      | d => ret (SF2Prim d)
      end
  end.

(** [a - b]: an [int] when both operands are, a [float] otherwise. *)
Definition py_sub {St} (a b : number) : M St number :=
  match a, b with
  | PyInt x, PyInt y => ret (PyInt (x - y))
  | _, _ =>
      x <- py_float a ;;
      y <- py_float b ;;
      ret (PyFloat (x - y))
  end.

(** [a + b]. *)
Definition py_add {St} (a b : number) : M St number :=
  match a, b with
  | PyInt x, PyInt y => ret (PyInt (x + y))
  | _, _ =>
      x <- py_float a ;;
      y <- py_float b ;;
      ret (PyFloat (x + y))
  end.

(** [a / b]: true division, always a [float].  The quotient of two [int]s
    is rounded once, from the exact quotient. *)
Definition py_truediv {St} (a b : number) : M St number :=
  match a, b with
  | PyInt x, PyInt y =>
      if y =? 0
      then raise (mk_exn ZeroDivisionError "division by zero")
      else
        match true_quotient x y with
        | S754_infinity _ =>
            raise (mk_exn OverflowError
                     "integer division result too large for a float")
        | q => ret (PyFloat (SF2Prim q))
        end
  | _, _ =>
      x <- py_float a ;;
      y <- py_float b ;;
      if (y =? 0)%float
      then raise (mk_exn ZeroDivisionError "float division by zero")
      else ret (PyFloat (x / y))
  end.

(** The builtin [int(x)]: truncation towards zero. *)
Definition py_int {St} (x : number) : M St Z :=
  match x with
  | PyInt z => ret z
  | PyFloat f =>
      match Prim2SF f with
      | S754_nan =>
          raise (mk_exn ValueError "cannot convert float NaN to integer")
      | S754_infinity _ =>
          raise (mk_exn OverflowError
                   "cannot convert float infinity to integer")
      | S754_zero _ => ret 0
      | S754_finite s m e =>
          ret (cond_Zopp s
                 match e with
                 | Zneg k => Zpos m / 2 ^ Zpos k
                 | _ => Zpos m * 2 ^ e
                 end)
      end
  end.

(** ** Locks and the [with] statement *)

(** [asyncio.Lock] implements the asynchronous context-manager protocol only
    ([__aenter__]/[__aexit__], for [async with]); [threading.Lock] implements
    the synchronous one ([__enter__]/[__exit__]). *)
Inductive lock :=
| asyncio_Lock
| threading_Lock.

Definition has_enter (l : lock) : bool :=
  match l with
  | threading_Lock => true
  | asyncio_Lock => false
  end.

(** [with l: body].  The statement looks [__enter__] up on the type of [l]
    before [body] runs and raises [TypeError] when it is missing (Python 3.11
    and later; [AttributeError] before).  No other task runs inside a method
    that does not await, so acquiring and releasing are not observable. *)
Definition lock_error : exn :=
  mk_exn TypeError "'Lock' object does not support the context manager protocol".

Definition with_ {St A} (l : lock) (body : M St A) : M St A :=
  if has_enter l then body else raise lock_error.

(** ** Collaborators of the scheduler *)

(** A bound method, identified by its name and by where the function it
    resolves to is defined. *)
Inductive defining_class :=
| InBase
| InSubclass.

Record bound_method := {
  method_name : string;
  defined_in : defining_class
}.

(** What a concrete subclass of [OrganicScoringBase] overrides among the
    optional hooks.  [forward] and [_on_organic_entry] are abstract: a class
    that can be instantiated defines both. *)
Record subclass := {
  overrides_priority_fn : bool;
  overrides_blacklist_fn : bool;
  overrides_verify_fn : bool
}.

Definition resolve (name : string) (overridden : bool) : bound_method :=
  {| method_name := name;
     defined_in := if overridden then InSubclass else InBase |}.

(** Modelled from the spec: [is_overridden] of [atom/organic_scoring/utils.py],
    which is not among the sources.  The spec has it determine "whether the
    owning subclass supplied a non-default implementation". *)
Definition is_overridden (f : bound_method) : bool :=
  match defined_in f with
  | InSubclass => true
  | InBase => false
  end.

(** The inbound request server ([bt.axon]), as the list of the [attach] calls
    it has received. *)
Record attach_call := {
  forward_fn : bound_method;
  blacklist_fn : option bound_method;
  priority_fn : option bound_method;
  verify_fn : option bound_method
}.

Definition axon := list attach_call.

Definition attach (c : attach_call) : M axon unit :=
  modify (fun a => a ++ [c]).

(** Modelled from the spec: [OrganicQueue] of
    [atom/organic_scoring/organic_queue.py], which is not among the sources: "an
    ordered buffer of organic entries awaiting evaluation, queryable for
    current size". *)
Definition sample := string.
Definition OrganicQueue := list sample.
Definition size (q : OrganicQueue) : Z := Z.of_nat (length q).

Definition SynthDatasetBase := string.

(** The [synth_dataset] argument:
    [Optional[Union[SynthDatasetBase, Sequence[SynthDatasetBase]]]]. *)
Inductive synth_dataset_arg :=
| NoDataset
| OneDataset (d : SynthDatasetBase)
| DatasetSequence (ds : list SynthDatasetBase).

(** [Literal["seconds", "steps"]]. *)
Inductive trigger_kind :=
| seconds
| steps.

(** ** The object *)

Record OrganicScoringBase := {
  class_ : subclass;
  _should_exit : bool;
  _is_running : bool;
  _synth_dataset : synth_dataset_arg;
  _trigger_frequency : number;
  _trigger : trigger_kind;
  _trigger_min : number;
  _trigger_scaling_factor : number;
  _organic_queue : OrganicQueue;
  _step_counter : number;
  _step_lock : lock
}.

Definition set_step_counter (v : number) (self : OrganicScoringBase)
  : OrganicScoringBase :=
  {| class_ := class_ self;
     _should_exit := _should_exit self;
     _is_running := _is_running self;
     _synth_dataset := _synth_dataset self;
     _trigger_frequency := _trigger_frequency self;
     _trigger := _trigger self;
     _trigger_min := _trigger_min self;
     _trigger_scaling_factor := _trigger_scaling_factor self;
     _organic_queue := _organic_queue self;
     _step_counter := v;
     _step_lock := _step_lock self |}.

Definition set_should_exit (b : bool) (self : OrganicScoringBase)
  : OrganicScoringBase :=
  {| class_ := class_ self;
     _should_exit := b;
     _is_running := _is_running self;
     _synth_dataset := _synth_dataset self;
     _trigger_frequency := _trigger_frequency self;
     _trigger := _trigger self;
     _trigger_min := _trigger_min self;
     _trigger_scaling_factor := _trigger_scaling_factor self;
     _organic_queue := _organic_queue self;
     _step_counter := _step_counter self;
     _step_lock := _step_lock self |}.

Definition set_organic_queue (q : OrganicQueue) (self : OrganicScoringBase)
  : OrganicScoringBase :=
  {| class_ := class_ self;
     _should_exit := _should_exit self;
     _is_running := _is_running self;
     _synth_dataset := _synth_dataset self;
     _trigger_frequency := _trigger_frequency self;
     _trigger := _trigger self;
     _trigger_min := _trigger_min self;
     _trigger_scaling_factor := _trigger_scaling_factor self;
     _organic_queue := q;
     _step_counter := _step_counter self;
     _step_lock := _step_lock self |}.

(** The hooks of an instance, by method resolution on its class. *)
Definition _on_organic_entry (self : OrganicScoringBase) : bound_method :=
  resolve "_on_organic_entry" true.
Definition _priority_fn (self : OrganicScoringBase) : bound_method :=
  resolve "_priority_fn" (overrides_priority_fn (class_ self)).
Definition _blacklist_fn (self : OrganicScoringBase) : bound_method :=
  resolve "_blacklist_fn" (overrides_blacklist_fn (class_ self)).
Definition _verify_fn (self : OrganicScoringBase) : bound_method :=
  resolve "_verify_fn" (overrides_verify_fn (class_ self)).

(** Defaults of the optional constructor arguments. *)
Definition default_trigger_frequency_min : number := PyInt 2.
Definition default_trigger_scaling_factor : number := PyInt 5.

(** [OrganicScoringBase.__init__], called on an instance of class [cls].  The
    state of the monad is the server [axon] that the new object keeps a
    reference to as [self._axon]. *)
Definition __init__ (cls : subclass)
    (synth_dataset : synth_dataset_arg)
    (trigger_frequency : number)
    (trigger : trigger_kind)
    (trigger_frequency_min : number)
    (trigger_scaling_factor : number)
    (organic_queue : option OrganicQueue)
  : M axon OrganicScoringBase :=
  let synth_dataset :=
    match synth_dataset with
    | OneDataset d => DatasetSequence [d]
    | other => other
    end in
  assert_ (py_gt trigger_scaling_factor (PyInt 0))
          "The scaling factor must be higher than 0." ;;
  let organic_queue :=
    match organic_queue with
    | None => []
    | Some q => q
    end in
  let self :=
    {| class_ := cls;
       _should_exit := false;
       _is_running := false;
       _synth_dataset := synth_dataset;
       _trigger_frequency := trigger_frequency;
       _trigger := trigger;
       _trigger_min := trigger_frequency_min;
       _trigger_scaling_factor := trigger_scaling_factor;
       _organic_queue := organic_queue;
       _step_counter := PyInt 0;
       _step_lock := asyncio_Lock |} in
  attach
    {| forward_fn := _on_organic_entry self;
       blacklist_fn :=
         if is_overridden (_blacklist_fn self)
         then Some (_blacklist_fn self) else None;
       priority_fn :=
         if is_overridden (_priority_fn self)
         then Some (_priority_fn self) else None;
       verify_fn :=
         if is_overridden (_verify_fn self)
         then Some (_verify_fn self) else None |} ;;
  ret self.

(** [increment_step]. *)
Definition increment_step : M OrganicScoringBase unit :=
  l <- gets _step_lock ;;
  with_ l
    (trig <- gets _trigger ;;
     match trig with
     | steps =>
         c <- gets _step_counter ;;
         c' <- py_add c (PyInt 1) ;;
         modify (set_step_counter c')
     | seconds => ret tt
     end).

(** [set_step]. *)
Definition set_step (step : Z) : M OrganicScoringBase unit :=
  l <- gets _step_lock ;;
  with_ l
    (trig <- gets _trigger ;;
     match trig with
     | steps => modify (set_step_counter (PyInt step))
     | seconds => ret tt
     end).

(** [sample_rate_dynamic]. *)
Definition sample_rate_dynamic : M OrganicScoringBase number :=
  size <- gets (fun self => PyInt (size (_organic_queue self))) ;;
  trigger_frequency <- gets _trigger_frequency ;;
  trigger_scaling_factor <- gets _trigger_scaling_factor ;;
  trigger_min <- gets _trigger_min ;;
  quotient <- py_truediv size trigger_scaling_factor ;;
  difference <- py_sub trigger_frequency quotient ;;
  let delay := py_max difference trigger_min in
  trig <- gets _trigger ;;
  match trig with
  | seconds => ret delay
  | steps => steps_ <- py_int delay ;; ret (PyInt steps_)
  end.

(** ** The world of the scheduling loop *)

(** What an observer of the loop sees. *)
Inductive event :=
| ev_forward
| ev_sleep (delay : number)
| ev_log_error (e : exn).

(** What another task does to the object while the loop is suspended. *)
Inductive external_call :=
| call_increment_step
| call_set_step (step : Z)
| call_stop
| call_queue_put (x : sample)
| call_queue_get.

(** The telemetry record returned by [forward] ([dict[str, Any]], with
    numeric values). *)
Abbreviation telemetry := (gmap string number).

(** The object, the trace so far, the calls other tasks make at each of the
    coming suspensions of the loop (none once the list is used up), and what
    the coming calls of [forward] produce (an empty record once the list is
    used up). *)
Record world := {
  self_ : OrganicScoringBase;
  trace : list event;
  suspensions : list (list external_call);
  forward_outcomes : list (telemetry + exn)
}.

(** Modelled from the spec: [stop], which the class docstring tells callers to
    use and which is not among the sources.  The spec has [shouldExit] "written
    by [stop()]". *)
Definition stop : M OrganicScoringBase unit :=
  modify (set_should_exit true).

(** One call made by another task.  An exception it raises is raised in that
    task, not in the loop. *)
Definition run_external (self : OrganicScoringBase) (c : external_call)
  : OrganicScoringBase :=
  match c with
  | call_increment_step => snd (increment_step self)
  | call_set_step step => snd (set_step step self)
  | call_stop => snd (stop self)
  | call_queue_put x =>
      set_organic_queue (_organic_queue self ++ [x]) self
  | call_queue_get =>
      set_organic_queue (tail (_organic_queue self)) self
  end.

(** A method call made from a coroutine. *)
Definition lift {A} (m : M OrganicScoringBase A) : M world A :=
  fun w =>
    let (r, self') := m (self_ w) in
    (r, {| self_ := self';
           trace := trace w;
           suspensions := suspensions w;
           forward_outcomes := forward_outcomes w |}).

Definition emit (e : event) : M world unit :=
  modify (fun w =>
    {| self_ := self_ w;
       trace := trace w ++ [e];
       suspensions := suspensions w;
       forward_outcomes := forward_outcomes w |}).

(** The loop is suspended: the other tasks run. *)
Definition suspend : M world unit :=
  modify (fun w =>
    match suspensions w with
    | [] => w
    | calls :: rest =>
        {| self_ := foldl run_external (self_ w) calls;
           trace := trace w;
           suspensions := rest;
           forward_outcomes := forward_outcomes w |}
    end).

(** [await asyncio.sleep(delay)].  A delay that is not positive yields
    once.  Any other delay goes through [loop.call_later], which adds it to
    the clock, a [float]: NaN is refused before that (from Python 3.13 on),
    an [int] too large for a [float] raises there, and a timer set at
    infinity never fires. *)
Definition sleep (delay : number) : M world unit :=
  if py_le delay (PyInt 0)
  then emit (ev_sleep delay) ;; suspend
  else
    match delay with
    | PyInt _ =>
        py_float delay ;;
        emit (ev_sleep delay) ;;
        suspend
    | PyFloat f =>
        if PrimFloat.is_nan f
        then raise (mk_exn ValueError "Invalid delay: NaN (not a number)")
        else
          emit (ev_sleep delay) ;;
          suspend ;;
          if (f =? infinity)%float then never else ret tt
    end.

(** [bt.logging.error]. *)
Definition logging_error (e : exn) : M world unit :=
  emit (ev_log_error e).

(** [await self.forward()]: the abstract sampling callback. *)
Definition forward : M world telemetry :=
  emit ev_forward ;;
  suspend ;;
  fun w =>
    match forward_outcomes w with
    | [] => (Returned ∅, w)
    | r :: rest =>
        let w' := {| self_ := self_ w;
                     trace := trace w;
                     suspensions := suspensions w;
                     forward_outcomes := rest |} in
        match r with
        | inl l => (Returned l, w')
        | inr e => (Raised e, w')
        end
    end.

(** ** The waiting phase and the loop *)

(** [wait_until_next]. *)
Definition wait_until_next (fuel : nat) (timer_elapsed : number)
  : M world unit :=
  dynamic_unit <- lift sample_rate_dynamic ;;
  trig <- lift (gets _trigger) ;;
  match trig with
  | seconds =>
      remaining <- py_sub dynamic_unit timer_elapsed ;;
      let sleep_duration := py_max remaining (PyInt 0) in
      sleep sleep_duration
  | steps =>
      while fuel (ret true)
        (c <- lift (gets _step_counter) ;;
         if py_ge c dynamic_unit
         then
           c' <- py_sub c dynamic_unit ;;
           lift (modify (set_step_counter c'))
         else sleep (PyInt 1))
  end.

(** The gate at the head of an iteration of [start_loop]. *)
Definition idle_gate (fuel : nat) : M world unit :=
  trig <- lift (gets _trigger) ;;
  match trig with
  | steps =>
      while fuel
        (c <- lift (gets _step_counter) ;;
         f <- lift (gets _trigger_frequency) ;;
         ret (py_lt c f))
        (sleep (PyFloat 0x1.999999999999ap-4))
  | seconds => ret tt
  end.

(** The [try] statement of an iteration of [start_loop]. *)
Definition sample_and_wait (fuel : nat) : M world unit :=
  try_except_Exception
    (logs <- forward ;;
     let total_elapsed_time :=
       default (PyInt 0) (logs !! "total_elapsed_time") in
     wait_until_next fuel total_elapsed_time)
    (fun e =>
       logging_error e ;;
       sleep (PyInt 1)).

(** [start_loop].  [fuel] bounds the iterations of the loop itself, [inner]
    those of each loop nested in an iteration. *)
Definition start_loop (fuel inner : nat) : M world unit :=
  while fuel
    (should_exit <- lift (gets _should_exit) ;; ret (negb should_exit))
    (idle_gate inner ;; sample_and_wait inner).

(** ** Vocabulary of the statements *)

(** The step counter is not negative. *)
Definition counter_nonneg (self : OrganicScoringBase) : Prop :=
  (0 <= to_Q (_step_counter self))%Q.

(** The calls other tasks will make set the counter to non-negative values
    only. *)
Definition call_nonneg (c : external_call) : Prop :=
  match c with
  | call_set_step step => 0 <= step
  | _ => True
  end.

Definition calls_nonneg (w : world) : Prop :=
  Forall (Forall call_nonneg) (suspensions w).

(** The step counter is an [int]. *)
Definition counter_is_int (self : OrganicScoringBase) : Prop :=
  exists c, _step_counter self = PyInt c.

(** The invariant of the step counter: it is an [int] that is not negative
    now, and no other task is about to set it to a negative value. *)
Definition counter_invariant (w : world) : Prop :=
  counter_is_int (self_ w) /\ counter_nonneg (self_ w) /\ calls_nonneg w.

(** The operations on the step counter: the two methods, and the waiting
    phase of the loop, which is where the loop subtracts from it. *)
Inductive counter_op :=
| op_increment
| op_set (value : Z)
| op_wait (fuel : nat) (timer_elapsed : number).

Definition op_nonneg (op : counter_op) : Prop :=
  match op with
  | op_set value => 0 <= value
  | _ => True
  end.

Definition run_op (w : world) (op : counter_op) : world :=
  match op with
  | op_increment => snd (lift increment_step w)
  | op_set value => snd (lift (set_step value) w)
  | op_wait fuel timer_elapsed => snd (wait_until_next fuel timer_elapsed w)
  end.

(** A hook is registered with the server exactly when it is overridden, and
    then it is the method of the instance. *)
Definition registered_iff (h : option bound_method) (overridden : bool)
    (m : bound_method) : Prop :=
  (h = Some m <-> overridden = true) /\ (h = None <-> overridden = false).

(** The world after an event is recorded, after the other tasks have run at a
    suspension, and after a sleep. *)
Definition recorded (e : event) (w : world) : world := snd (emit e w).
Definition resumed (w : world) : world := snd (suspend w).
Definition slept (delay : number) (w : world) : world := snd (sleep delay w).

(** The delay is one [asyncio.sleep] returns from, whatever the version of
    Python: it is not positive, or it is an [int] that fits a [float], or a
    [float] other than NaN and infinity. *)
Definition wakes (delay : number) : bool :=
  py_le delay (PyInt 0)
  || match delay with
     | PyInt z =>
         match nearest_double z with
         | S754_infinity _ => false
         | _ => true
         end
     | PyFloat f => negb (PrimFloat.is_nan f) && negb (f =? infinity)%float
     end.

(** The delay is infinite: the sleep starts and never ends. *)
Definition endless (delay : number) : bool :=
  match delay with
  | PyInt _ => false
  | PyFloat f => (f =? infinity)%float
  end.

(** The number is the [float] NaN. *)
Definition is_NaN (x : number) : bool :=
  match x with
  | PyInt _ => false
  | PyFloat f => PrimFloat.is_nan f
  end.

(** [m] reads the state and writes nothing. *)
Definition read_only {St A} (m : M St A) : Prop := forall s, snd (m s) = s.

(** [m] returns or raises: it is never left suspended. *)
Definition ends {St A} (m : M St A) : Prop := forall s, fst (m s) <> Pending.

(** [m] keeps the invariant [I] of the state, however it ends. *)
Definition keeps {St A} (I : St -> Prop) (m : M St A) : Prop :=
  forall s, I s -> I (snd (m s)).

(** [m] raises only exceptions that satisfy [P]. *)
Definition raises_only {St A} (P : exn -> Prop) (m : M St A) : Prop :=
  forall s e, fst (m s) = Raised e -> P e.

(** The world once the next outcome of [forward] has been taken. *)
Definition taken (w : world) : world :=
  {| self_ := self_ w;
     trace := trace w;
     suspensions := suspensions w;
     forward_outcomes := tail (forward_outcomes w) |}.

(** The world with the counter at [v]. *)
Definition counted (v : number) (w : world) : world :=
  snd (lift (modify (set_step_counter v)) w).

(** What no method and no coroutine of the class writes after construction:
    the configuration, the lock, and [_is_running]. *)
Definition same_settings (a b : OrganicScoringBase) : Prop :=
  class_ a = class_ b /\
  _trigger a = _trigger b /\
  _trigger_frequency a = _trigger_frequency b /\
  _trigger_min a = _trigger_min b /\
  _trigger_scaling_factor a = _trigger_scaling_factor b /\
  _step_lock a = _step_lock b /\
  _is_running a = _is_running b.

(** The delay between two polls of the gate: the double [0.1]. *)
Definition poll_delay : number := PyFloat 0x1.999999999999ap-4.

(** The world after [k] polls of the gate, 100 ms apart. *)
Definition polled (k : nat) (w : world) : world :=
  Nat.iter k (slept poll_delay) w.

(** The counter is below the configured frequency. *)
Definition gate_closed (w : world) : bool :=
  py_lt (_step_counter (self_ w)) (_trigger_frequency (self_ w)).

(** A coroutine never returns from [w]: whatever the bound on its loops, it
    is still running when the bound is reached. *)
Definition never_returns {A} (m : nat -> M world A) (w : world) : Prop :=
  forall fuel, fst (m fuel w) = Pending.

(** An object like [self] whose lock is a [threading.Lock]. *)
Definition with_threading_lock (self : OrganicScoringBase)
  : OrganicScoringBase :=
  {| class_ := class_ self;
     _should_exit := _should_exit self;
     _is_running := _is_running self;
     _synth_dataset := _synth_dataset self;
     _trigger_frequency := _trigger_frequency self;
     _trigger := _trigger self;
     _trigger_min := _trigger_min self;
     _trigger_scaling_factor := _trigger_scaling_factor self;
     _organic_queue := _organic_queue self;
     _step_counter := _step_counter self;
     _step_lock := threading_Lock |}.

(** ** Objects and worlds used as examples *)

Definition plain_subclass : subclass :=
  {| overrides_priority_fn := false;
     overrides_blacklist_fn := false;
     overrides_verify_fn := false |}.

(** A class that overrides [_blacklist_fn] only. *)
Definition blacklisting_subclass : subclass :=
  {| overrides_priority_fn := false;
     overrides_blacklist_fn := true;
     overrides_verify_fn := false |}.

(** The object [__init__] builds for [plain_subclass] without datasets, with
    its queue filled to [queue] and its counter at [counter]. *)
Definition scheduler (trigger : trigger_kind)
    (frequency frequency_min scaling_factor : number)
    (queue : OrganicQueue) (counter : number) : OrganicScoringBase :=
  {| class_ := plain_subclass;
     _should_exit := false;
     _is_running := false;
     _synth_dataset := NoDataset;
     _trigger_frequency := frequency;
     _trigger := trigger;
     _trigger_min := frequency_min;
     _trigger_scaling_factor := scaling_factor;
     _organic_queue := queue;
     _step_counter := counter;
     _step_lock := asyncio_Lock |}.

(** A world in which no other task does anything and [forward] returns an
    empty record. *)
Definition quiet (self : OrganicScoringBase) : world :=
  {| self_ := self;
     trace := [];
     suspensions := [];
     forward_outcomes := [] |}.

(** A "steps" world that can make progress: the lock is a [threading.Lock],
    the frequency is 3, the queue holds 10 entries (so the dynamic unit is
    1), the counter is at 1, and another task calls [increment_step] during
    each of the next two suspensions. *)
Definition stepping_world : world :=
  {| self_ :=
       with_threading_lock
         (scheduler steps (PyInt 3) (PyInt 1) (PyInt 5) (repeat "x" 10)
            (PyInt 1));
     trace := [];
     suspensions := [[call_increment_step]; [call_increment_step]];
     forward_outcomes := [] |}.

(** A "seconds" world with 10 queued entries (so a dynamic unit of 8.0) in
    which [forward] first reports 3 seconds of elapsed time and then returns
    an empty record. *)
Definition timed_world : world :=
  {| self_ :=
       scheduler seconds (PyInt 10) (PyInt 2) (PyInt 5) (repeat "x" 10)
         (PyInt 0);
     trace := [];
     suspensions := [];
     forward_outcomes := [inl {["total_elapsed_time" := PyFloat 3]}; inl ∅] |}.

(** A "seconds" world in which the first call of [forward] raises. *)
Definition sampling_failure : exn :=
  mk_exn (UserException "RuntimeError") "sampling failed".

Definition failing_world : world :=
  {| self_ := scheduler seconds (PyInt 10) (PyInt 2) (PyInt 5) [] (PyInt 0);
     trace := [];
     suspensions := [];
     forward_outcomes := [inr sampling_failure] |}.

(** The object the constructor returns in "steps" mode with a frequency of
    10; another task calls [stop] while the loop sleeps for the first
    time. *)
Definition stopped_at_gate : world :=
  {| self_ := scheduler steps (PyInt 10) (PyInt 2) (PyInt 5) [] (PyInt 0);
     trace := [];
     suspensions := [[call_stop]];
     forward_outcomes := [] |}.


(** A "seconds" world in which the task that runs the loop is cancelled
    while it awaits [forward]: the call raises [asyncio.CancelledError]. *)
Definition cancellation : exn := mk_exn CancelledError EmptyString.

Definition cancelled_world : world :=
  {| self_ := scheduler seconds (PyInt 10) (PyInt 2) (PyInt 5) [] (PyInt 0);
     trace := [];
     suspensions := [];
     forward_outcomes := [inr cancellation] |}.

(** The body of the [while True] loop of [wait_until_next]. *)
Definition steps_wait_body (dynamic_unit : number) : M world unit :=
  c <- lift (gets _step_counter) ;;
  if py_ge c dynamic_unit
  then
    c' <- py_sub c dynamic_unit ;;
    lift (modify (set_step_counter c'))
  else sleep (PyInt 1).




(** * The persistence handlers ([atom/handlers/handler.py]) *)

(** ** Strings and paths

    A [str] is a [string]; the functions below are the ones the handlers
    call.  Paths are POSIX paths. *)

(** [s.split(sep)] for a separator of one character. *)
Fixpoint split (sep : ascii) (s : string) : list string :=
  match s with
  | EmptyString => [EmptyString]
  | String c s' =>
      if Ascii.eqb c sep then EmptyString :: split sep s'
      else match split sep s' with
           | [] => [String c EmptyString]
           | x :: xs => String c x :: xs
           end
  end.

(** [l[-1]]. *)
Definition last_item {St} (l : list string) : M St string :=
  match last l with
  | Some x => ret x
  | None => raise (mk_exn (UserException "IndexError") "list index out of range")
  end.

(** [s.replace(old, new)] for a non-empty [old]: the occurrences of [old]
    are taken from left to right and do not overlap.  [skip] counts the
    characters of an occurrence that are still to be passed over. *)
Fixpoint replace_from (old new : string) (skip : nat) (s : string) : string :=
  match s with
  | EmptyString => EmptyString
  | String c s' =>
      match skip with
      | S k => replace_from old new k s'
      | O =>
          if String.prefix old s
          then new +:+ replace_from old new (String.length old - 1) s'
          else String c (replace_from old new 0 s')
      end
  end.

Definition replace (old new s : string) : string := replace_from old new 0 s.

(** [s.endswith("/")]. *)
Fixpoint endswith_sep (s : string) : bool :=
  match s with
  | EmptyString => false
  | String c EmptyString => Ascii.eqb c "/"%char
  | String _ s' => endswith_sep s'
  end.

(** [os.path.join(a, b)]. *)
Definition os_path_join (a b : string) : string :=
  if String.prefix "/" b then b
  else if String.eqb a EmptyString || endswith_sep a then a +:+ b
  else a +:+ "/" +:+ b.

(** [s.rfind(c)] for one character: the highest index of [c] in [s], or -1. *)
Fixpoint rfind_from (c : ascii) (s : string) (i found : Z) : Z :=
  match s with
  | EmptyString => found
  | String x s' => rfind_from c s' (i + 1) (if Ascii.eqb x c then i else found)
  end.

Definition rfind (c : ascii) (s : string) : Z := rfind_from c s 0 (-1).

Fixpoint string_drop (n : nat) (s : string) : string :=
  match n, s with
  | O, _ => s
  | S _, EmptyString => EmptyString
  | S k, String _ s' => string_drop k s'
  end.

(** The slice [s[i:]]: a negative [i] counts from the end. *)
Definition slice_from (i : Z) (s : string) : string :=
  let len := Z.of_nat (String.length s) in
  let start := if i <? 0 then Z.max (len + i) 0 else i in
  string_drop (Z.to_nat start) s.

(** The truth value of an [Optional[str]]: [None] and the empty string are
    false. *)
Definition truthy (o : option string) : bool :=
  match o with
  | Some s => negb (String.eqb s EmptyString)
  | None => false
  end.

(** [a or b], for a [b] that is a string. *)
Definition or_str (a : option string) (b : string) : string :=
  match a with
  | Some s => if String.eqb s EmptyString then b else s
  | None => b
  end.

(** [a or b], for optional strings. *)
Definition or_opt (a b : option string) : option string :=
  if truthy a then a else b.

Module GithubHandler.

(** The process: its working directory. *)
Record process := { cwd : string }.

Record t := {
  REPO_URL : string;
  original_dir : string;
  repo_name : string;
  repo_path : string
}.

(** [GithubHandler.__init__]. *)
Definition __init__ (repo_url : string) : M process t :=
  original_dir <- gets cwd ;;
  last <- last_item (split "/"%char repo_url) ;;
  let repo_name := replace ".git" EmptyString last in
  ret {| REPO_URL := repo_url;
         original_dir := original_dir;
         repo_name := repo_name;
         repo_path := os_path_join original_dir repo_name |}.

(** *** The methods that run git

    What the methods call outside the class is recorded, call by call; what
    those calls answer is given in advance: the answers of
    [os.path.exists], and what each other call returns or raises
    ([run_command] of [atom.utils], [subprocess.run], the reader,
    [shutil.rmtree], [os.chdir], [os.mkdir], writing a file). *)

Inductive call :=
| os_path_exists (path : string) (answer : bool)
| run_command (command : list string) (cwd : option string)
| subprocess_run (command : list string)
| reader (filepath : string)
| shutil_rmtree (path : string)
| os_chdir (path : string)
| os_mkdir (path : string)
| write_file (filename content : string)
| logging (level message : string).

Record world := {
  proc : process;
  calls : list call;
  exists_answers : list bool;
  outcomes : list (string + exn)
}.

Definition record_call (c : call) : M world unit :=
  modify (fun w =>
    {| proc := proc w;
       calls := calls w ++ [c];
       exists_answers := exists_answers w;
       outcomes := outcomes w |}).

(** [os.path.exists(path)]: the next answer, [False] when none is left. *)
Definition exists_ (path : string) : M world bool :=
  fun w =>
    let answer := hd false (exists_answers w) in
    (Returned answer,
     {| proc := proc w;
        calls := calls w ++ [os_path_exists path answer];
        exists_answers := tail (exists_answers w);
        outcomes := outcomes w |}).

(** A call that returns a value or raises: the next outcome, the empty
    string when none is left. *)
Definition external (c : call) : M world string :=
  fun w =>
    let w' :=
      {| proc := proc w;
         calls := calls w ++ [c];
         exists_answers := exists_answers w;
         outcomes := tail (outcomes w) |} in
    match outcomes w with
    | inr e :: _ => (Raised e, w')
    | inl out :: _ => (Returned out, w')
    | [] => (Returned EmptyString, w')
    end.

(** [os.chdir(path)]: [cwd] is a path that names the working directory, and
    a relative [path] is taken from it. *)
Definition chdir (path : string) : M world unit :=
  external (os_chdir path) ;;
  modify (fun w =>
    {| proc := {| cwd := os_path_join (cwd (proc w)) path |};
       calls := calls w;
       exists_answers := exists_answers w;
       outcomes := outcomes w |}).

Definition log (level message : string) : M world unit :=
  record_call (logging level message).

(** [isinstance(e, subprocess.CalledProcessError)]. *)
Definition isinstance_CalledProcessError (e : exn) : bool :=
  match exc_type e with
  | UserException name => String.eqb name "CalledProcessError"
  | _ => false
  end.

(** [isinstance(e, IOError)]: [IOError] is [OSError]; these are its builtin
    subclasses. *)
Definition OSError_classes : list string :=
  [ "OSError"; "IOError"; "EnvironmentError"; "BlockingIOError";
    "ChildProcessError"; "ConnectionError"; "BrokenPipeError";
    "ConnectionAbortedError"; "ConnectionRefusedError";
    "ConnectionResetError"; "FileExistsError"; "FileNotFoundError";
    "InterruptedError"; "IsADirectoryError"; "NotADirectoryError";
    "PermissionError"; "ProcessLookupError"; "TimeoutError" ].

Definition isinstance_IOError (e : exn) : bool :=
  match exc_type e with
  | UserException name => existsb (String.eqb name) OSError_classes
  | _ => false
  end.

(** [try: body / except C1 ...: h1 / except C2 ...: h2]: the first clause
    that matches handles the exception; what a handler raises is not
    handled by the clauses after it. *)
Definition try_except2 {St A} (body : M St A)
    (is_C1 : exn -> bool) (h1 : exn -> M St A)
    (is_C2 : exn -> bool) (h2 : exn -> M St A) : M St A :=
  fun s =>
    match body s with
    | (Raised e, s') =>
        if is_C1 e then h1 e s'
        else if is_C2 e then h2 e s'
        else (Raised e, s')
    | r => r
    end.

Definition try_except1 {St A} (body : M St A)
    (is_C : exn -> bool) (h : exn -> M St A) : M St A :=
  fun s =>
    match body s with
    | (Raised e, s') => if is_C e then h e s' else (Raised e, s')
    | r => r
    end.

(** [try: body / finally: cleanup]: [cleanup] runs however [body] ends, and
    what it raises replaces the outcome of [body]. *)
Definition try_finally {St A} (body : M St A) (cleanup : M St unit) : M St A :=
  fun s =>
    match body s with
    | (Pending, s') => (Pending, s')
    | (r, s') =>
        match cleanup s' with
        | (Returned _, s'') => (r, s'')
        | (Raised e, s'') => (Raised e, s'')
        | (Pending, s'') => (Pending, s'')
        end
    end.

(** [GithubHandler.clone]. *)
Definition clone (self : t) : M world unit :=
  there <- exists_ (repo_path self) ;;
  if negb there
  then
    try_except1
      (log "info" ("Cloning repository: " +:+ REPO_URL self) ;;
       external (run_command ["git"; "clone"; REPO_URL self] None) ;;
       ret tt)
      isinstance_CalledProcessError
      (fun e =>
         log "error"
           ("An error occurred during Git operations: " +:+ exc_msg e))
  else ret tt.

(** [GithubHandler.fetch_all]. *)
Definition fetch_all (self : t) : M world unit :=
  try_except1
    (log "info" "Fetching latest changes" ;;
     external
       (run_command ["git"; "fetch"; "--all"] (Some (repo_path self))) ;;
     ret tt)
    isinstance_CalledProcessError
    (fun e =>
       log "error" ("An error occurred during Git operations: " +:+ exc_msg e)).

(** [GithubHandler.get]: the content the reader returns, or [None]. *)
Definition get (self : t) (commit_sha filepath : string)
  : M world (option string) :=
  try_finally
    (try_except2
       (clone self ;;
        fetch_all self ;;
        log "info" ("Checking out commit: " +:+ commit_sha) ;;
        external (subprocess_run ["git"; "checkout"; commit_sha]) ;;
        there <- exists_ filepath ;;
        if there
        then
          log "info"
            ("File '" +:+ filepath +:+ "' found. Reading contents...") ;;
          content <- external (reader filepath) ;;
          ret (Some content)
        else
          log "error"
            ("File '" +:+ filepath +:+ "' not found in this commit.") ;;
          ret None)
       isinstance_CalledProcessError
       (fun e =>
          log "error"
            ("An error occurred during Git operations: " +:+ exc_msg e) ;;
          ret None)
       isinstance_IOError
       (fun e =>
          log "error"
            ("An error occurred while reading the file: " +:+ exc_msg e) ;;
          ret None))
    (there <- exists_ (repo_path self) ;;
     if there
     then
       log "info"
         ("Deleting the cloned repository folder: " +:+ repo_name self) ;;
       external (shutil_rmtree (repo_path self)) ;;
       ret tt
     else ret tt).

(** [GithubHandler.put]: the hash of the remote branch. *)
Definition put (self : t)
    (content folder_name file_ext hotkey branch_name : string)
  : M world string :=
  clone self ;;
  chdir (repo_path self) ;;
  log "info" ("Checking out and updating branch: " +:+ branch_name) ;;
  external (run_command ["git"; "checkout"; branch_name] None) ;;
  external (run_command ["git"; "pull"; "origin"; branch_name] None) ;;
  there <- exists_ folder_name ;;
  (if negb there
   then
     log "info" ("Creating folder: " +:+ folder_name) ;;
     external (os_mkdir (os_path_join (repo_path self) folder_name)) ;;
     ret tt
   else ret tt) ;;
  let filename := os_path_join folder_name (hotkey +:+ "." +:+ file_ext) in
  log "info" ("Creating file: " +:+ filename) ;;
  external (write_file filename content) ;;
  log "info" "Staging, committing, and pushing changes" ;;
  try_except1
    (external (run_command ["git"; "add"; filename] None) ;;
     external
       (run_command ["git"; "commit"; "-m"; hotkey +:+ " added file"] None) ;;
     external (run_command ["git"; "push"; "origin"; branch_name] None) ;;
     ret tt)
    isinstance_CalledProcessError
    (fun _ =>
       log "warning"
         "What you're currently trying to commit has no differences to your last commit. Proceeding with last commit...") ;;
  log "info" "Retrieving commit hash" ;;
  local_commit_hash <- external (run_command ["git"; "rev-parse"; "HEAD"] None) ;;
  external (run_command ["git"; "fetch"; "origin"; branch_name] None) ;;
  remote_commit_hash <-
    external
      (run_command ["git"; "rev-parse"; "origin/" +:+ branch_name] None) ;;
  (if String.eqb local_commit_hash remote_commit_hash
   then
     log "info" ("Successfully pushed. Commit hash: " +:+ local_commit_hash)
   else
     log "warning" "Local and remote commit hashes differ." ;;
     log "warning" ("Local commit hash: " +:+ local_commit_hash) ;;
     log "warning" ("Remote commit hash: " +:+ remote_commit_hash)) ;;
  chdir ".." ;;
  log "info" ("Deleting the cloned repository folder: " +:+ repo_name self) ;;
  external (shutil_rmtree (repo_name self)) ;;
  ret remote_commit_hash.

End GithubHandler.

Module S3Handler.

(** The objects an attribute of the handler can hold. *)
Inductive object :=
| obj_client (name : string)
| obj_function (name : string)
| obj_str (s : string)
| obj_dict (d : gmap string string).

(** The names the bodies of [S3Handler] and of [BaseHandler] bind;
    [class_client] is the client the class body creates. *)
Definition class_namespace (class_client : object) : gmap string object :=
  {[ "s3_client" := class_client;
     "__init__" := obj_function "S3Handler.__init__";
     "put" := obj_function "S3Handler.put";
     "get" := obj_function "S3Handler.get" ]}.

Definition base_namespace : gmap string object :=
  {[ "get" := obj_function "BaseHandler.get";
     "put" := obj_function "BaseHandler.put" ]}.

(** [self.name]: the attributes of the instance, then the class, then its
    base. *)
Definition getattr {St} (instance : gmap string object) (class_client : object)
    (name : string) : M St object :=
  match instance !! name with
  | Some v => ret v
  | None =>
      match class_namespace class_client !! name with
      | Some v => ret v
      | None =>
          match base_namespace !! name with
          | Some v => ret v
          | None =>
              raise (mk_exn (UserException "AttributeError")
                       ("'S3Handler' object has no attribute '"
                        +:+ name +:+ "'"))
          end
      end
  end.

Record t := {
  bucket_name : string;
  s3_client : object;
  custom_mime_types : gmap string string
}.

(** [S3Handler.__init__]. *)
Definition __init__ {St} (class_client : object)
    (bucket_name : string)
    (s3_client : option object)
    (custom_mime_types : option (gmap string string))
  : M St t :=
  let instance : gmap string object :=
    {[ "bucket_name" := obj_str bucket_name ]} in
  client <- match s3_client with
            | Some c => ret c
            | None => getattr instance class_client "default_s3_client"
            end ;;
  ret {| bucket_name := bucket_name;
         s3_client := client;
         custom_mime_types :=
           match custom_mime_types with
           | Some d => d
           | None => ∅
           end |}.

(** A call of [put_object]. *)
Record put_request := {
  Bucket : string;
  Key : string;
  Body : string;
  ContentType : string;
  ACL : string
}.

(** What [put] depends on and what it leaves behind: the local files (what
    [open(path, "rb").read()] returns or raises), [mimetypes.guess_type],
    what [put_object] raises on a client if it raises, and the requests
    that went through. *)
Record world := {
  read_file : string -> string + exn;
  guess_type : string -> option string;
  put_object_raises : object -> put_request -> option exn;
  uploaded : list put_request
}.

(** [Union[str, bool]]. *)
Inductive str_or_bool :=
| Str (s : string)
| Bool (b : bool).

Definition read (local_file_path : string) : M world string :=
  fun w =>
    match read_file w local_file_path with
    | inl data => (Returned data, w)
    | inr e => (Raised e, w)
    end.

Definition put_object (client : object) (r : put_request) : M world unit :=
  fun w =>
    match put_object_raises w client r with
    | Some e => (Raised e, w)
    | None =>
        (Returned tt,
         {| read_file := read_file w;
            guess_type := guess_type w;
            put_object_raises := put_object_raises w;
            uploaded := uploaded w ++ [r] |})
    end.

(** [isinstance(e, FileNotFoundError)], a class derived from [Exception]. *)
Definition isinstance_FileNotFoundError (e : exn) : bool :=
  match exc_type e with
  | UserException name => String.eqb name "FileNotFoundError"
  | _ => false
  end.

(** The MIME type [put] uploads with. *)
Definition resolve_content_type (custom : gmap string string)
    (file_name : string) (guessed content_type : option string) : string :=
  if negb (truthy content_type)
  then
    or_str
      (or_opt (custom !! slice_from (rfind "."%char file_name) file_name)
         guessed)
      "application/octet-stream"
  else or_str content_type EmptyString.

(** [S3Handler.put]. *)
Definition put (self : t)
    (local_file_path s3_bucket_location : string)
    (content_type : option string) (public : bool)
  : M world str_or_bool :=
  try_except_Exception
    (file_name <- last_item (split "/"%char local_file_path) ;;
     let key := os_path_join s3_bucket_location file_name in
     data <- read local_file_path ;;
     guessed <- gets (fun w => guess_type w local_file_path) ;;
     let content_type :=
       resolve_content_type (custom_mime_types self) file_name guessed
         content_type in
     put_object (s3_client self)
       {| Bucket := bucket_name self;
          Key := key;
          Body := data;
          ContentType := content_type;
          ACL := if public then "public-read" else "private" |} ;;
     ret (Str key))
    (fun e =>
       if isinstance_FileNotFoundError e then ret (Bool false)
       else ret (Bool false)).

(** *** Downloading

    What [get] depends on and what it leaves behind: the local files, what
    [open(path, "wb")] raises if it raises, what the attribute [s3_client]
    of a client is, what [download_fileobj] writes and whether it raises
    then, and what [exceptions.NoSuchKey] of a client is: a class, given by
    its instance test, unless reading it raises. *)
Record disk := {
  files : gmap string string;
  open_raises : string -> option exn;
  inner_client : object -> object + exn;
  download_fileobj : object -> string -> string -> string * option exn;
  NoSuchKey : object -> (exn -> bool) + exn
}.

(** [open(path, "wb")]: the file is created, or emptied. *)
Definition open_wb (path : string) : M disk unit :=
  fun w =>
    match open_raises w path with
    | Some e => (Raised e, w)
    | None =>
        (Returned tt,
         {| files := <[ path := EmptyString ]> (files w);
            open_raises := open_raises w;
            inner_client := inner_client w;
            download_fileobj := download_fileobj w;
            NoSuchKey := NoSuchKey w |})
    end.

(** [client.s3_client]. *)
Definition attr_s3_client (client : object) : M disk object :=
  fun w =>
    match inner_client w client with
    | inl c => (Returned c, w)
    | inr e => (Raised e, w)
    end.

(** [client.exceptions.NoSuchKey]. *)
Definition attr_NoSuchKey (client : object) : M disk (exn -> bool) :=
  fun w =>
    match NoSuchKey w client with
    | inl class => (Returned class, w)
    | inr e => (Raised e, w)
    end.

(** [client.download_fileobj(bucket, key, file)], [file] opened on [path]. *)
Definition download (client : object) (bucket key path : string)
  : M disk unit :=
  fun w =>
    let w' :=
      {| files := <[ path := fst (download_fileobj w client bucket key) ]>
                    (files w);
         open_raises := open_raises w;
         inner_client := inner_client w;
         download_fileobj := download_fileobj w;
         NoSuchKey := NoSuchKey w |} in
    match snd (download_fileobj w client bucket key) with
    | Some e => (Raised e, w')
    | None => (Returned tt, w')
    end.

(** [try: body / except <class_expr>: h1 / except Exception as e: h2]: the
    expression of the first clause is evaluated once [body] has raised, and
    what its evaluation raises leaves the statement. *)
Definition try_except_expr {St A} (body : M St A)
    (class_expr : M St (exn -> bool)) (h1 : M St A) (h2 : exn -> M St A)
  : M St A :=
  fun s =>
    match body s with
    | (Raised e, s') =>
        match class_expr s' with
        | (Returned is_class, s'') =>
            if is_class e then h1 s''
            else if isinstance_Exception e then h2 e s''
            else (Raised e, s'')
        | (Raised e', s'') => (Raised e', s'')
        | (Pending, s'') => (Pending, s'')
        end
    | r => r
    end.

(** [S3Handler.get]. *)
Definition get (self : t) (s3_key local_file_path : string) : M disk bool :=
  try_except_expr
    (open_wb local_file_path ;;
     client <- attr_s3_client (s3_client self) ;;
     download client (bucket_name self) s3_key local_file_path ;;
     ret true)
    (client <- attr_s3_client (s3_client self) ;;
     attr_NoSuchKey client)
    (ret false)
    (fun _ => ret false).

End S3Handler.

(** [c] occurs in [s]. *)
Fixpoint has_char (c : ascii) (s : string) : bool :=
  match s with
  | EmptyString => false
  | String x s' => Ascii.eqb x c || has_char c s'
  end.

(** A handler whose MIME table has an entry under "e", and local files in
    which only [/tmp/Makefile] exists; the store accepts every request. *)
Definition makefile_handler : S3Handler.t :=
  {| S3Handler.bucket_name := "models";
     S3Handler.s3_client := S3Handler.obj_client "spaces";
     S3Handler.custom_mime_types := {[ "e" := "text/x-makefile" ]} |}.

Definition local_disk : S3Handler.world :=
  {| S3Handler.read_file :=
       fun path =>
         if String.eqb path "/tmp/Makefile" then inl "all:"
         else inr (mk_exn (UserException "FileNotFoundError") path);
     S3Handler.guess_type := fun _ => None;
     S3Handler.put_object_raises := fun _ _ => None;
     S3Handler.uploaded := [] |}.

(** ** Vocabulary for the handlers *)

(** How many times the calls remove a directory tree. *)
Fixpoint removals (cs : list GithubHandler.call) : nat :=
  match cs with
  | [] => 0
  | GithubHandler.shutil_rmtree _ :: cs' => S (removals cs')
  | _ :: cs' => removals cs'
  end.

(** The call is one of [git add], [git commit], [git push]. *)
Definition publishes (c : GithubHandler.call) : bool :=
  match c with
  | GithubHandler.run_command (_ :: verb :: _) _ =>
      String.eqb verb "add" || String.eqb verb "commit"
      || String.eqb verb "push"
  | _ => false
  end.

(** From a state in [P], [m] returns in [Q] or raises in [E]. *)
Definition triple {St A} (P : St -> Prop) (m : M St A)
    (Q : A -> St -> Prop) (E : exn -> St -> Prop) : Prop :=
  forall s, P s ->
    match m s with
    | (Returned a, s') => Q a s'
    | (Raised e, s') => E e s'
    | (Pending, _) => False
    end.

(** Where [put] of [self] can be when it raises, from the directory [dir]
    and after [n] removals: not yet in the clone, in the clone, or back out
    of it with the removal failed. *)
Definition put_failure (self : GithubHandler.t) (dir : string) (n : nat)
    (s' : GithubHandler.world) : Prop :=
  (GithubHandler.cwd (GithubHandler.proc s') = dir
   /\ removals (GithubHandler.calls s') = n
   /\ (last (GithubHandler.calls s')
       = Some (GithubHandler.run_command
                 ["git"; "clone"; GithubHandler.REPO_URL self] None)
       \/ last (GithubHandler.calls s')
          = Some (GithubHandler.os_chdir (GithubHandler.repo_path self))))
  \/ (GithubHandler.cwd (GithubHandler.proc s')
      = os_path_join dir (GithubHandler.repo_path self)
      /\ removals (GithubHandler.calls s') = n)
  \/ (GithubHandler.cwd (GithubHandler.proc s')
      = os_path_join (os_path_join dir (GithubHandler.repo_path self)) ".."
      /\ last (GithubHandler.calls s')
         = Some (GithubHandler.shutil_rmtree (GithubHandler.repo_name self))).

(** The assertion every state satisfies. *)
Definition anywhere {St} : St -> Prop := fun _ => True.

(** A handler on a repository of the working directory [/srv]. *)
Definition models_handler : GithubHandler.t :=
  {| GithubHandler.REPO_URL := "https://github.com/org/models.git";
     GithubHandler.original_dir := "/srv";
     GithubHandler.repo_name := "models";
     GithubHandler.repo_path := "/srv/models" |}.

(** The clone is there and so is the file, which the reader rejects. *)
Definition malformed_file : GithubHandler.world :=
  {| GithubHandler.proc := {| GithubHandler.cwd := "/srv" |};
     GithubHandler.calls := [];
     GithubHandler.exists_answers := [true; true; true];
     GithubHandler.outcomes :=
       [ inl EmptyString; inl EmptyString;
         inr (mk_exn (UserException "JSONDecodeError") "Expecting value") ] |}.

(** The clone is there, the branch is not. *)
Definition missing_branch : GithubHandler.world :=
  {| GithubHandler.proc := {| GithubHandler.cwd := "/srv" |};
     GithubHandler.calls := [];
     GithubHandler.exists_answers := [true];
     GithubHandler.outcomes :=
       [ inl EmptyString;
         inr (mk_exn (UserException "CalledProcessError")
                "Command '['git', 'checkout', 'dev']' returned non-zero exit status 1.") ] |}.

(** The clone and the folder are there; the push is interrupted. *)
Definition interrupted_push : GithubHandler.world :=
  {| GithubHandler.proc := {| GithubHandler.cwd := "/srv" |};
     GithubHandler.calls := [];
     GithubHandler.exists_answers := [true; true];
     GithubHandler.outcomes :=
       [ inl EmptyString; inl EmptyString; inl EmptyString; inl EmptyString;
         inl EmptyString; inl EmptyString;
         inr (mk_exn KeyboardInterrupt EmptyString) ] |}.

(** The clone and the folder are there; the push is rejected. *)
Definition rejected_push : GithubHandler.world :=
  {| GithubHandler.proc := {| GithubHandler.cwd := "/srv" |};
     GithubHandler.calls := [];
     GithubHandler.exists_answers := [true; true];
     GithubHandler.outcomes :=
       [ inl EmptyString; inl EmptyString; inl EmptyString; inl EmptyString;
         inl EmptyString; inl EmptyString;
         inr (mk_exn (UserException "CalledProcessError") "rejected");
         inl "1f3a"; inl EmptyString; inl "9c0d";
         inl EmptyString; inl EmptyString ] |}.

(** A handler that holds a client without the attribute [s3_client], and a
    disk on which [/tmp/model.bin] holds an earlier download. *)
Definition attribute_error : exn :=
  mk_exn (UserException "AttributeError")
    "'S3' object has no attribute 's3_client'".

Definition bare_client_disk : S3Handler.disk :=
  {| S3Handler.files := {[ "/tmp/model.bin" := "weights" ]};
     S3Handler.open_raises := fun _ => None;
     S3Handler.inner_client := fun _ => inr attribute_error;
     S3Handler.download_fileobj := fun _ _ _ => (EmptyString, None);
     S3Handler.NoSuchKey := fun _ => inr attribute_error |}.

(** A store without the key: [download_fileobj] writes nothing and raises an
    error the class [NoSuchKey] does not cover. *)
Definition client_error : exn :=
  mk_exn (UserException "ClientError")
    "An error occurred (404) when calling the HeadObject operation: Not Found".

Definition missing_key_disk : S3Handler.disk :=
  {| S3Handler.files := {[ "/tmp/model.bin" := "weights" ]};
     S3Handler.open_raises := fun _ => None;
     S3Handler.inner_client := fun _ => inl (S3Handler.obj_client "inner");
     S3Handler.download_fileobj := fun _ _ _ => (EmptyString, Some client_error);
     S3Handler.NoSuchKey := fun _ => inl (fun _ => false) |}.

(** ** Facts about numbers *)

Lemma Qlt_0_inject_Z (z : Z) : (0 < inject_Z z)%Q <-> 0 < z.
Proof. unfold Qlt, inject_Z. cbn. lia. Qed.

Lemma Qle_inject_Z_0 (z : Z) : (inject_Z z <= 0)%Q <-> z <= 0.
Proof. unfold Qle, inject_Z. cbn. lia. Qed.

Lemma Qlt_0_Qmake (z : Z) (d : positive) : (0 < Qmake z d)%Q <-> 0 < z.
Proof. unfold Qlt. cbn. lia. Qed.

Lemma Qle_Qmake_0 (z : Z) (d : positive) : (Qmake z d <= 0)%Q <-> z <= 0.
Proof. unfold Qle. cbn. lia. Qed.

Lemma compare_Lt_iff (x y : Z) :
  match x ?= y with Lt => true | _ => false end = true <-> x < y.
Proof. destruct (Z.compare_spec x y); split; intros; try lia; congruence. Qed.

(** The sign test [x > 0], which the constructor applies to the scaling
    factor and the gate, with the counter at 0, to the frequency. *)
Lemma py_gt_0_spec (x : number) :
  py_gt x (PyInt 0) = true <-> (0 < to_Q x)%Q.
Proof.
  unfold py_gt. destruct x as [z|f]; cbn [py_lt to_Q].
  - rewrite Z.ltb_lt. symmetry. apply Qlt_0_inject_Z.
  - unfold compare_int_float, SF_to_Q.
    destruct (Prim2SF f) as [s|s| |s m e].
    + cbn. split; [discriminate | intros H; inversion H].
    + assert (P : 0 < 2 ^ 1024) by (apply Z.pow_pos_nonneg; lia).
      rewrite Qlt_0_inject_Z.
      destruct s; cbn [cond_Zopp]; split; intros H;
        try reflexivity; try discriminate; lia.
    + cbn. split; [discriminate | intros H; inversion H].
    + assert (P : forall p, 0 < 2 ^ Zpos p)
        by (intros p; apply Z.pow_pos_nonneg; lia).
      destruct e as [|p|p].
      * rewrite Qlt_0_inject_Z, compare_Lt_iff. reflexivity.
      * rewrite Qlt_0_inject_Z, compare_Lt_iff. reflexivity.
      * rewrite Qlt_0_Qmake, compare_Lt_iff. specialize (P p).
        destruct s; cbn [cond_Zopp]; lia.
Qed.

Lemma py_gt_0_false (x : number) :
  py_gt x (PyInt 0) = false <-> (to_Q x <= 0)%Q.
Proof.
  rewrite <- not_true_iff_false, py_gt_0_spec.
  split; [apply Qnot_lt_le | apply Qle_not_lt].
Qed.

(** Comparisons of two [int]s. *)
Lemma py_ge_int (x y : Z) : py_ge (PyInt x) (PyInt y) = true <-> y <= x.
Proof. unfold py_ge. cbn. apply Z.leb_le. Qed.

Lemma py_lt_int (x y : Z) : py_lt (PyInt x) (PyInt y) = true <-> x < y.
Proof. cbn. apply Z.ltb_lt. Qed.

(** ** Operations that leave the state alone *)

Lemma read_only_ret {St A} (a : A) : read_only (@ret St A a).
Proof. intros s. reflexivity. Qed.

Lemma read_only_raise {St A} (e : exn) : read_only (@raise St A e).
Proof. intros s. reflexivity. Qed.

Lemma read_only_gets {St A} (f : St -> A) : read_only (gets f).
Proof. intros s. reflexivity. Qed.

Lemma read_only_bind {St A B} (m : M St A) (k : A -> M St B) :
  read_only m -> (forall a, read_only (k a)) -> read_only (bind m k).
Proof.
  intros Hm Hk s. unfold bind. specialize (Hm s).
  destruct (m s) as [[a|e|] s']; cbn in *; subst; try reflexivity.
  apply Hk.
Qed.

Lemma read_only_py_float {St} (a : number) : read_only (@py_float St a).
Proof.
  destruct a as [z|f]; cbn [py_float]; [|apply read_only_ret].
  destruct (nearest_double z);
    first [apply read_only_ret | apply read_only_raise].
Qed.

Lemma read_only_float_op {St} (a b : number) (k : float -> float -> M St number) :
  (forall x y, read_only (k x y)) ->
  read_only (x <- py_float a ;; y <- py_float b ;; k x y).
Proof.
  intros Hk. apply read_only_bind; [apply read_only_py_float|]. intros x.
  apply read_only_bind; [apply read_only_py_float|]. intros y. apply Hk.
Qed.

Lemma read_only_py_sub {St} (a b : number) : read_only (@py_sub St a b).
Proof.
  destruct a as [x|f], b as [y|g]; cbn [py_sub];
    first [apply read_only_ret
          | apply read_only_float_op; intros; apply read_only_ret].
Qed.

Lemma read_only_py_add {St} (a b : number) : read_only (@py_add St a b).
Proof.
  destruct a as [x|f], b as [y|g]; cbn [py_add];
    first [apply read_only_ret
          | apply read_only_float_op; intros; apply read_only_ret].
Qed.

Lemma read_only_py_truediv {St} (a b : number) : read_only (@py_truediv St a b).
Proof.
  assert (F : forall x y : float,
            read_only (if (y =? 0)%float
                       then @raise St number
                              (mk_exn ZeroDivisionError
                                 "float division by zero")
                       else ret (PyFloat (x / y)))).
  { intros x y. destruct (y =? 0)%float;
      [apply read_only_raise | apply read_only_ret]. }
  destruct a as [x|f], b as [y|g]; cbn [py_truediv];
    try (apply read_only_float_op; exact F).
  destruct (y =? 0); [apply read_only_raise|].
  destruct (true_quotient x y);
    first [apply read_only_ret | apply read_only_raise].
Qed.

Lemma read_only_py_int {St} (x : number) : read_only (@py_int St x).
Proof.
  destruct x as [z|f]; cbn [py_int]; [apply read_only_ret|].
  destruct (Prim2SF f);
    first [apply read_only_ret | apply read_only_raise].
Qed.

(** What arithmetic raises is an instance of [Exception]. *)
Lemma raises_py_float {St} (a : number) (s : St) e :
  fst (py_float a s) = Raised e -> exc_type e = OverflowError.
Proof.
  destruct a as [z|f]; cbn [py_float]; [|discriminate].
  destruct (nearest_double z); cbn; intros H; try discriminate.
  now injection H as <-.
Qed.

Lemma raises_float_op {St} (a b : number) (k : float -> float -> M St number)
    (P : exn -> Prop) (s : St) e :
  (forall e, exc_type e = OverflowError -> P e) ->
  (forall x y s, fst (k x y s) = Raised e -> P e) ->
  fst ((x <- py_float a ;; y <- py_float b ;; k x y) s) = Raised e -> P e.
Proof.
  intros HO Hk. unfold bind.
  pose proof (raises_py_float a s) as Ha.
  pose proof (read_only_py_float a s) as Sa.
  destruct (py_float a s) as [[x| |] s1]; cbn in *; try discriminate.
  - subst s1.
    pose proof (raises_py_float (St := St) b s) as Hb.
    destruct (py_float b s) as [[y| |] s2] eqn:B; cbn in *; try discriminate.
    + apply Hk.
    + intros H. injection H as <-. apply HO, Hb. reflexivity.
  - intros H. injection H as <-. apply HO, Ha. reflexivity.
Qed.

Lemma raises_py_sub {St} (a b : number) (s : St) e :
  fst (py_sub a b s) = Raised e -> exc_type e = OverflowError.
Proof.
  destruct a as [x|f], b as [y|g]; cbn [py_sub]; try discriminate;
    apply (raises_float_op _ _ _ (fun e => exc_type e = OverflowError));
    auto; discriminate.
Qed.

Lemma raises_py_add {St} (a b : number) (s : St) e :
  fst (py_add a b s) = Raised e -> exc_type e = OverflowError.
Proof.
  destruct a as [x|f], b as [y|g]; cbn [py_add]; try discriminate;
    apply (raises_float_op _ _ _ (fun e => exc_type e = OverflowError));
    auto; discriminate.
Qed.

Lemma raises_py_truediv {St} (a b : number) (s : St) e :
  fst (py_truediv a b s) = Raised e ->
  exc_type e = OverflowError \/ exc_type e = ZeroDivisionError.
Proof.
  assert (F : forall (x y : float) (s : St),
            fst ((if (y =? 0)%float
                  then raise (mk_exn ZeroDivisionError
                                "float division by zero")
                  else ret (PyFloat (x / y))) s) = Raised e ->
            exc_type e = OverflowError \/ exc_type e = ZeroDivisionError).
  { intros x y s'. destruct (y =? 0)%float; cbn; intros H; try discriminate.
    injection H as <-. now right. }
  destruct a as [x|f], b as [y|g]; cbn [py_truediv];
    try (apply (raises_float_op _ _ _
                  (fun e => exc_type e = OverflowError
                            \/ exc_type e = ZeroDivisionError));
         [now left | exact F]).
  destruct (y =? 0); cbn.
  - intros H. injection H as <-. now right.
  - destruct (true_quotient x y); cbn; intros H; try discriminate.
    injection H as <-. now left.
Qed.

Lemma raises_py_int {St} (x : number) (s : St) e :
  fst (py_int x s) = Raised e ->
  exc_type e = OverflowError \/ exc_type e = ValueError.
Proof.
  destruct x as [z|f]; cbn [py_int]; [discriminate|].
  destruct (Prim2SF f); cbn; intros H; try discriminate;
    injection H as <-; auto.
Qed.

Lemma arithmetic_error_is_Exception e :
  exc_type e = OverflowError \/ exc_type e = ZeroDivisionError
  \/ exc_type e = ValueError ->
  isinstance_Exception e = true.
Proof.
  unfold isinstance_Exception. intros [H|[H|H]]; rewrite H; reflexivity.
Qed.

(** Arithmetic never suspends. *)
Lemma ends_ret {St A} (a : A) : ends (@ret St A a).
Proof. intros s. discriminate. Qed.

Lemma ends_raise {St A} (e : exn) : ends (@raise St A e).
Proof. intros s. discriminate. Qed.

Lemma ends_gets {St A} (f : St -> A) : ends (gets f).
Proof. intros s. discriminate. Qed.

Lemma ends_bind {St A B} (m : M St A) (k : A -> M St B) :
  ends m -> (forall a, ends (k a)) -> ends (bind m k).
Proof.
  intros Hm Hk s. unfold bind. specialize (Hm s).
  destruct (m s) as [[a|e|] s']; cbn in *;
    [apply Hk | discriminate | contradiction].
Qed.

Lemma ends_py_float {St} (a : number) : ends (@py_float St a).
Proof.
  destruct a as [z|f]; cbn [py_float]; [|apply ends_ret].
  destruct (nearest_double z); first [apply ends_ret | apply ends_raise].
Qed.

Lemma ends_float_op {St} (a b : number) (k : float -> float -> M St number) :
  (forall x y, ends (k x y)) ->
  ends (x <- py_float a ;; y <- py_float b ;; k x y).
Proof.
  intros Hk. apply ends_bind; [apply ends_py_float|]. intros x.
  apply ends_bind; [apply ends_py_float|]. intros y. apply Hk.
Qed.

Lemma ends_py_sub {St} (a b : number) : ends (@py_sub St a b).
Proof.
  destruct a as [x|f], b as [y|g]; cbn [py_sub];
    first [apply ends_ret | apply ends_float_op; intros; apply ends_ret].
Qed.

Lemma ends_py_truediv {St} (a b : number) : ends (@py_truediv St a b).
Proof.
  assert (F : forall x y : float,
            ends (if (y =? 0)%float
                  then @raise St number
                         (mk_exn ZeroDivisionError "float division by zero")
                  else ret (PyFloat (x / y)))).
  { intros x y. destruct (y =? 0)%float; [apply ends_raise | apply ends_ret]. }
  destruct a as [x|f], b as [y|g]; cbn [py_truediv];
    try (apply ends_float_op; exact F).
  destruct (y =? 0); [apply ends_raise|].
  destruct (true_quotient x y); first [apply ends_ret | apply ends_raise].
Qed.

Lemma ends_py_int {St} (x : number) : ends (@py_int St x).
Proof.
  destruct x as [z|f]; cbn [py_int]; [apply ends_ret|].
  destruct (Prim2SF f); first [apply ends_ret | apply ends_raise].
Qed.
(** ** The constructor *)

Lemma init_unfold cls ds f trig mn sf q (a : axon) :
  py_gt sf (PyInt 0) = true ->
  exists self c,
    __init__ cls ds f trig mn sf q a = (Returned self, a ++ [c]) /\
    class_ self = cls /\
    _should_exit self = false /\ _is_running self = false /\
    _trigger_frequency self = f /\ _trigger self = trig /\
    _trigger_min self = mn /\ _trigger_scaling_factor self = sf /\
    _organic_queue self = default [] q /\
    _step_counter self = PyInt 0 /\ _step_lock self = asyncio_Lock /\
    forward_fn c = _on_organic_entry self /\
    blacklist_fn c =
      (if overrides_blacklist_fn cls then Some (_blacklist_fn self) else None) /\
    priority_fn c =
      (if overrides_priority_fn cls then Some (_priority_fn self) else None) /\
    verify_fn c =
      (if overrides_verify_fn cls then Some (_verify_fn self) else None).
Proof.
  intros Hsf. unfold __init__, assert_, bind, attach, modify, ret.
  rewrite Hsf. eexists _, _. split; [reflexivity|].
  unfold _blacklist_fn, _priority_fn, _verify_fn, is_overridden, resolve.
  cbn. destruct q; cbn;
    destruct (overrides_blacklist_fn cls), (overrides_priority_fn cls),
      (overrides_verify_fn cls); cbn; repeat split; reflexivity.
Qed.

Lemma init_raises cls ds f trig mn sf q (a : axon) :
  py_gt sf (PyInt 0) = false ->
  __init__ cls ds f trig mn sf q a =
    (Raised (mk_exn AssertionError "The scaling factor must be higher than 0."),
     a).
Proof.
  intros Hsf. unfold __init__, assert_, bind. rewrite Hsf. reflexivity.
Qed.

(** C10.  Construction with a scaling factor that is zero or negative raises
    [AssertionError] and registers nothing with the server, so no object
    exists on which the loop could run; with a positive scaling factor the
    constructor returns the object. *)
Theorem init_checks_scaling_factor cls ds f trig mn sf q (a : axon) :
  ((to_Q sf <= 0)%Q ->
     __init__ cls ds f trig mn sf q a =
       (Raised
          (mk_exn AssertionError "The scaling factor must be higher than 0."),
        a)) /\
  ((0 < to_Q sf)%Q ->
     exists self c,
       __init__ cls ds f trig mn sf q a = (Returned self, a ++ [c]) /\
       _trigger_scaling_factor self = sf /\
       _should_exit self = false /\
       _step_counter self = PyInt 0).
Proof.
  split; intros H.
  - apply init_raises. apply py_gt_0_false. exact H.
  - destruct (init_unfold cls ds f trig mn sf q a) as (self & c & E & R).
    { apply py_gt_0_spec. exact H. }
    exists self, c. tauto.
Qed.

(** A scaling factor of 0 is refused, one of 0.5 is accepted. *)
Lemma init_checks_scaling_factor_witness :
  __init__ plain_subclass NoDataset (PyInt 10) seconds (PyInt 2) (PyInt 0) None []
    = (Raised
         (mk_exn AssertionError "The scaling factor must be higher than 0."),
       []) /\
  exists self c,
    __init__ plain_subclass NoDataset (PyInt 10) seconds (PyInt 2)
      (PyFloat 0.5) None [] = (Returned self, [] ++ [c]) /\
    _trigger_scaling_factor self = PyFloat 0.5 /\
    _should_exit self = false /\
    _step_counter self = PyInt 0.
Proof.
  split.
  - apply (proj1 (init_checks_scaling_factor plain_subclass NoDataset (PyInt 10)
                    seconds (PyInt 2) (PyInt 0) None [])).
    vm_compute. discriminate.
  - apply (proj2 (init_checks_scaling_factor plain_subclass NoDataset (PyInt 10)
                    seconds (PyInt 2) (PyFloat 0.5) None [])).
    vm_compute. reflexivity.
Defined.

(** C5.  The call of [attach] the constructor makes registers [verify_fn],
    [blacklist_fn] and [priority_fn] exactly when the class of the instance
    overrides them, passes [None] otherwise, and always registers
    [_on_organic_entry] as [forward_fn]. *)
Theorem init_registers_overridden_hooks cls ds f trig mn sf q (a a' : axon) self :
  __init__ cls ds f trig mn sf q a = (Returned self, a') ->
  exists c,
    a' = a ++ [c] /\
    forward_fn c = _on_organic_entry self /\
    registered_iff (verify_fn c) (overrides_verify_fn cls) (_verify_fn self) /\
    registered_iff (blacklist_fn c) (overrides_blacklist_fn cls)
      (_blacklist_fn self) /\
    registered_iff (priority_fn c) (overrides_priority_fn cls)
      (_priority_fn self).
Proof.
  intros E. destruct (py_gt sf (PyInt 0)) eqn:Hsf.
  - destruct (init_unfold cls ds f trig mn sf q a Hsf)
      as (self' & c & E' & _ & _ & _ & _ & _ & _ & _ & _ & _ & _ & Hf & Hb & Hp & Hv).
    rewrite E' in E. injection E as -> <-.
    exists c. unfold registered_iff. rewrite Hb, Hp, Hv.
    repeat split; try exact Hf;
      destruct (overrides_verify_fn cls), (overrides_blacklist_fn cls),
        (overrides_priority_fn cls); congruence.
  - rewrite init_raises in E by exact Hsf. discriminate.
Qed.

(** For a class that overrides [_blacklist_fn] only. *)
Lemma init_registers_overridden_hooks_witness :
  exists self a',
    __init__ blacklisting_subclass NoDataset (PyInt 10) steps (PyInt 2)
      (PyInt 5) None [] = (Returned self, a') /\
    exists c,
      a' = [] ++ [c] /\
      forward_fn c = _on_organic_entry self /\
      registered_iff (verify_fn c) false (_verify_fn self) /\
      registered_iff (blacklist_fn c) true (_blacklist_fn self) /\
      registered_iff (priority_fn c) false (_priority_fn self).
Proof.
  eexists _, _. split; [cbv; reflexivity|].
  apply (init_registers_overridden_hooks blacklisting_subclass NoDataset
           (PyInt 10) steps (PyInt 2) (PyInt 5) None []).
  reflexivity.
Defined.

(** ** The step counter's methods *)

(** On the lock the constructor creates, both methods raise before they read
    the trigger, and leave the object as it was. *)
Lemma increment_step_asyncio self :
  _step_lock self = asyncio_Lock ->
  increment_step self = (Raised lock_error, self).
Proof.
  intros H. unfold increment_step, bind, gets. rewrite H. reflexivity.
Qed.

Lemma set_step_asyncio step self :
  _step_lock self = asyncio_Lock ->
  set_step step self = (Raised lock_error, self).
Proof.
  intros H. unfold set_step, bind, gets. rewrite H. reflexivity.
Qed.

(** With a lock that supports [with], they do what their docstrings say. *)
Lemma increment_step_threading self c :
  _step_lock self = threading_Lock ->
  _step_counter self = PyInt c ->
  increment_step self =
    (Returned tt,
     match _trigger self with
     | steps => set_step_counter (PyInt (c + 1)) self
     | seconds => self
     end).
Proof.
  intros H C. unfold increment_step, bind, gets. rewrite H. cbn.
  destruct (_trigger self); [reflexivity|]. rewrite C. reflexivity.
Qed.

Lemma increment_step_seconds self :
  _trigger self = seconds ->
  snd (increment_step self) = self.
Proof.
  intros T. unfold increment_step, bind, gets, with_.
  destruct (has_enter (_step_lock self)); [|reflexivity].
  rewrite T. reflexivity.
Qed.

Lemma set_step_threading step self :
  _step_lock self = threading_Lock ->
  set_step step self =
    (Returned tt,
     match _trigger self with
     | steps => set_step_counter (PyInt step) self
     | seconds => self
     end).
Proof.
  intros H. unfold set_step, bind, gets. rewrite H. cbn.
  destruct (_trigger self); reflexivity.
Qed.

(** C6 (the code at the failing input).  On the object the constructor
    returns in "steps" mode, [increment_step] and [set_step] raise
    [TypeError] and the counter stays at 0: the lock is an [asyncio.Lock],
    which the [with] statement cannot enter. *)
Theorem step_methods_raise_after_init :
  let self := scheduler steps (PyInt 10) (PyInt 2) (PyInt 5) [] (PyInt 0) in
  fst (__init__ plain_subclass NoDataset (PyInt 10) steps (PyInt 2) (PyInt 5)
         None []) = Returned self /\
  increment_step self = (Raised lock_error, self) /\
  set_step 7 self = (Raised lock_error, self) /\
  _step_counter (snd (increment_step self)) = PyInt 0 /\
  _step_counter (snd (set_step 7 self)) = PyInt 0.
Proof. cbv zeta. repeat split. Qed.

(** ** The annealing rate *)

Lemma read_only_sample_rate_dynamic : read_only sample_rate_dynamic.
Proof.
  unfold sample_rate_dynamic.
  apply read_only_bind; [apply read_only_gets|]. intros size.
  apply read_only_bind; [apply read_only_gets|]. intros f.
  apply read_only_bind; [apply read_only_gets|]. intros sf.
  apply read_only_bind; [apply read_only_gets|]. intros mn.
  apply read_only_bind; [apply read_only_py_truediv|]. intros q.
  apply read_only_bind; [apply read_only_py_sub|]. intros d.
  apply read_only_bind; [apply read_only_gets|]. intros [|].
  - apply read_only_ret.
  - apply read_only_bind; [apply read_only_py_int|]. intros z.
    apply read_only_ret.
Qed.

Lemma sample_rate_dynamic_self self : snd (sample_rate_dynamic self) = self.
Proof. apply read_only_sample_rate_dynamic. Qed.

Lemma sample_rate_dynamic_pair self :
  sample_rate_dynamic self = (fst (sample_rate_dynamic self), self).
Proof.
  rewrite <- (sample_rate_dynamic_self self) at 3. apply surjective_pairing.
Qed.

(** How [sample_rate_dynamic] ends, from the outcomes of its three
    operations. *)
Lemma sample_rate_dynamic_eq self :
  fst (sample_rate_dynamic self) =
    match fst (py_truediv (PyInt (size (_organic_queue self)))
                 (_trigger_scaling_factor self) self) with
    | Returned quotient =>
        match fst (py_sub (_trigger_frequency self) quotient self) with
        | Returned difference =>
            let delay := py_max difference (_trigger_min self) in
            match _trigger self with
            | seconds => Returned delay
            | steps =>
                match fst (py_int delay self) with
                | Returned steps_ => Returned (PyInt steps_)
                | Raised e => Raised e
                | Pending => Pending
                end
            end
        | Raised e => Raised e
        | Pending => Pending
        end
    | Raised e => Raised e
    | Pending => Pending
    end.
Proof.
  unfold sample_rate_dynamic, bind, gets.
  pose proof (read_only_py_truediv (PyInt (size (_organic_queue self)))
                (_trigger_scaling_factor self) self) as S1.
  destruct (py_truediv _ _ self) as [[q|e|] s1]; cbn in *; subst;
    try reflexivity.
  pose proof (read_only_py_sub (_trigger_frequency self) q self) as S2.
  destruct (py_sub _ _ self) as [[d|e|] s2]; cbn in *; subst;
    try reflexivity.
  destruct (_trigger self); [reflexivity|].
  pose proof (read_only_py_int (py_max d (_trigger_min self)) self) as S3.
  destruct (py_int _ self) as [[z|e|] s3]; cbn in *; subst; reflexivity.
Qed.

(** It never suspends, raises arithmetic errors only, and in "steps" mode
    returns an [int]. *)
Lemma sample_rate_dynamic_raises self e :
  fst (sample_rate_dynamic self) = Raised e ->
  exc_type e = OverflowError \/ exc_type e = ZeroDivisionError
  \/ exc_type e = ValueError.
Proof.
  rewrite sample_rate_dynamic_eq.
  pose proof (raises_py_truediv (PyInt (size (_organic_queue self)))
                (_trigger_scaling_factor self) self) as R1.
  destruct (fst (py_truediv _ _ self)) as [q|x|]; try discriminate.
  - pose proof (raises_py_sub (_trigger_frequency self) q self) as R2.
    destruct (fst (py_sub _ _ self)) as [d|x|]; try discriminate.
    + cbv zeta. destruct (_trigger self); [discriminate|].
      pose proof (raises_py_int (py_max d (_trigger_min self)) self) as R3.
      destruct (fst (py_int _ self)) as [z|x|]; try discriminate.
      intros H. injection H as ->. specialize (R3 e eq_refl). tauto.
    + intros H. injection H as ->. left. now apply R2.
  - intros H. injection H as ->. specialize (R1 e eq_refl). tauto.
Qed.

Lemma sample_rate_dynamic_raises_Exception self e :
  fst (sample_rate_dynamic self) = Raised e -> isinstance_Exception e = true.
Proof.
  intros H. apply arithmetic_error_is_Exception.
  now apply sample_rate_dynamic_raises with (self := self).
Qed.

Lemma ends_sample_rate_dynamic : ends sample_rate_dynamic.
Proof.
  unfold sample_rate_dynamic.
  apply ends_bind; [apply ends_gets|]. intros size.
  apply ends_bind; [apply ends_gets|]. intros f.
  apply ends_bind; [apply ends_gets|]. intros sf.
  apply ends_bind; [apply ends_gets|]. intros mn.
  apply ends_bind; [apply ends_py_truediv|]. intros q.
  apply ends_bind; [apply ends_py_sub|]. intros d.
  apply ends_bind; [apply ends_gets|]. intros [|].
  - apply ends_ret.
  - apply ends_bind; [apply ends_py_int|]. intros z. apply ends_ret.
Qed.

Lemma sample_rate_dynamic_steps_int self du :
  _trigger self = steps ->
  fst (sample_rate_dynamic self) = Returned du ->
  exists d, du = PyInt d.
Proof.
  intros T. rewrite sample_rate_dynamic_eq, T.
  destruct (fst (py_truediv _ _ self)) as [q|x|]; try discriminate.
  destruct (fst (py_sub _ _ self)) as [d|x|]; try discriminate.
  cbv zeta. destruct (fst (py_int _ self)) as [z|x|]; try discriminate.
  intros H. injection H as <-. now exists z.
Qed.

Lemma SFcompare_refl x : SFcompare x x <> Some Lt.
Proof.
  destruct x as [s|s| |s m e]; cbn; try destruct s; try discriminate;
    rewrite Z.compare_refl, Pos.compare_cont_refl; discriminate.
Qed.

Lemma py_lt_irrefl x : py_lt x x = false.
Proof.
  destruct x as [z|f]; cbn [py_lt].
  - apply Z.ltb_irrefl.
  - rewrite FloatAxioms.ltb_spec. unfold SFltb.
    pose proof (SFcompare_refl (Prim2SF f)) as H.
    destruct (SFcompare (Prim2SF f) (Prim2SF f)) as [[| |]|];
      [reflexivity | now destruct H | reflexivity | reflexivity].
Qed.

(** [max(a, b)] is never below [b]. *)
Lemma py_max_not_below a b : py_lt (py_max a b) b = false.
Proof.
  unfold py_max, py_gt. destruct (py_lt a b) eqn:E; [apply py_lt_irrefl|exact E].
Qed.

(** In "seconds" mode what [sample_rate_dynamic] returns is never below the
    minimum. *)
Lemma sample_rate_dynamic_seconds_not_below_min self du :
  _trigger self = seconds ->
  fst (sample_rate_dynamic self) = Returned du ->
  py_lt du (_trigger_min self) = false.
Proof.
  intros T. rewrite sample_rate_dynamic_eq, T.
  destruct (fst (py_truediv _ _ self)) as [q|x|]; try discriminate.
  destruct (fst (py_sub _ _ self)) as [d|x|]; try discriminate.
  cbv zeta. intros H. injection H as <-. apply py_max_not_below.
Qed.

(** The worked examples of the annealing rate: a frequency of 10, a scaling
    factor of 5 and a minimum of 2. *)
Example sample_rate_dynamic_empty_queue :
  fst (sample_rate_dynamic
         (scheduler seconds (PyInt 10) (PyInt 2) (PyInt 5) [] (PyInt 0)))
  = Returned (PyFloat 10).
Proof. reflexivity. Qed.

Example sample_rate_dynamic_queue_of_10 :
  fst (sample_rate_dynamic
         (scheduler seconds (PyInt 10) (PyInt 2) (PyInt 5) (repeat "x" 10)
            (PyInt 0)))
  = Returned (PyFloat 8).
Proof. reflexivity. Qed.

(** With 40 entries the difference, 2.0, is not above the minimum, the
    [int] 2, and [max] keeps its first argument. *)
Example sample_rate_dynamic_queue_of_40 :
  fst (sample_rate_dynamic
         (scheduler seconds (PyInt 10) (PyInt 2) (PyInt 5) (repeat "x" 40)
            (PyInt 0)))
  = Returned (PyFloat 2).
Proof. reflexivity. Qed.

Example sample_rate_dynamic_queue_of_41_steps :
  fst (sample_rate_dynamic
         (scheduler steps (PyInt 10) (PyInt 2) (PyInt 5) (repeat "x" 41)
            (PyInt 0)))
  = Returned (PyInt 2).
Proof. reflexivity. Qed.

(** Rounding, and the conversion of an [int] that is too large. *)
Example sample_rate_dynamic_rounds :
  fst (sample_rate_dynamic
         (scheduler steps (PyInt 12) (PyInt 0)
            (PyFloat 0x1.3333333333333p-2) (repeat "x" 3) (PyInt 0)))
  = Returned (PyInt 2).
Proof. reflexivity. Qed.

Example sample_rate_dynamic_overflows :
  fst (sample_rate_dynamic
         (scheduler seconds (PyInt (10 ^ 400)) (PyInt 2) (PyInt 5) []
            (PyInt 0)))
  = Raised (mk_exn OverflowError "int too large to convert to float").
Proof. vm_compute. reflexivity. Qed.

(** C2 (the code at the failing input).  In "steps" mode with a frequency
    of 1, a minimum of 2.5 and an empty queue, the delay is the minimum,
    2.5, and [sample_rate_dynamic] returns [int(2.5)], which is 2: the
    dynamic unit is below the minimum.  In "seconds" mode the same
    configuration gives 2.5. *)
Theorem sample_rate_dynamic_truncates_below_min :
  let self := scheduler steps (PyInt 1) (PyFloat 2.5) (PyInt 5) [] (PyInt 0) in
  py_gt (_trigger_scaling_factor self) (PyInt 0) = true /\
  sample_rate_dynamic self = (Returned (PyInt 2), self) /\
  py_lt (PyInt 2) (_trigger_min self) = true /\
  py_ge (PyInt 2) (_trigger_min self) = false /\
  fst (sample_rate_dynamic
         (scheduler seconds (PyInt 1) (PyFloat 2.5) (PyInt 5) [] (PyInt 0)))
  = Returned (PyFloat 2.5).
Proof. cbv zeta. repeat split. Qed.

(** ** Equations of the monad and of the primitives of coroutines *)

Lemma bind_Returned {St A B} (m : M St A) (k : A -> M St B) s a s' :
  m s = (Returned a, s') -> bind m k s = k a s'.
Proof. intros E. unfold bind. rewrite E. reflexivity. Qed.

Lemma bind_Raised {St A B} (m : M St A) (k : A -> M St B) s e s' :
  m s = (Raised e, s') -> bind m k s = (Raised e, s').
Proof. intros E. unfold bind. rewrite E. reflexivity. Qed.

Lemma bind_Pending {St A B} (m : M St A) (k : A -> M St B) s s' :
  m s = (Pending, s') -> bind m k s = (Pending, s').
Proof. intros E. unfold bind. rewrite E. reflexivity. Qed.

Lemma read_only_eq {St A} (m : M St A) s :
  read_only m -> m s = (fst (m s), s).
Proof.
  intros H. rewrite <- (H s) at 3. apply surjective_pairing.
Qed.

Lemma lift_gets {A} (f : OrganicScoringBase -> A) w :
  lift (gets f) w = (Returned (f (self_ w)), w).
Proof. destruct w; reflexivity. Qed.

Lemma lift_unchanged {A} (m : M OrganicScoringBase A) r w :
  m (self_ w) = (r, self_ w) -> lift m w = (r, w).
Proof. intros E. unfold lift. rewrite E. destruct w; reflexivity. Qed.

Lemma lift_sample_rate_dynamic w :
  lift sample_rate_dynamic w = (fst (sample_rate_dynamic (self_ w)), w).
Proof. apply lift_unchanged, sample_rate_dynamic_pair. Qed.

Lemma emit_eq e w : emit e w = (Returned tt, recorded e w).
Proof. reflexivity. Qed.

Lemma suspend_eq w : suspend w = (Returned tt, resumed w).
Proof. reflexivity. Qed.

(** The three ways a sleep goes: it ends, it is refused, or it never
    ends. *)
Lemma sleep_wakes delay w :
  wakes delay = true ->
  sleep delay w = (Returned tt, resumed (recorded (ev_sleep delay) w)).
Proof.
  unfold wakes, sleep. destruct (py_le delay (PyInt 0)); [reflexivity|].
  cbn [orb]. destruct delay as [z|f].
  - cbn [py_float]. destruct (nearest_double z); intros H;
      try discriminate; reflexivity.
  - destruct (PrimFloat.is_nan f); [discriminate|].
    destruct (f =? infinity)%float; [discriminate|]. reflexivity.
Qed.

Lemma sleep_cases delay w :
  (wakes delay = true
   /\ sleep delay w = (Returned tt, resumed (recorded (ev_sleep delay) w)))
  \/ (wakes delay = false /\ endless delay = true
      /\ sleep delay w = (Pending, resumed (recorded (ev_sleep delay) w)))
  \/ (wakes delay = false
      /\ exists e,
           sleep delay w = (Raised e, w)
           /\ (exc_type e = OverflowError \/ exc_type e = ValueError)).
Proof.
  destruct (wakes delay) eqn:W;
    [left; split; [reflexivity|]; now apply sleep_wakes|].
  right. revert W. unfold wakes, sleep, endless.
  destruct (py_le delay (PyInt 0)); [discriminate|]. cbn [orb].
  destruct delay as [z|f].
  - cbn [py_float]. destruct (nearest_double z); try discriminate.
    intros _. right. split; [reflexivity|]. eexists. split; [reflexivity|].
    now left.
  - destruct (PrimFloat.is_nan f) eqn:N.
    + intros _. right. split; [reflexivity|].
      eexists. split; [reflexivity|]. now right.
    + destruct (f =? infinity)%float; [|discriminate].
      intros _. left. repeat split.
Qed.

Lemma sleep_1 w :
  sleep (PyInt 1) w = (Returned tt, resumed (recorded (ev_sleep (PyInt 1)) w)).
Proof. apply sleep_wakes. reflexivity. Qed.

Lemma sleep_poll w :
  sleep poll_delay w = (Returned tt, resumed (recorded (ev_sleep poll_delay) w)).
Proof. apply sleep_wakes. reflexivity. Qed.

Lemma slept_wakes delay w :
  wakes delay = true -> slept delay w = resumed (recorded (ev_sleep delay) w).
Proof. intros H. unfold slept. now rewrite sleep_wakes. Qed.

Lemma slept_1 w : slept (PyInt 1) w = resumed (recorded (ev_sleep (PyInt 1)) w).
Proof. now apply slept_wakes. Qed.

Lemma slept_poll w :
  slept poll_delay w = resumed (recorded (ev_sleep poll_delay) w).
Proof. now apply slept_wakes. Qed.

Lemma trace_recorded e w : trace (recorded e w) = trace w ++ [e].
Proof. reflexivity. Qed.

Lemma trace_resumed w : trace (resumed w) = trace w.
Proof. unfold resumed, suspend, modify. cbn. destruct (suspensions w); reflexivity. Qed.

Lemma trace_slept delay w :
  wakes delay = true -> trace (slept delay w) = trace w ++ [ev_sleep delay].
Proof. intros H. rewrite slept_wakes, trace_resumed by exact H. reflexivity. Qed.

Lemma self_recorded e w : self_ (recorded e w) = self_ w.
Proof. reflexivity. Qed.

Lemma self_resumed w :
  self_ (resumed w) =
    match suspensions w with
    | [] => self_ w
    | calls :: _ => foldl run_external (self_ w) calls
    end.
Proof. unfold resumed, suspend, modify. cbn. destruct (suspensions w); reflexivity. Qed.

Lemma resumed_quiet w : suspensions w = [] -> resumed w = w.
Proof. intros E. unfold resumed, suspend, modify. cbn. rewrite E. reflexivity. Qed.

Lemma while_S {St} fuel (cond : M St bool) (body : M St unit) :
  while (S fuel) cond body =
    (b <- cond ;; if b then (body ;; while fuel cond body) else ret tt).
Proof. reflexivity. Qed.

Lemma keeps_ret {St A} (I : St -> Prop) (a : A) : keeps I (ret a).
Proof. intros s H. exact H. Qed.

Lemma keeps_bind {St A B} (I : St -> Prop) (m : M St A) (k : A -> M St B) :
  keeps I m -> (forall a, keeps I (k a)) -> keeps I (bind m k).
Proof.
  intros Hm Hk s H. unfold bind. specialize (Hm s H).
  destruct (m s) as [[a|e|] s']; cbn in *; [now apply Hk | exact Hm | exact Hm].
Qed.

Lemma keeps_while {St} (I : St -> Prop) (cond : M St bool) (body : M St unit) fuel :
  keeps I cond -> keeps I body -> keeps I (while fuel cond body).
Proof.
  intros Hc Hb. induction fuel as [|fuel IH].
  - intros s H. exact H.
  - rewrite while_S. apply keeps_bind; [exact Hc|].
    intros [|]; [|apply keeps_ret].
    apply keeps_bind; [exact Hb | intros _; exact IH].
Qed.

Lemma keeps_try {St A} (I : St -> Prop) (body : M St A) (handler : exn -> M St A) :
  keeps I body -> (forall e, keeps I (handler e)) ->
  keeps I (try_except_Exception body handler).
Proof.
  intros Hb Hh s H. unfold try_except_Exception. specialize (Hb s H).
  destruct (body s) as [[a|e|] s']; cbn in *; try exact Hb.
  destruct (isinstance_Exception e); [now apply Hh | exact Hb].
Qed.

Lemma keeps_read_only {St A} (I : St -> Prop) (m : M St A) :
  read_only m -> keeps I m.
Proof. intros R s H. now rewrite R. Qed.

Lemma keeps_lift_gets {A} (I : world -> Prop) (f : OrganicScoringBase -> A) :
  keeps I (lift (gets f)).
Proof. intros w H. rewrite lift_gets. exact H. Qed.

Lemma keeps_lift_sample_rate_dynamic (I : world -> Prop) :
  keeps I (lift sample_rate_dynamic).
Proof. intros w H. rewrite lift_sample_rate_dynamic. exact H. Qed.

Lemma forward_eq w :
  forward w =
    (match forward_outcomes w with
     | [] => Returned ∅
     | inl l :: _ => Returned l
     | inr e :: _ => Raised e
     end,
     taken (resumed (recorded ev_forward w))).
Proof.
  unfold forward. rewrite (bind_Returned _ _ _ _ _ (emit_eq _ _)).
  rewrite (bind_Returned _ _ _ _ _ (suspend_eq _)).
  assert (E : forward_outcomes (resumed (recorded ev_forward w))
              = forward_outcomes w).
  { unfold resumed, suspend, modify. cbn. destruct (suspensions w); reflexivity. }
  rewrite <- E. generalize (resumed (recorded ev_forward w)). clear.
  intros [s t su fo]. unfold taken. cbn.
  destruct fo as [|[l|e] rest]; reflexivity.
Qed.

(** The waiting phase, from the outcome of [sample_rate_dynamic]. *)
Lemma wait_until_next_eq fuel timer_elapsed w :
  wait_until_next fuel timer_elapsed w =
    match fst (sample_rate_dynamic (self_ w)) with
    | Returned dynamic_unit =>
        match _trigger (self_ w) with
        | seconds =>
            (remaining <- py_sub dynamic_unit timer_elapsed ;;
             sleep (py_max remaining (PyInt 0))) w
        | steps =>
            while fuel (ret true) (steps_wait_body dynamic_unit) w
        end
    | Raised e => (Raised e, w)
    | Pending => (Pending, w)
    end.
Proof.
  unfold wait_until_next. unfold bind at 1. rewrite lift_sample_rate_dynamic.
  destruct (fst (sample_rate_dynamic (self_ w))); try reflexivity.
  unfold bind at 1. rewrite lift_gets.
  destruct (_trigger (self_ w)); reflexivity.
Qed.

(** In "steps" mode the waiting phase is its loop on an [int] unit, unless
    [sample_rate_dynamic] raised. *)
Lemma wait_until_next_steps fuel timer_elapsed w :
  _trigger (self_ w) = steps ->
  (exists d,
     fst (sample_rate_dynamic (self_ w)) = Returned (PyInt d)
     /\ wait_until_next fuel timer_elapsed w
        = while fuel (ret true) (steps_wait_body (PyInt d)) w)
  \/ (exists e,
        fst (sample_rate_dynamic (self_ w)) = Raised e
        /\ wait_until_next fuel timer_elapsed w = (Raised e, w)).
Proof.
  intros T. rewrite wait_until_next_eq, T.
  pose proof (ends_sample_rate_dynamic (self_ w)) as E.
  pose proof (sample_rate_dynamic_steps_int (self_ w)) as D.
  destruct (fst (sample_rate_dynamic (self_ w))) as [du|e|];
    [|right; exists e; split; reflexivity|contradiction].
  destruct (D du T eq_refl) as [d ->]. left. exists d. split; reflexivity.
Qed.

(** An invariant of the world that recording an event, running the other
    tasks, taking an outcome of [forward] and the loop's guarded subtraction
    keep is an invariant of the loop and of its parts. *)
Section Invariants.
Variable I : world -> Prop.
Hypothesis I_recorded : forall e w, I w -> I (recorded e w).
Hypothesis I_resumed : forall w, I w -> I (resumed w).
Hypothesis I_taken : forall w, I w -> I (taken w).
Hypothesis I_subtracted :
  forall w d c',
    I w -> py_ge (_step_counter (self_ w)) (PyInt d) = true ->
    fst (py_sub (_step_counter (self_ w)) (PyInt d) w) = Returned c' ->
    I (counted c' w).

Lemma keeps_sleep delay : keeps I (sleep delay).
Proof.
  intros w H.
  destruct (sleep_cases delay w) as [[_ E]|[(_ & _ & E)|(_ & e & E & _)]];
    rewrite E; cbn [snd]; auto.
Qed.

Lemma keeps_steps_wait_body d : keeps I (steps_wait_body (PyInt d)).
Proof.
  intros w H. unfold steps_wait_body, bind. rewrite lift_gets.
  destruct (py_ge (_step_counter (self_ w)) (PyInt d)) eqn:E.
  - pose proof (I_subtracted w d) as S.
    rewrite (read_only_eq (py_sub _ _) w) by apply read_only_py_sub.
    destruct (fst (py_sub (_step_counter (self_ w)) (PyInt d) w)) as [c'| |];
      cbn [snd]; auto.
    now apply S.
  - apply keeps_sleep; assumption.
Qed.

Lemma keeps_wait_until_next fuel timer_elapsed :
  keeps I (wait_until_next fuel timer_elapsed).
Proof.
  intros w H. destruct (_trigger (self_ w)) eqn:T.
  - rewrite wait_until_next_eq, T.
    destruct (fst (sample_rate_dynamic (self_ w))) as [du| |]; cbn [snd]; auto.
    apply keeps_bind; [apply keeps_read_only, read_only_py_sub| |exact H].
    intros r. apply keeps_sleep.
  - destruct (wait_until_next_steps fuel timer_elapsed w T)
      as [(d & _ & ->)|(e & _ & ->)]; [|exact H].
    apply keeps_while; [apply keeps_ret | apply keeps_steps_wait_body | exact H].
Qed.

Lemma keeps_idle_gate fuel : keeps I (idle_gate fuel).
Proof.
  unfold idle_gate.
  apply keeps_bind; [apply keeps_lift_gets|]. intros [|].
  - apply keeps_ret.
  - apply keeps_while; [|apply keeps_sleep].
    apply keeps_bind; [apply keeps_lift_gets|]. intros c.
    apply keeps_bind; [apply keeps_lift_gets|]. intros f.
    apply keeps_ret.
Qed.

Lemma keeps_sample_and_wait fuel : keeps I (sample_and_wait fuel).
Proof.
  unfold sample_and_wait. apply keeps_try.
  - apply keeps_bind; [|intros l; apply keeps_wait_until_next].
    intros w H. rewrite forward_eq. cbn [snd]. auto.
  - intros e. apply keeps_bind; [|intros _; apply keeps_sleep].
    intros w H. unfold logging_error. rewrite emit_eq. cbn [snd]. auto.
Qed.

Lemma keeps_start_loop fuel inner : keeps I (start_loop fuel inner).
Proof.
  unfold start_loop. apply keeps_while.
  - apply keeps_bind; [apply keeps_lift_gets|]. intros b. apply keeps_ret.
  - apply keeps_bind; [apply keeps_idle_gate|]. intros _.
    apply keeps_sample_and_wait.
Qed.
End Invariants.
(** ** The step counter is never negative *)

Lemma counter_nonneg_int self c :
  _step_counter self = PyInt c -> counter_nonneg self <-> 0 <= c.
Proof.
  intros E. unfold counter_nonneg. rewrite E. cbn [to_Q].
  unfold Qle, inject_Z. cbn. lia.
Qed.

(** The counter is an [int] that is not negative. *)
Lemma counter_natural self :
  counter_is_int self /\ counter_nonneg self <->
  exists c, _step_counter self = PyInt c /\ 0 <= c.
Proof.
  split.
  - intros [[c E] H]. exists c. split; [exact E|].
    now apply (counter_nonneg_int self c E).
  - intros (c & E & H). split; [now exists c|].
    now apply (counter_nonneg_int self c E).
Qed.

Lemma increment_step_natural self :
  counter_is_int self /\ counter_nonneg self ->
  counter_is_int (snd (increment_step self))
  /\ counter_nonneg (snd (increment_step self)).
Proof.
  intros H. destruct (_step_lock self) eqn:L.
  - now rewrite increment_step_asyncio.
  - apply counter_natural in H as (c & E & Hc).
    rewrite (increment_step_threading self c L E). cbn [snd].
    apply counter_natural.
    destruct (_trigger self); [now exists c|].
    exists (c + 1). split; [reflexivity | lia].
Qed.

Lemma set_step_natural step self :
  0 <= step ->
  counter_is_int self /\ counter_nonneg self ->
  counter_is_int (snd (set_step step self))
  /\ counter_nonneg (snd (set_step step self)).
Proof.
  intros Hs H. destruct (_step_lock self) eqn:L.
  - now rewrite set_step_asyncio.
  - rewrite set_step_threading by exact L. cbn [snd].
    destruct (_trigger self); [exact H|].
    apply counter_natural. exists step. now split.
Qed.

Lemma run_external_natural self c :
  call_nonneg c ->
  counter_is_int self /\ counter_nonneg self ->
  counter_is_int (run_external self c) /\ counter_nonneg (run_external self c).
Proof.
  destruct c; cbn [run_external call_nonneg]; intros Hc H.
  - now apply increment_step_natural.
  - now apply set_step_natural.
  - exact H.
  - exact H.
  - exact H.
Qed.

Lemma foldl_run_external_natural calls self :
  Forall call_nonneg calls ->
  counter_is_int self /\ counter_nonneg self ->
  counter_is_int (foldl run_external self calls)
  /\ counter_nonneg (foldl run_external self calls).
Proof.
  revert self. induction calls as [|c calls IH]; intros self Hc H; [exact H|].
  inversion Hc; subst. cbn. apply IH; [assumption|].
  now apply run_external_natural.
Qed.

Lemma counter_invariant_split w :
  counter_invariant w <->
  (counter_is_int (self_ w) /\ counter_nonneg (self_ w)) /\ calls_nonneg w.
Proof. unfold counter_invariant. tauto. Qed.

Lemma counter_invariant_recorded e w :
  counter_invariant w -> counter_invariant (recorded e w).
Proof. intros H. exact H. Qed.

Lemma counter_invariant_resumed w :
  counter_invariant w -> counter_invariant (resumed w).
Proof.
  rewrite !counter_invariant_split. intros [Hc Hs]. unfold calls_nonneg in *.
  unfold resumed, suspend, modify. cbn [snd].
  destruct (suspensions w) as [|calls rest] eqn:E.
  - rewrite E. now split.
  - inversion Hs; subst. cbn. split; [|assumption].
    now apply foldl_run_external_natural.
Qed.

Lemma counter_invariant_taken w :
  counter_invariant w -> counter_invariant (taken w).
Proof. intros H. exact H. Qed.

Lemma counter_invariant_subtracted w d c' :
  counter_invariant w ->
  py_ge (_step_counter (self_ w)) (PyInt d) = true ->
  fst (py_sub (_step_counter (self_ w)) (PyInt d) w) = Returned c' ->
  counter_invariant (counted c' w).
Proof.
  rewrite !counter_invariant_split. intros [Hc Hs] Hge Hsub.
  split; [|exact Hs].
  apply counter_natural in Hc as (c & E & Hc).
  rewrite E in Hge, Hsub. apply py_ge_int in Hge.
  cbn in Hsub. injection Hsub as <-.
  apply counter_natural. exists (c - d). split; [reflexivity | lia].
Qed.

Lemma counter_invariant_lift (m : M OrganicScoringBase unit) w :
  (forall self,
     counter_is_int self /\ counter_nonneg self ->
     counter_is_int (snd (m self)) /\ counter_nonneg (snd (m self))) ->
  counter_invariant w -> counter_invariant (snd (lift m w)).
Proof.
  rewrite !counter_invariant_split.
  intros Hm [Hc Hs]. unfold lift. specialize (Hm _ Hc).
  destruct (m (self_ w)) as [r self']. now split.
Qed.

Lemma counter_invariant_run_op w op :
  op_nonneg op -> counter_invariant w -> counter_invariant (run_op w op).
Proof.
  destruct op as [|value|fuel timer_elapsed]; cbn [run_op op_nonneg]; intros Ho H.
  - apply counter_invariant_lift; [apply increment_step_natural | exact H].
  - apply counter_invariant_lift; [|exact H].
    intros self. apply set_step_natural. exact Ho.
  - revert H. apply keeps_wait_until_next.
    + apply counter_invariant_recorded.
    + apply counter_invariant_resumed.
    + apply counter_invariant_subtracted.
Qed.

Lemma counter_invariant_init w :
  _step_counter (self_ w) = PyInt 0 -> calls_nonneg w -> counter_invariant w.
Proof.
  intros E H. apply counter_invariant_split. split; [|exact H].
  apply counter_natural. exists 0. split; [exact E | lia].
Qed.

(** C7.  From a counter at 0, after any sequence of calls of
    [increment_step], of [set_step] with non-negative values and of the
    waiting phase of the loop (the only place where the loop subtracts, and
    only under [self._step_counter >= dynamic_unit]), interleaved with such
    calls made by other tasks at the suspensions, the counter is not
    negative; the same holds wherever a run of [start_loop] has got to. *)
Theorem step_counter_never_negative :
  (forall (ops : list counter_op) (w : world),
     _step_counter (self_ w) = PyInt 0 ->
     Forall op_nonneg ops ->
     calls_nonneg w ->
     counter_nonneg (self_ (foldl run_op w ops))) /\
  (forall (fuel inner : nat) (w : world),
     _step_counter (self_ w) = PyInt 0 ->
     calls_nonneg w ->
     counter_nonneg (self_ (snd (start_loop fuel inner w)))).
Proof.
  split.
  - intros ops w E Ho Hs.
    assert (H : counter_invariant w) by now apply counter_invariant_init.
    clear E Hs. revert w H.
    induction ops as [|op ops IH]; intros w H; [exact (proj1 (proj2 H))|].
    inversion Ho; subst. cbn. apply IH; [assumption|].
    now apply counter_invariant_run_op.
  - intros fuel inner w E Hs.
    assert (H : counter_invariant w) by now apply counter_invariant_init.
    exact (proj1 (proj2 (keeps_start_loop counter_invariant
                    counter_invariant_recorded counter_invariant_resumed
                    counter_invariant_taken counter_invariant_subtracted
                    fuel inner w H))).
Qed.

(** ** What is never written *)

Lemma same_settings_refl a : same_settings a a.
Proof. repeat split. Qed.

Lemma same_settings_trans a b c :
  same_settings a b -> same_settings b c -> same_settings a c.
Proof.
  unfold same_settings. intros H1 H2.
  repeat split; etransitivity; (apply H1 || apply H2).
Qed.

Lemma same_settings_set_step_counter v self :
  same_settings self (set_step_counter v self).
Proof. repeat split. Qed.

Lemma same_settings_increment_step self :
  same_settings self (snd (increment_step self)).
Proof.
  unfold increment_step, bind, gets, with_.
  destruct (has_enter (_step_lock self)); [|apply same_settings_refl].
  destruct (_trigger self); [apply same_settings_refl|].
  rewrite (read_only_eq (py_add _ _) self) by apply read_only_py_add.
  destruct (fst (py_add (_step_counter self) (PyInt 1) self));
    cbn [snd]; try apply same_settings_refl.
  apply same_settings_set_step_counter.
Qed.

Lemma same_settings_set_step step self :
  same_settings self (snd (set_step step self)).
Proof.
  destruct (_step_lock self) eqn:L.
  - rewrite set_step_asyncio by exact L. apply same_settings_refl.
  - rewrite set_step_threading by exact L.
    destruct (_trigger self) eqn:T; cbn [snd]; repeat split.
Qed.

Lemma same_settings_run_external self c :
  same_settings self (run_external self c).
Proof.
  destruct c; cbn [run_external].
  - apply same_settings_increment_step.
  - apply same_settings_set_step.
  - repeat split.
  - repeat split.
  - repeat split.
Qed.

Lemma same_settings_foldl calls self :
  same_settings self (foldl run_external self calls).
Proof.
  revert self. induction calls as [|c calls IH]; intros self.
  - apply same_settings_refl.
  - cbn. eapply same_settings_trans; [apply same_settings_run_external | apply IH].
Qed.

Lemma same_settings_resumed w : same_settings (self_ w) (self_ (resumed w)).
Proof.
  rewrite self_resumed. destruct (suspensions w).
  - apply same_settings_refl.
  - apply same_settings_foldl.
Qed.

Lemma same_settings_slept delay w :
  same_settings (self_ w) (self_ (slept delay w)).
Proof.
  unfold slept.
  destruct (sleep_cases delay w) as [[_ E]|[(_ & _ & E)|(_ & e & E & _)]];
    rewrite E; cbn [snd];
    first [apply (same_settings_resumed (recorded _ w))
          | apply same_settings_refl].
Qed.

(** The settings of the object are those it had when the loop started,
    wherever a run of the loop has got to. *)
Lemma start_loop_same_settings fuel inner w :
  same_settings (self_ w) (self_ (snd (start_loop fuel inner w))).
Proof.
  apply (keeps_start_loop (fun w' => same_settings (self_ w) (self_ w'))).
  - intros e w' H. exact H.
  - intros w' H. eapply same_settings_trans; [exact H | apply same_settings_resumed].
  - intros w' H. exact H.
  - intros w' d c' H _ _. destruct w'; exact H.
  - apply same_settings_refl.
Qed.

(** ** The waiting phase in "steps" mode *)

(** The [while True] loop has no [break] and no [return]: while its body
    returns, it is still running at every bound. *)
Lemma while_True_pending (J : world -> Prop) (body : M world unit) fuel w :
  (forall w', J w' -> fst (body w') = Returned tt /\ J (snd (body w'))) ->
  J w ->
  fst (while fuel (ret true) body w) = Pending.
Proof.
  intros Hb. revert w. induction fuel as [|fuel IH]; intros w H; [reflexivity|].
  rewrite while_S. unfold bind at 1, ret at 1. unfold bind at 1.
  destruct (Hb w H) as [R H']. destruct (body w) as [r w']. cbn in R, H'.
  subst r. now apply IH.
Qed.

(** It returns at no bound, whatever its body does. *)
Lemma while_True_never_returns (body : M world unit) fuel w :
  fst (while fuel (ret true) body w) <> Returned tt.
Proof.
  revert w. induction fuel as [|fuel IH]; intros w; [discriminate|].
  rewrite while_S. unfold bind at 1, ret at 1. unfold bind at 1.
  destruct (body w) as [[[]| |] w']; [apply IH | discriminate | discriminate].
Qed.

Lemma counter_is_int_resumed w :
  counter_is_int (self_ w) -> counter_is_int (self_ (resumed w)).
Proof.
  intros H. rewrite self_resumed. destruct (suspensions w) as [|calls rest];
    [exact H|].
  clear rest. revert H. generalize (self_ w).
  induction calls as [|c calls IH]; intros self H; [exact H|].
  cbn. apply IH. destruct c; cbn [run_external]; try exact H.
  - destruct H as [x E]. destruct (_step_lock self) eqn:L.
    + rewrite increment_step_asyncio by exact L. now exists x.
    + rewrite (increment_step_threading self x L E). cbn [snd].
      destruct (_trigger self); [now exists x | now exists (x + 1)].
  - destruct (_step_lock self) eqn:L.
    + now rewrite set_step_asyncio.
    + rewrite set_step_threading by exact L. cbn [snd].
      destruct (_trigger self); [exact H | now exists step].
Qed.

Lemma steps_wait_body_returns d w :
  counter_is_int (self_ w) ->
  fst (steps_wait_body (PyInt d) w) = Returned tt
  /\ counter_is_int (self_ (snd (steps_wait_body (PyInt d) w))).
Proof.
  intros [c E]. unfold steps_wait_body, bind. rewrite lift_gets, E.
  destruct (py_ge (PyInt c) (PyInt d)).
  - cbn. destruct w; cbn. split; [reflexivity | now exists (c - d)].
  - rewrite sleep_1. cbn [fst snd]. split; [reflexivity|].
    apply counter_is_int_resumed. now exists c.
Qed.

(** In "steps" mode, once [sample_rate_dynamic] has returned, the waiting
    phase never returns. *)
Lemma wait_until_next_steps_pending fuel timer_elapsed w du :
  _trigger (self_ w) = steps ->
  fst (sample_rate_dynamic (self_ w)) = Returned du ->
  counter_is_int (self_ w) ->
  fst (wait_until_next fuel timer_elapsed w) = Pending.
Proof.
  intros T R C.
  destruct (wait_until_next_steps fuel timer_elapsed w T)
    as [(d & _ & ->)|(e & R' & _)]; [|congruence].
  apply (while_True_pending (fun w' => counter_is_int (self_ w')));
    [|exact C].
  intros w'. apply steps_wait_body_returns.
Qed.

(** C1 (the code at the failing input).  In "steps" mode with a dynamic unit
    of 2 and the counter at 5, [wait_until_next] subtracts the unit twice
    (5, 3, 1), then sleeps one second at a time for ever: it never returns,
    where the claim has it subtract once and return. *)
Theorem wait_until_next_steps_subtracts_twice_and_never_returns :
  let w := quiet (scheduler steps (PyInt 2) (PyInt 2) (PyInt 5) [] (PyInt 5)) in
  sample_rate_dynamic (self_ w) = (Returned (PyInt 2), self_ w) /\
  never_returns (fun fuel => wait_until_next fuel (PyInt 0)) w /\
  _step_counter (self_ (snd (wait_until_next 1 (PyInt 0) w))) = PyInt 3 /\
  _step_counter (self_ (snd (wait_until_next 2 (PyInt 0) w))) = PyInt 1 /\
  _step_counter (self_ (snd (wait_until_next 5 (PyInt 0) w))) = PyInt 1 /\
  trace (snd (wait_until_next 5 (PyInt 0) w)) =
    [ev_sleep (PyInt 1); ev_sleep (PyInt 1); ev_sleep (PyInt 1)].
Proof.
  cbv zeta. split; [reflexivity|]. split.
  - intros fuel.
    apply (wait_until_next_steps_pending fuel (PyInt 0) _ (PyInt 2));
      [reflexivity | reflexivity | now exists 5].
  - repeat split.
Qed.

(** Counter set to 5, incremented, then drained by a unit of 2; and a run of
    the loop with a dynamic unit of 0. *)
Lemma step_counter_never_negative_witness :
  counter_nonneg
    (self_ (foldl run_op
              (quiet (with_threading_lock
                        (scheduler steps (PyInt 2) (PyInt 2) (PyInt 5) []
                           (PyInt 0))))
              [op_set 5; op_increment; op_wait 4 (PyInt 0)])) /\
  counter_nonneg
    (self_ (snd (start_loop 3 3
                   (quiet (scheduler steps (PyInt 0) (PyInt 0) (PyInt 5) []
                             (PyInt 0)))))).
Proof.
  split.
  - apply (proj1 step_counter_never_negative).
    + reflexivity.
    + repeat constructor; cbn; lia.
    + constructor.
  - apply (proj2 step_counter_never_negative).
    + reflexivity.
    + constructor.
Defined.

(** ** The loop, one step at a time *)


Lemma start_loop_iterate fuel inner w :
  _should_exit (self_ w) = false ->
  start_loop (S fuel) inner w =
    ((idle_gate inner ;; sample_and_wait inner) ;; start_loop fuel inner) w.
Proof.
  intros H. unfold start_loop. rewrite while_S.
  unfold bind at 1 2. rewrite lift_gets, H. reflexivity.
Qed.

(** ** The gate *)

Lemma idle_gate_seconds inner w :
  _trigger (self_ w) = seconds -> idle_gate inner w = (Returned tt, w).
Proof.
  intros T. unfold idle_gate.
  rewrite (bind_Returned _ _ _ _ _ (lift_gets _ _)), T. reflexivity.
Qed.

Lemma idle_gate_steps inner w :
  _trigger (self_ w) = steps ->
  idle_gate inner w =
    while inner
      (c <- lift (gets _step_counter) ;;
       f <- lift (gets _trigger_frequency) ;;
       ret (py_lt c f))
      (sleep poll_delay) w.
Proof.
  intros T. unfold idle_gate.
  rewrite (bind_Returned _ _ _ _ _ (lift_gets _ _)), T. reflexivity.
Qed.

Lemma idle_gate_open inner w :
  _trigger (self_ w) = steps -> gate_closed w = false ->
  idle_gate (S inner) w = (Returned tt, w).
Proof.
  intros T G. rewrite idle_gate_steps by exact T. rewrite while_S.
  unfold bind at 1 2 3. rewrite !lift_gets. unfold ret at 1.
  unfold gate_closed in G. rewrite G. reflexivity.
Qed.

Lemma idle_gate_closed inner w :
  _trigger (self_ w) = steps -> gate_closed w = true ->
  idle_gate (S inner) w = idle_gate inner (slept poll_delay w).
Proof.
  intros T G. rewrite (idle_gate_steps inner).
  2:{ rewrite <- T. symmetry. apply same_settings_slept. }
  rewrite idle_gate_steps by exact T. rewrite while_S.
  unfold bind at 1 2 3. rewrite !lift_gets. unfold ret at 1.
  unfold gate_closed in G. rewrite G.
  unfold bind at 1. rewrite sleep_poll, slept_poll. reflexivity.
Qed.

Lemma polled_S k w : polled (S k) w = polled k (slept poll_delay w).
Proof. unfold polled. apply Nat.iter_succ_r. Qed.

Lemma same_settings_polled k w : same_settings (self_ w) (self_ (polled k w)).
Proof.
  induction k as [|k IH]; [apply same_settings_refl|].
  eapply same_settings_trans; [exact IH|]. apply same_settings_slept.
Qed.

Lemma trace_polled k w :
  trace (polled k w) = trace w ++ repeat (ev_sleep poll_delay) k.
Proof.
  induction k as [|k IH].
  - cbn. now rewrite app_nil_r.
  - change (polled (S k) w) with (slept poll_delay (polled k w)).
    rewrite trace_slept, IH, <- app_assoc by reflexivity. f_equal.
    symmetry. apply (repeat_cons k (ev_sleep poll_delay)).
Qed.

(** While the counter is below the frequency at each poll, the gate is still
    blocked after [k] polls. *)
Lemma idle_gate_blocked k w :
  _trigger (self_ w) = steps ->
  (forall i, (i < k)%nat -> gate_closed (polled i w) = true) ->
  idle_gate k w = (Pending, polled k w).
Proof.
  revert w. induction k as [|k IH]; intros w T H.
  - rewrite idle_gate_steps by exact T. reflexivity.
  - rewrite idle_gate_closed; [|exact T|apply (H 0%nat); lia].
    rewrite polled_S. apply IH.
    + rewrite <- T. symmetry. apply same_settings_slept.
    + intros i Hi. rewrite <- polled_S. apply H. lia.
Qed.

(** The gate lets the loop through at the first poll that finds the counter
    at or above the frequency. *)
Lemma idle_gate_passes k inner w :
  _trigger (self_ w) = steps ->
  (forall i, (i < k)%nat -> gate_closed (polled i w) = true) ->
  gate_closed (polled k w) = false ->
  idle_gate (S (k + inner)) w = (Returned tt, polled k w).
Proof.
  revert w. induction k as [|k IH]; intros w T H G.
  - apply idle_gate_open; assumption.
  - cbn [Nat.add]. rewrite idle_gate_closed; [|exact T|apply (H 0%nat); lia].
    rewrite polled_S. apply IH.
    + rewrite <- T. symmetry. apply same_settings_slept.
    + intros i Hi. rewrite <- polled_S. apply H. lia.
    + rewrite <- polled_S. exact G.
Qed.

Lemma is_nan_false f : PrimFloat.is_nan f = false -> Prim2SF f <> S754_nan.
Proof.
  unfold PrimFloat.is_nan. rewrite FloatAxioms.eqb_spec. intros H E.
  rewrite E in H. discriminate H.
Qed.

(** For an [int] and a number that is not NaN, [<] is the negation of
    [>=]. *)
Lemma py_lt_int_not_ge c f :
  is_NaN f = false -> py_lt (PyInt c) f = negb (py_ge (PyInt c) f).
Proof.
  destruct f as [y|g]; cbn [is_NaN]; intros N; unfold py_ge;
    cbn [py_lt py_le].
  - apply Z.ltb_antisym.
  - pose proof (is_nan_false g N) as P. unfold compare_int_float.
    destruct (Prim2SF g) as [s|s| |s m e].
    + destruct (c ?= 0); reflexivity.
    + destruct s; reflexivity.
    + now destruct P.
    + destruct e; match goal with |- context [?a ?= ?b] =>
                    destruct (a ?= b) end; reflexivity.
Qed.

Lemma counter_is_int_polled k w :
  counter_is_int (self_ w) -> counter_is_int (self_ (polled k w)).
Proof.
  intros H. induction k as [|k IH]; [exact H|].
  change (polled (S k) w) with (slept poll_delay (polled k w)).
  rewrite slept_poll. now apply counter_is_int_resumed.
Qed.

(** C8.  In "seconds" mode the gate returns at once, without an event, and
    an iteration starts with the call of [forward].  In "steps" mode the gate
    polls every 100 ms while [self._step_counter < self._trigger_frequency]:
    it is still blocked after [k] polls that all found the counter below the
    configured frequency, and returns at the first poll that does not;
    with the [int] counter of the constructor and a frequency that is not
    NaN, a poll does not find the counter below the frequency exactly when
    [self._step_counter >= self._trigger_frequency].  The threshold is the
    configured frequency; the queue and the dynamic unit play no part.  So
    does the loop, at the head of any of its iterations: after those [k]
    polls it is still running and has done nothing but sleep, and when the
    next poll does not find the counter below the frequency, the iteration
    goes on from there with the call of [forward]. *)
Theorem idle_gate_waits_for_trigger_frequency (inner : nat) (w : world) :
  (_trigger (self_ w) = seconds ->
     idle_gate inner w = (Returned tt, w) /\
     forall fuel,
       _should_exit (self_ w) = false ->
       start_loop (S fuel) inner w =
         (sample_and_wait inner ;; start_loop fuel inner) w) /\
  (_trigger (self_ w) = steps ->
     forall k,
       (forall i, (i < k)%nat -> gate_closed (polled i w) = true) ->
       idle_gate k w = (Pending, polled k w) /\
       (gate_closed (polled k w) = false ->
          idle_gate (S (k + inner)) w = (Returned tt, polled k w)) /\
       trace (polled k w) = trace w ++ repeat (ev_sleep poll_delay) k /\
       _trigger_frequency (self_ (polled k w)) = _trigger_frequency (self_ w) /\
       (counter_is_int (self_ w) ->
        is_NaN (_trigger_frequency (self_ w)) = false ->
        gate_closed (polled k w)
        = negb (py_ge (_step_counter (self_ (polled k w)))
                  (_trigger_frequency (self_ w)))) /\
       forall fuel,
         _should_exit (self_ w) = false ->
         start_loop (S fuel) k w = (Pending, polled k w) /\
         (gate_closed (polled k w) = false ->
            start_loop (S fuel) (S (k + inner)) w =
              (sample_and_wait (S (k + inner)) ;;
               start_loop fuel (S (k + inner))) (polled k w))).
Proof.
  split.
  - intros T. split; [now apply idle_gate_seconds|].
    intros fuel E. rewrite start_loop_iterate by exact E.
    unfold bind at 1 2. rewrite idle_gate_seconds by exact T. reflexivity.
  - intros T k H. repeat split.
    + now apply idle_gate_blocked.
    + intros G. now apply idle_gate_passes.
    + apply trace_polled.
    + symmetry. apply same_settings_polled.
    + intros Hc N. destruct (counter_is_int_polled k w Hc) as [c E].
      unfold gate_closed. rewrite E.
      replace (_trigger_frequency (self_ (polled k w)))
        with (_trigger_frequency (self_ w))
        by apply same_settings_polled.
      now apply py_lt_int_not_ge.
    + rewrite start_loop_iterate by assumption.
      unfold bind at 1 2. now rewrite idle_gate_blocked.
    + intros G. rewrite start_loop_iterate by assumption.
      unfold bind at 1 2. now rewrite idle_gate_passes.
Qed.

(** In [stepping_world] the counter (1) is at the dynamic unit (1) and below
    the frequency (3): the gate blocks for two polls and opens at 3, and so
    does the loop, which calls [forward] only then. *)
Lemma idle_gate_waits_for_trigger_frequency_witness :
  (idle_gate 4
     (quiet (scheduler seconds (PyInt 10) (PyInt 2) (PyInt 5) [] (PyInt 0)))
   = (Returned tt,
      quiet (scheduler seconds (PyInt 10) (PyInt 2) (PyInt 5) [] (PyInt 0)))) /\
  sample_rate_dynamic (self_ stepping_world)
    = (Returned (PyInt 1), self_ stepping_world) /\
  idle_gate 2 stepping_world = (Pending, polled 2 stepping_world) /\
  idle_gate (S (2 + 4)) stepping_world = (Returned tt, polled 2 stepping_world) /\
  _step_counter (self_ (polled 2 stepping_world)) = PyInt 3 /\
  gate_closed (polled 2 stepping_world)
  = negb (py_ge (_step_counter (self_ (polled 2 stepping_world)))
            (_trigger_frequency (self_ stepping_world))) /\
  start_loop 1 2 stepping_world = (Pending, polled 2 stepping_world) /\
  trace (polled 2 stepping_world) = [ev_sleep poll_delay; ev_sleep poll_delay] /\
  start_loop 1 (S (2 + 4)) stepping_world
  = (sample_and_wait (S (2 + 4)) ;; start_loop 0 (S (2 + 4)))
      (polled 2 stepping_world).
Proof.
  split; [|split; [reflexivity|]].
  - apply (proj1 (idle_gate_waits_for_trigger_frequency 4
                    (quiet (scheduler seconds (PyInt 10) (PyInt 2) (PyInt 5) []
                              (PyInt 0))))).
    reflexivity.
  - assert (H : forall i, (i < 2)%nat -> gate_closed (polled i stepping_world) = true).
    { intros [|[|i]] Hi; [reflexivity | reflexivity | lia]. }
    destruct (proj2 (idle_gate_waits_for_trigger_frequency 4 stepping_world)
                eq_refl 2%nat H) as (B & P & Tr & _ & N & L).
    destruct (L 0%nat eq_refl) as [L1 L2].
    split; [exact B|]. split; [apply P; reflexivity|].
    split; [reflexivity|].
    split; [apply N; [now exists 1 | reflexivity]|].
    split; [exact L1|].
    split; [exact Tr|]. apply L2. reflexivity.
Defined.

(** ** What a coroutine can raise *)

Lemma raises_only_ret {St A} (P : exn -> Prop) (a : A) :
  raises_only (St := St) P (ret a).
Proof. intros s e H. discriminate H. Qed.

Lemma raises_only_bind {St A B} (P : exn -> Prop) (m : M St A) (k : A -> M St B) :
  raises_only P m -> (forall a, raises_only P (k a)) -> raises_only P (bind m k).
Proof.
  intros Hm Hk s e. unfold bind. specialize (Hm s).
  destruct (m s) as [[a|e'|] s']; cbn in *.
  - apply Hk.
  - intros E. apply Hm. injection E as ->. reflexivity.
  - discriminate.
Qed.

Lemma raises_only_while {St} (P : exn -> Prop) (cond : M St bool)
    (body : M St unit) fuel :
  raises_only P cond -> raises_only P body ->
  raises_only P (while fuel cond body).
Proof.
  intros Hc Hb. induction fuel as [|fuel IH].
  - intros s e H. discriminate H.
  - rewrite while_S. apply raises_only_bind; [exact Hc|].
    intros [|]; [|apply raises_only_ret].
    apply raises_only_bind; [exact Hb | intros _; exact IH].
Qed.

Lemma raises_only_lift_gets {A} (P : exn -> Prop) (f : OrganicScoringBase -> A) :
  raises_only P (lift (gets f)).
Proof. intros w e. rewrite lift_gets. discriminate. Qed.

(** A sleep that ends raises nothing: the polls of the gate and the
    backoff. *)
Lemma raises_only_sleep (P : exn -> Prop) delay :
  wakes delay = true -> raises_only P (sleep delay).
Proof. intros W w e. rewrite sleep_wakes by exact W. discriminate. Qed.

Lemma raises_only_idle_gate (P : exn -> Prop) inner :
  raises_only P (idle_gate inner).
Proof.
  unfold idle_gate. apply raises_only_bind; [apply raises_only_lift_gets|].
  intros [|]; [apply raises_only_ret|].
  apply raises_only_while; [|now apply raises_only_sleep].
  apply raises_only_bind; [apply raises_only_lift_gets|]. intros c.
  apply raises_only_bind; [apply raises_only_lift_gets|]. intros f.
  apply raises_only_ret.
Qed.

Lemma raises_only_try {St A} (P : exn -> Prop) (body : M St A)
    (handler : exn -> M St A) :
  (forall e, raises_only P (handler e)) ->
  (forall e, isinstance_Exception e = false -> P e) ->
  raises_only P (try_except_Exception body handler).
Proof.
  intros Hh HP s e. unfold try_except_Exception.
  destruct (body s) as [[a|e'|] s']; cbn; try discriminate.
  destruct (isinstance_Exception e') eqn:X.
  - apply Hh.
  - cbn. intros H. injection H as <-. now apply HP.
Qed.

(** The handler of the [try] statement: the error is logged and the loop
    backs off for a second. *)
Lemma backoff_eq e w :
  (logging_error e ;; sleep (PyInt 1)) w
  = (Returned tt, slept (PyInt 1) (recorded (ev_log_error e) w)).
Proof.
  unfold logging_error. rewrite (bind_Returned _ _ _ _ _ (emit_eq _ _)).
  rewrite sleep_1, slept_1. reflexivity.
Qed.

(** The [try] statement lets through only what [except Exception] does not
    match: the handler itself does not raise. *)
Lemma raises_only_sample_and_wait inner :
  raises_only (fun e => isinstance_Exception e = false) (sample_and_wait inner).
Proof.
  unfold sample_and_wait. apply raises_only_try; [|auto].
  intros e w e'. rewrite backoff_eq. discriminate.
Qed.

Lemma raises_only_start_loop fuel inner :
  raises_only (fun e => isinstance_Exception e = false) (start_loop fuel inner).
Proof.
  unfold start_loop. apply raises_only_while.
  - apply raises_only_bind; [apply raises_only_lift_gets|]. intros b.
    apply raises_only_ret.
  - apply raises_only_bind; [apply raises_only_idle_gate|]. intros _.
    apply raises_only_sample_and_wait.
Qed.

(** ** Sampling and waiting *)

Lemma same_settings_forward w r w1 :
  forward w = (r, w1) -> same_settings (self_ w) (self_ w1).
Proof.
  rewrite forward_eq. intros E. injection E as _ <-.
  apply (same_settings_resumed (recorded ev_forward w)).
Qed.

Lemma trace_forward w r w1 :
  forward w = (r, w1) -> trace w1 = trace w ++ [ev_forward].
Proof.
  rewrite forward_eq. intros E. injection E as _ <-.
  apply (trace_resumed (recorded ev_forward w)).
Qed.


(** The waiting phase in "seconds" mode: what it does with the dynamic unit
    [sample_rate_dynamic] returned, and what it raises otherwise. *)
Lemma wait_until_next_seconds inner timer_elapsed w dynamic_unit remaining :
  _trigger (self_ w) = seconds ->
  fst (sample_rate_dynamic (self_ w)) = Returned dynamic_unit ->
  fst (py_sub dynamic_unit timer_elapsed w) = Returned remaining ->
  wait_until_next inner timer_elapsed w
  = sleep (py_max remaining (PyInt 0)) w.
Proof.
  intros T R S. rewrite wait_until_next_eq, R, T. unfold bind.
  rewrite (read_only_eq (py_sub _ _) w) by apply read_only_py_sub.
  rewrite S. reflexivity.
Qed.

(** ** Sleeps that end, never end, or are refused *)

(** A double that compares equal to infinity is infinity: it is not NaN and
    it is above 0. *)
Lemma eqb_infinity (f : float) :
  (f =? infinity)%float = true ->
  PrimFloat.is_nan f = false /\ py_le (PyFloat f) (PyInt 0) = false.
Proof.
  intros H. rewrite FloatAxioms.eqb_spec in H.
  change (Prim2SF infinity) with (S754_infinity false) in H.
  assert (E : Prim2SF f = S754_infinity false).
  { destruct (Prim2SF f) as [s|[|]| |s m e]; try discriminate H;
      try reflexivity; destruct s; discriminate H. }
  split.
  - unfold PrimFloat.is_nan. rewrite FloatAxioms.eqb_spec, E. reflexivity.
  - cbn [py_le]. unfold compare_int_float. rewrite E. reflexivity.
Qed.

Lemma sleep_endless delay w :
  endless delay = true ->
  wakes delay = false
  /\ sleep delay w = (Pending, resumed (recorded (ev_sleep delay) w)).
Proof.
  destruct delay as [z|f]; [discriminate|]. cbn [endless]. intros H.
  destruct (eqb_infinity f H) as [N L]. unfold wakes, sleep.
  rewrite L, N, H. split; reflexivity.
Qed.

Lemma sleep_refused delay w :
  wakes delay = false -> endless delay = false ->
  exists e,
    sleep delay w = (Raised e, w)
    /\ (exc_type e = OverflowError \/ exc_type e = ValueError).
Proof.
  intros W E.
  destruct (sleep_cases delay w) as [[W' _]|[(_ & E' & _)|(_ & H)]];
    [congruence | congruence | exact H].
Qed.

(** A delay that is not NaN is refused only for an [int] too large for a
    [float]. *)
Lemma sleep_overflows delay w :
  wakes delay = false -> endless delay = false -> is_NaN delay = false ->
  sleep delay w
  = (Raised (mk_exn OverflowError "int too large to convert to float"), w).
Proof.
  unfold wakes, endless, is_NaN, sleep.
  destruct (py_le delay (PyInt 0)); [discriminate|]. cbn [orb].
  destruct delay as [z|f].
  - cbn [py_float]. destruct (nearest_double z); try discriminate.
    reflexivity.
  - intros W E N. rewrite N, E in W. discriminate W.
Qed.

Lemma sleep_raises delay w e :
  fst (sleep delay w) = Raised e ->
  snd (sleep delay w) = w
  /\ wakes delay = false /\ endless delay = false
  /\ (exc_type e = OverflowError \/ exc_type e = ValueError).
Proof.
  destruct (endless delay) eqn:E.
  { destruct (sleep_endless delay w E) as [_ ->]. discriminate. }
  destruct (sleep_cases delay w) as [[_ ->]|[(_ & E' & _)|(W & x & -> & H)]];
    [discriminate | congruence |].
  cbn. intros X. injection X as <-. auto.
Qed.

Lemma sleep_error_is_Exception delay w e :
  fst (sleep delay w) = Raised e -> isinstance_Exception e = true.
Proof.
  intros H. apply sleep_raises in H as (_ & _ & _ & H).
  apply arithmetic_error_is_Exception. tauto.
Qed.

(** ** One iteration in "seconds" mode *)

(** What the waiting phase raises is an arithmetic error, and the world is
    as it was. *)
Lemma wait_until_next_seconds_raises inner timer_elapsed w e :
  _trigger (self_ w) = seconds ->
  fst (wait_until_next inner timer_elapsed w) = Raised e ->
  isinstance_Exception e = true
  /\ wait_until_next inner timer_elapsed w = (Raised e, w).
Proof.
  intros T. rewrite wait_until_next_eq, T.
  pose proof (sample_rate_dynamic_raises_Exception (self_ w)) as R1.
  destruct (fst (sample_rate_dynamic (self_ w))) as [du|x|]; cbn [fst].
  - unfold bind.
    rewrite (read_only_eq (py_sub _ _) w) by apply read_only_py_sub.
    pose proof (raises_py_sub du timer_elapsed w) as R2.
    destruct (fst (py_sub du timer_elapsed w)) as [r|x|]; cbn [fst].
    + intros H. split; [now apply sleep_error_is_Exception in H|].
      apply sleep_raises in H as H'. destruct H' as (S & _).
      rewrite <- S at 2. rewrite <- H. apply surjective_pairing.
    + intros H. injection H as ->. split; [|reflexivity].
      apply arithmetic_error_is_Exception. left. now apply R2.
    + discriminate.
  - intros H. injection H as ->. split; [now apply R1 | reflexivity].
  - discriminate.
Qed.

Lemma sample_and_wait_waits inner w w1 (logs : telemetry) r w' :
  forward w = (Returned logs, w1) ->
  wait_until_next inner
    (default (PyInt 0) (logs !! "total_elapsed_time")) w1 = (r, w') ->
  (forall e, r <> Raised e) ->
  sample_and_wait inner w = (r, w').
Proof.
  intros F W N. unfold sample_and_wait, try_except_Exception.
  rewrite (bind_Returned _ _ _ _ _ F), W.
  destruct r as [[]|e|]; [reflexivity | now destruct (N e) | reflexivity].
Qed.

Lemma sample_and_wait_wait_raised inner w w1 (logs : telemetry) e :
  forward w = (Returned logs, w1) ->
  wait_until_next inner
    (default (PyInt 0) (logs !! "total_elapsed_time")) w1 = (Raised e, w1) ->
  isinstance_Exception e = true ->
  sample_and_wait inner w =
    (Returned tt, slept (PyInt 1) (recorded (ev_log_error e) w1)).
Proof.
  intros F W X. unfold sample_and_wait, try_except_Exception.
  rewrite (bind_Returned _ _ _ _ _ F), W, X. apply backoff_eq.
Qed.

Lemma sample_and_wait_raised inner w w1 e :
  forward w = (Raised e, w1) ->
  isinstance_Exception e = true ->
  sample_and_wait inner w =
    (Returned tt, slept (PyInt 1) (recorded (ev_log_error e) w1)).
Proof.
  intros F X. unfold sample_and_wait, try_except_Exception.
  rewrite (bind_Raised _ _ _ _ _ F), X. apply backoff_eq.
Qed.

Lemma sample_and_wait_not_caught inner w w1 e :
  forward w = (Raised e, w1) ->
  isinstance_Exception e = false ->
  sample_and_wait inner w = (Raised e, w1).
Proof.
  intros F X. unfold sample_and_wait, try_except_Exception.
  rewrite (bind_Raised _ _ _ _ _ F), X. reflexivity.
Qed.

Lemma trace_backoff e w w1 r :
  forward w = (r, w1) ->
  trace (slept (PyInt 1) (recorded (ev_log_error e) w1))
  = trace w ++ [ev_forward; ev_log_error e; ev_sleep (PyInt 1)].
Proof.
  intros F. rewrite trace_slept, trace_recorded, (trace_forward _ _ _ F)
    by reflexivity.
  rewrite <- !app_assoc. reflexivity.
Qed.

Lemma start_loop_next fuel inner w0 w w' :
  _should_exit (self_ w0) = false ->
  idle_gate inner w0 = (Returned tt, w) ->
  sample_and_wait inner w = (Returned tt, w') ->
  start_loop (S fuel) inner w0 = start_loop fuel inner w'.
Proof.
  intros E G W. rewrite start_loop_iterate by exact E.
  unfold bind at 1 2. rewrite G, W. reflexivity.
Qed.

Lemma start_loop_stops fuel inner w0 w r w' :
  _should_exit (self_ w0) = false ->
  idle_gate inner w0 = (Returned tt, w) ->
  sample_and_wait inner w = (r, w') ->
  r <> Returned tt ->
  start_loop (S fuel) inner w0 = (r, w').
Proof.
  intros E G W N. rewrite start_loop_iterate by exact E.
  unfold bind at 1 2. rewrite G, W.
  destruct r as [[]|e|]; [now destruct N | reflexivity | reflexivity].
Qed.

(** C9 (amended).  In "seconds" mode, when [forward] returns the record
    [logs], the time elapsed is the entry of [logs] under
    ["total_elapsed_time"], or the [int] 0 when there is none.  When
    [sample_rate_dynamic] returns [dynamic_unit] and the difference
    [dynamic_unit - total_elapsed_time] is computed, the waiting phase is
    one call of [asyncio.sleep], on [max] of that difference and 0: if the
    sleep ends, the iteration is the call of [forward] and that sleep; if
    the delay is infinite, the sleep starts and never ends; if the delay is
    an [int] too large for a [float], the sleep is refused with
    [OverflowError].  Whatever the waiting phase raises instead of
    sleeping (the computation of the delay, or a delay that
    [asyncio.sleep] refuses) is an instance of [Exception]: the iteration
    logs it and backs off for a second, without the sleep of the waiting
    phase. *)
Theorem seconds_wait_sleeps_remaining_delay
    (inner : nat) (w w1 : world) (logs : telemetry) :
  forward w = (Returned logs, w1) ->
  _trigger (self_ w) = seconds ->
  let total_elapsed_time := default (PyInt 0) (logs !! "total_elapsed_time") in
  (logs !! "total_elapsed_time" = None -> total_elapsed_time = PyInt 0) /\
  (forall dynamic_unit remaining,
     fst (sample_rate_dynamic (self_ w1)) = Returned dynamic_unit ->
     fst (py_sub dynamic_unit total_elapsed_time w1) = Returned remaining ->
     let sleep_duration := py_max remaining (PyInt 0) in
     wait_until_next inner total_elapsed_time w1 = sleep sleep_duration w1 /\
     (wakes sleep_duration = true ->
        sample_and_wait inner w = (Returned tt, slept sleep_duration w1) /\
        trace (slept sleep_duration w1)
        = trace w ++ [ev_forward; ev_sleep sleep_duration]) /\
     (endless sleep_duration = true ->
        sample_and_wait inner w = (Pending, slept sleep_duration w1) /\
        trace (slept sleep_duration w1)
        = trace w ++ [ev_forward; ev_sleep sleep_duration]) /\
     (wakes sleep_duration = false -> endless sleep_duration = false ->
      is_NaN sleep_duration = false ->
        wait_until_next inner total_elapsed_time w1
        = (Raised (mk_exn OverflowError "int too large to convert to float"),
           w1))) /\
  (forall e,
     fst (wait_until_next inner total_elapsed_time w1) = Raised e ->
     isinstance_Exception e = true /\
     sample_and_wait inner w
     = (Returned tt, slept (PyInt 1) (recorded (ev_log_error e) w1)) /\
     trace (slept (PyInt 1) (recorded (ev_log_error e) w1))
     = trace w ++ [ev_forward; ev_log_error e; ev_sleep (PyInt 1)]).
Proof.
  intros F T total_elapsed_time.
  pose proof (same_settings_forward _ _ _ F) as (_ & T1 & _).
  rewrite T in T1. symmetry in T1.
  split; [|split].
  - intros N. unfold total_elapsed_time. now rewrite N.
  - intros dynamic_unit remaining R S sleep_duration.
    pose proof (wait_until_next_seconds inner total_elapsed_time w1
                  dynamic_unit remaining T1 R S) as W.
    fold sleep_duration in W.
    split; [exact W|]. split; [|split].
    + intros K. rewrite sleep_wakes in W by exact K.
      rewrite slept_wakes by exact K. split.
      * apply (sample_and_wait_waits inner w w1 logs _ _ F W). discriminate.
      * rewrite trace_resumed, trace_recorded, (trace_forward _ _ _ F).
        rewrite <- app_assoc. reflexivity.
    + intros K. destruct (sleep_endless sleep_duration w1 K) as [_ E].
      unfold slept. rewrite E in W |- *. cbn [snd]. split.
      * apply (sample_and_wait_waits inner w w1 logs _ _ F W). discriminate.
      * rewrite trace_resumed, trace_recorded, (trace_forward _ _ _ F).
        rewrite <- app_assoc. reflexivity.
    + intros K1 K2 K3. rewrite W.
      now apply sleep_overflows.
  - intros e R.
    destruct (wait_until_next_seconds_raises inner total_elapsed_time w1 e
                T1 R) as [X W].
    split; [exact X|]. split.
    + now apply (sample_and_wait_wait_raised inner w w1 logs e F W).
    + apply (trace_backoff e w w1 _ F).
Qed.

(** C9 (counterexample).  In "seconds" mode with a frequency of 1 and a
    minimum of [10 ** 400], an [int], [forward] returns an empty record:
    the dynamic unit is the minimum, the difference with the 0 of the
    missing entry is that same [int], and [asyncio.sleep] cannot add it to
    the clock.  The waiting phase does not sleep: the iteration logs the
    [OverflowError] and backs off for a second. *)
Lemma seconds_wait_refuses_a_delay_too_large :
  let w :=
    quiet (scheduler seconds (PyInt 1) (PyInt (10 ^ 400)) (PyInt 5) []
             (PyInt 0)) in
  let e := mk_exn OverflowError "int too large to convert to float" in
  fst (forward w) = Returned ∅ /\
  fst (sample_rate_dynamic (self_ w)) = Returned (PyInt (10 ^ 400)) /\
  fst (py_sub (PyInt (10 ^ 400)) (PyInt 0) w) = Returned (PyInt (10 ^ 400)) /\
  py_max (PyInt (10 ^ 400)) (PyInt 0) = PyInt (10 ^ 400) /\
  sample_and_wait 1 w
  = (Returned tt,
     slept (PyInt 1) (recorded (ev_log_error e) (snd (forward w)))) /\
  trace (snd (sample_and_wait 1 w))
  = [ev_forward; ev_log_error e; ev_sleep (PyInt 1)] /\
  ~ (forall (inner : nat) (w w1 : world) (logs : telemetry) du remaining,
       forward w = (Returned logs, w1) ->
       _trigger (self_ w) = seconds ->
       fst (sample_rate_dynamic (self_ w1)) = Returned du ->
       fst (py_sub du (default (PyInt 0) (logs !! "total_elapsed_time")) w1)
       = Returned remaining ->
       trace (snd (sample_and_wait inner w))
       = trace w ++ [ev_forward; ev_sleep (py_max remaining (PyInt 0))]).
Proof.
  cbv zeta.
  assert (T : trace (snd (sample_and_wait 1
                (quiet (scheduler seconds (PyInt 1) (PyInt (10 ^ 400))
                          (PyInt 5) [] (PyInt 0)))))
              = [ev_forward;
                 ev_log_error
                   (mk_exn OverflowError "int too large to convert to float");
                 ev_sleep (PyInt 1)]).
  { vm_compute. reflexivity. }
  split; [reflexivity|]. split; [vm_compute; reflexivity|].
  split; [reflexivity|]. split; [vm_compute; reflexivity|].
  split; [vm_compute; reflexivity|]. split; [exact T|].
  intros H.
  specialize (H 1%nat
                (quiet (scheduler seconds (PyInt 1) (PyInt (10 ^ 400))
                          (PyInt 5) [] (PyInt 0)))
                _ ∅ (PyInt (10 ^ 400)) (PyInt (10 ^ 400))
                eq_refl eq_refl).
  rewrite T in H. cbn [trace quiet app] in H.
  assert (X : [ev_forward;
               ev_log_error
                 (mk_exn OverflowError "int too large to convert to float");
               ev_sleep (PyInt 1)]
              = [ev_forward;
                 ev_sleep (py_max (PyInt (10 ^ 400)) (PyInt 0))]).
  { apply H; vm_compute; reflexivity. }
  discriminate X.
Qed.

(** C3 (counterexample).  The task that runs the loop is cancelled while it
    awaits [forward]: [asyncio.CancelledError] derives from [BaseException]
    only, [except Exception] does not match it, and it ends [start_loop]
    without a log entry or a backoff. *)
Lemma start_loop_ends_on_cancellation :
  isinstance_Exception cancellation = false /\
  fst (forward cancelled_world) = Raised cancellation /\
  fst (start_loop 1 1 cancelled_world) = Raised cancellation /\
  trace (snd (start_loop 1 1 cancelled_world)) = [ev_forward] /\
  ~ (exists w2,
       sample_and_wait 1 cancelled_world = (Returned tt, w2) /\
       trace w2 =
         trace cancelled_world
           ++ [ev_forward; ev_log_error cancellation; ev_sleep (PyInt 1)]).
Proof.
  repeat split. intros (w2 & W & _).
  rewrite (sample_and_wait_not_caught 1 cancelled_world
             (snd (forward cancelled_world)) cancellation eq_refl eq_refl) in W.
  discriminate W.
Qed.

(** C3 (amended).  When [forward] raises an instance of [Exception], the
    iteration logs it, sleeps one second and ends normally, and the loop
    goes on from its head; whatever [forward] does, no instance of
    [Exception] ever comes out of [start_loop].  When [forward] raises
    anything else, an exception that derives from [BaseException] only,
    nothing is logged, there is no backoff, and the exception ends the
    iteration and the loop. *)
Theorem forward_exception_is_logged_and_survived :
  (forall (inner : nat) (w w1 : world) (e : exn),
     forward w = (Raised e, w1) ->
     isinstance_Exception e = true ->
     let w2 := slept (PyInt 1) (recorded (ev_log_error e) w1) in
     sample_and_wait inner w = (Returned tt, w2) /\
     trace w2 = trace w ++ [ev_forward; ev_log_error e; ev_sleep (PyInt 1)] /\
     (forall fuel w0,
        _should_exit (self_ w0) = false ->
        idle_gate inner w0 = (Returned tt, w) ->
        start_loop (S fuel) inner w0 = start_loop fuel inner w2)) /\
  (forall (fuel inner : nat) (w : world) (e : exn),
     fst (start_loop fuel inner w) = Raised e ->
     isinstance_Exception e = false) /\
  (forall (inner : nat) (w w1 : world) (e : exn),
     forward w = (Raised e, w1) ->
     isinstance_Exception e = false ->
     sample_and_wait inner w = (Raised e, w1) /\
     trace w1 = trace w ++ [ev_forward] /\
     (forall fuel w0,
        _should_exit (self_ w0) = false ->
        idle_gate inner w0 = (Returned tt, w) ->
        start_loop (S fuel) inner w0 = (Raised e, w1))).
Proof.
  split; [|split].
  - intros inner w w1 e F X w2.
    pose proof (sample_and_wait_raised inner _ _ _ F X) as W.
    repeat split.
    + exact W.
    + apply (trace_backoff e w w1 _ F).
    + intros fuel w0 E G. now apply (start_loop_next fuel inner w0 w).
  - intros fuel inner w e. apply raises_only_start_loop.
  - intros inner w w1 e F X.
    pose proof (sample_and_wait_not_caught inner _ _ _ F X) as W.
    repeat split.
    + exact W.
    + apply (trace_forward _ _ _ F).
    + intros fuel w0 E G.
      apply (start_loop_stops fuel inner w0 w _ _ E G W). discriminate.
Qed.

(** A dynamic unit of 8.0: 3 seconds elapsed leave a sleep of 5.0, a record
    without the key leaves one of 8.0. *)
Lemma seconds_wait_sleeps_remaining_delay_witness :
  (sample_and_wait 1 timed_world
   = (Returned tt, slept (PyFloat 5) (snd (forward timed_world))) /\
   trace (slept (PyFloat 5) (snd (forward timed_world)))
   = [ev_forward; ev_sleep (PyFloat 5)]) /\
  (sample_and_wait 1 (quiet (self_ timed_world))
   = (Returned tt,
      slept (PyFloat 8) (snd (forward (quiet (self_ timed_world))))) /\
   trace (slept (PyFloat 8) (snd (forward (quiet (self_ timed_world)))))
   = [ev_forward; ev_sleep (PyFloat 8)]).
Proof.
  split.
  - destruct (seconds_wait_sleeps_remaining_delay 1 timed_world
                (snd (forward timed_world))
                {["total_elapsed_time" := PyFloat 3]}
                eq_refl eq_refl) as (_ & H & _).
    destruct (H (PyFloat 8) (PyFloat 5) eq_refl eq_refl) as (_ & K & _).
    apply K. reflexivity.
  - destruct (seconds_wait_sleeps_remaining_delay 1 (quiet (self_ timed_world))
                (snd (forward (quiet (self_ timed_world)))) ∅
                eq_refl eq_refl) as (_ & H & _).
    destruct (H (PyFloat 8) (PyFloat 8) eq_refl eq_refl) as (_ & K & _).
    apply K. reflexivity.
Defined.

(** [forward] raises a [RuntimeError], then returns; and the cancellation
    of the loop's task. *)
Lemma forward_exception_is_logged_and_survived_witness :
  (sample_and_wait 1 failing_world
   = (Returned tt,
      slept (PyInt 1)
        (recorded (ev_log_error sampling_failure) (snd (forward failing_world)))) /\
   trace (slept (PyInt 1)
            (recorded (ev_log_error sampling_failure)
               (snd (forward failing_world))))
   = [ev_forward; ev_log_error sampling_failure; ev_sleep (PyInt 1)] /\
   start_loop 2 1 failing_world
   = start_loop 1 1
       (slept (PyInt 1)
          (recorded (ev_log_error sampling_failure)
             (snd (forward failing_world)))) /\
   trace (snd (start_loop 2 1 failing_world))
   = [ev_forward; ev_log_error sampling_failure; ev_sleep (PyInt 1);
      ev_forward; ev_sleep (PyFloat 10)]) /\
  (sample_and_wait 1 cancelled_world
   = (Raised cancellation, snd (forward cancelled_world)) /\
   start_loop 3 1 cancelled_world
   = (Raised cancellation, snd (forward cancelled_world))).
Proof.
  destruct forward_exception_is_logged_and_survived as (H1 & _ & H3).
  split.
  - destruct (H1 1%nat failing_world (snd (forward failing_world))
                sampling_failure eq_refl eq_refl) as (W & Tr & L).
    split; [exact W|]. split; [exact Tr|]. split.
    + apply L; reflexivity.
    + reflexivity.
  - destruct (H3 1%nat cancelled_world (snd (forward cancelled_world))
                cancellation eq_refl eq_refl) as (W & _ & L).
    split; [exact W|]. apply L; reflexivity.
Defined.

(** ** Stopping the loop *)








(** An iteration in flight whose sleep is infinite: in "seconds" mode with
    a minimum of [float("inf")], [stop] is called while [forward] runs; the
    flag is set, the sleep of the waiting phase starts and never ends, and
    the loop does not get back to its head. *)
Example start_loop_sleeps_for_ever_when_stopped_in_flight :
  let w :=
    {| self_ :=
         scheduler seconds (PyInt 10) (PyFloat infinity) (PyInt 5) []
           (PyInt 0);
       trace := [];
       suspensions := [[call_stop]];
       forward_outcomes := [] |} in
  forall fuel inner,
    fst (start_loop (S fuel) inner w) = Pending /\
    _should_exit (self_ (snd (start_loop (S fuel) inner w))) = true /\
    trace (snd (start_loop (S fuel) inner w))
    = [ev_forward; ev_sleep (PyFloat infinity)].
Proof.
  intros w fuel inner.
  assert (W : sample_and_wait inner w
              = (Pending, snd (sample_and_wait inner w))).
  { vm_compute. reflexivity. }
  rewrite (start_loop_stops fuel inner w w _ _ eq_refl
             (idle_gate_seconds inner w eq_refl) W) by discriminate.
  repeat split.
Qed.




(** ** Objects the constructor returns, later in a run *)

Lemma init_returns cls ds f trig mn sf q (a a' : axon) self :
  __init__ cls ds f trig mn sf q a = (Returned self, a') ->
  _should_exit self = false /\
  _trigger_frequency self = f /\ _trigger self = trig /\
  py_gt (_trigger_scaling_factor self) (PyInt 0) = true /\
  _step_counter self = PyInt 0 /\ _step_lock self = asyncio_Lock.
Proof.
  intros E. destruct (py_gt sf (PyInt 0)) eqn:Hsf.
  - destruct (init_unfold cls ds f trig mn sf q a Hsf)
      as (self' & c & E' & _ & Hx & _ & Hf & Ht & _ & Hs & _ & Hc & Hl & _).
    rewrite E' in E. injection E as -> _.
    rewrite Hs. repeat split; assumption.
  - rewrite init_raises in E by exact Hsf. discriminate.
Qed.

(** A divisor the constructor accepted is not zero: the division of the
    size of the queue by it raises [OverflowError] or nothing. *)
Lemma py_truediv_positive {St} (x : Z) (sf : number) (s : St) e :
  py_gt sf (PyInt 0) = true ->
  fst (py_truediv (PyInt x) sf s) = Raised e ->
  exc_type e = OverflowError.
Proof.
  intros P. unfold py_gt in P.
  destruct sf as [y|g]; cbn [py_truediv].
  - cbn in P. apply Z.ltb_lt in P.
    destruct (Z.eqb_spec y 0) as [->|_]; [lia|].
    destruct (true_quotient x y); cbn; intros H; try discriminate.
    now injection H as <-.
  - assert (F : (g =? 0)%float = false).
    { revert P. cbn [py_lt]. unfold compare_int_float.
      rewrite FloatAxioms.eqb_spec.
      change (Prim2SF 0) with (S754_zero false).
      destruct (Prim2SF g) as [s0|[|]| |[|] m k]; try discriminate;
        reflexivity. }
    unfold bind. cbn [py_float ret].
    destruct (nearest_double x); cbn; rewrite ?F; cbn; intros H;
      try discriminate; now injection H as <-.
Qed.

(** X3.  On an object the constructor returned, at whatever point a run of
    the loop has got to and whatever other tasks have called meanwhile,
    [sample_rate_dynamic] never divides by zero and leaves the object as it
    is.  What it can still raise is [OverflowError], for an [int] too large
    for a [float] or a delay that is infinite, and in "steps" mode
    [ValueError], for a delay that is NaN. *)
Theorem sample_rate_dynamic_never_divides_by_zero_after_init
    cls ds f trig mn sf q (a a' : axon) self (w : world) (fuel inner : nat) :
  __init__ cls ds f trig mn sf q a = (Returned self, a') ->
  self_ w = self ->
  let self' := self_ (snd (start_loop fuel inner w)) in
  snd (sample_rate_dynamic self') = self' /\
  fst (sample_rate_dynamic self') <> Pending /\
  (forall e,
     fst (sample_rate_dynamic self') = Raised e ->
     exc_type e = OverflowError
     \/ (trig = steps /\ exc_type e = ValueError)).
Proof.
  intros E W self'. destruct (init_returns _ _ _ _ _ _ _ _ _ _ E)
    as (_ & _ & Ht & Hsf & _).
  pose proof (start_loop_same_settings fuel inner w)
    as (_ & T & _ & _ & S & _).
  fold self' in T, S. rewrite W in T, S. rewrite Ht in T.
  split; [apply sample_rate_dynamic_self|].
  split; [apply ends_sample_rate_dynamic|].
  intros e. rewrite sample_rate_dynamic_eq, <- S, <- T.
  pose proof (py_truediv_positive (size (_organic_queue self'))
                (_trigger_scaling_factor self) self') as R1.
  destruct (fst (py_truediv _ _ self')) as [qt|x|]; try discriminate.
  - pose proof (raises_py_sub (_trigger_frequency self') qt self') as R2.
    destruct (fst (py_sub _ _ self')) as [d|x|]; try discriminate.
    + cbv zeta. destruct trig; [discriminate|].
      pose proof (raises_py_int (py_max d (_trigger_min self')) self') as R3.
      destruct (fst (py_int _ self')) as [z|x|]; try discriminate.
      intros H. injection H as ->.
      destruct (R3 e eq_refl) as [H|H]; [now left | right; now split].
    + intros H. injection H as ->. left. now apply R2.
  - intros H. injection H as ->. left. now apply R1.
Qed.

(** A frequency too large for a [float], on an object the constructor
    returned. *)
Lemma sample_rate_dynamic_never_divides_by_zero_after_init_witness :
  let w :=
    quiet (scheduler seconds (PyInt (10 ^ 400)) (PyInt 2) (PyInt 5) []
             (PyInt 0)) in
  snd (sample_rate_dynamic (self_ (snd (start_loop 3 2 w))))
  = self_ (snd (start_loop 3 2 w)) /\
  fst (sample_rate_dynamic (self_ (snd (start_loop 3 2 w)))) <> Pending /\
  (forall e,
     fst (sample_rate_dynamic (self_ (snd (start_loop 3 2 w)))) = Raised e ->
     exc_type e = OverflowError
     \/ (seconds = steps /\ exc_type e = ValueError)).
Proof.
  cbv zeta.
  eapply (sample_rate_dynamic_never_divides_by_zero_after_init plain_subclass
            NoDataset (PyInt (10 ^ 400)) seconds (PyInt 2) (PyInt 5) None []
            _ _ _ 3 2).
  - vm_compute. reflexivity.
  - reflexivity.
Defined.

(** X4.  On an object the constructor returned, at whatever point a run of
    the loop has got to, [increment_step] and [set_step] raise [TypeError]
    and change nothing, in either mode: the lock is still the
    [asyncio.Lock] of the constructor. *)
Theorem step_methods_always_raise_after_init
    cls ds f trig mn sf q (a a' : axon) self (w : world) (fuel inner : nat)
    (step : Z) :
  __init__ cls ds f trig mn sf q a = (Returned self, a') ->
  self_ w = self ->
  let self' := self_ (snd (start_loop fuel inner w)) in
  increment_step self' = (Raised lock_error, self') /\
  set_step step self' = (Raised lock_error, self').
Proof.
  intros E W self'. destruct (init_returns _ _ _ _ _ _ _ _ _ _ E)
    as (_ & _ & _ & _ & _ & Hl).
  pose proof (start_loop_same_settings fuel inner w) as (_ & _ & _ & _ & _ & L & _).
  assert (L' : _step_lock self' = asyncio_Lock).
  { unfold self'. rewrite <- L, W. exact Hl. }
  split; [now apply increment_step_asyncio | now apply set_step_asyncio].
Qed.

Lemma step_methods_always_raise_after_init_witness :
  increment_step (self_ (snd (start_loop 3 2 timed_world)))
  = (Raised lock_error, self_ (snd (start_loop 3 2 timed_world))) /\
  set_step 4 (self_ (snd (start_loop 3 2 timed_world)))
  = (Raised lock_error, self_ (snd (start_loop 3 2 timed_world))).
Proof.
  eapply (step_methods_always_raise_after_init plain_subclass NoDataset
            (PyInt 10) seconds (PyInt 2) (PyInt 5) (Some (repeat "x" 10)) []
            _ (self_ timed_world) timed_world 3 2 4).
  - cbv. reflexivity.
  - reflexivity.
Defined.

(** With the lock of the constructor no call of another task changes the
    counter. *)
Lemma run_external_asyncio self c :
  _step_lock self = asyncio_Lock ->
  _step_counter (run_external self c) = _step_counter self.
Proof.
  intros L. destruct c; cbn [run_external].
  - now rewrite increment_step_asyncio.
  - now rewrite set_step_asyncio.
  - reflexivity.
  - reflexivity.
  - reflexivity.
Qed.

Lemma foldl_run_external_asyncio calls self :
  _step_lock self = asyncio_Lock ->
  _step_counter (foldl run_external self calls) = _step_counter self.
Proof.
  revert self. induction calls as [|c calls IH]; intros self L; [reflexivity|].
  cbn. rewrite IH.
  - now apply run_external_asyncio.
  - rewrite <- L. symmetry. apply same_settings_run_external.
Qed.

Lemma resumed_asyncio w :
  _step_lock (self_ w) = asyncio_Lock ->
  _step_counter (self_ (resumed w)) = _step_counter (self_ w).
Proof.
  intros L. rewrite self_resumed.
  destruct (suspensions w); [reflexivity|].
  now apply foldl_run_external_asyncio.
Qed.

Lemma polled_asyncio k w :
  _step_lock (self_ w) = asyncio_Lock ->
  _step_counter (self_ (polled k w)) = _step_counter (self_ w).
Proof.
  intros L. induction k as [|k IH]; [reflexivity|].
  change (polled (S k) w) with (slept poll_delay (polled k w)).
  rewrite slept_poll, (resumed_asyncio (recorded _ (polled k w))); [exact IH|].
  cbn. rewrite <- L. symmetry. apply same_settings_polled.
Qed.

(** X5.  A "steps" scheduler built by the constructor with a positive
    frequency never calls [forward]: other tasks cannot move the counter
    off 0 ([increment_step] and [set_step] raise), so the gate polls every
    100 ms for ever, whatever those tasks call, [stop] included. *)
Theorem steps_scheduler_never_samples_after_init
    cls ds f mn sf q (a a' : axon) self (w : world) (fuel inner : nat) :
  __init__ cls ds f steps mn sf q a = (Returned self, a') ->
  (0 < to_Q f)%Q ->
  self_ w = self ->
  fst (start_loop fuel inner w) = Pending /\
  trace (snd (start_loop fuel inner w))
  = trace w ++ repeat (ev_sleep poll_delay)
                 (match fuel with O => O | S _ => inner end).
Proof.
  intros E Hf W. destruct (init_returns _ _ _ _ _ _ _ _ _ _ E)
    as (Hx & Ef & Et & _ & Hc & Hl).
  subst self.
  assert (G : forall i, gate_closed (polled i w) = true).
  { intros i. unfold gate_closed.
    rewrite polled_asyncio by exact Hl. rewrite Hc.
    pose proof (same_settings_polled i w) as (_ & _ & F & _).
    rewrite <- F, Ef. apply (py_gt_0_spec f). exact Hf. }
  destruct fuel as [|fuel].
  - split; [reflexivity|]. cbn. now rewrite app_nil_r.
  - rewrite start_loop_iterate by exact Hx. unfold bind at 1 2 3 4.
    rewrite (idle_gate_blocked inner w Et (fun i _ => G i)).
    cbn [fst snd]. split; [reflexivity|]. apply trace_polled.
Qed.

Lemma steps_scheduler_never_samples_after_init_witness :
  fst (start_loop 5 4 stopped_at_gate) = Pending /\
  trace (snd (start_loop 5 4 stopped_at_gate))
  = trace stopped_at_gate ++ repeat (ev_sleep poll_delay) 4.
Proof.
  eapply (steps_scheduler_never_samples_after_init plain_subclass NoDataset
            (PyInt 10) (PyInt 2) (PyInt 5) None [] _ (self_ stopped_at_gate)
            stopped_at_gate 5 4).
  - cbv. reflexivity.
  - reflexivity.
  - reflexivity.
Defined.

(** ** The counter in "seconds" mode *)

Lemma run_external_seconds self c :
  _trigger self = seconds ->
  _step_counter (run_external self c) = _step_counter self.
Proof.
  intros T. destruct c; cbn [run_external]; try reflexivity.
  - now rewrite increment_step_seconds.
  - destruct (_step_lock self) eqn:L.
    + now rewrite set_step_asyncio.
    + rewrite set_step_threading by exact L. now rewrite T.
Qed.

Lemma foldl_run_external_seconds calls self :
  _trigger self = seconds ->
  _step_counter (foldl run_external self calls) = _step_counter self.
Proof.
  revert self. induction calls as [|c calls IH]; intros self T; [reflexivity|].
  cbn. rewrite IH.
  - now apply run_external_seconds.
  - rewrite <- T. symmetry. apply same_settings_run_external.
Qed.

Lemma seconds_counter_resumed (c0 : number) w :
  _trigger (self_ w) = seconds /\ _step_counter (self_ w) = c0 ->
  _trigger (self_ (resumed w)) = seconds /\
  _step_counter (self_ (resumed w)) = c0.
Proof.
  intros [T C]. split.
  - rewrite <- T. symmetry. apply same_settings_resumed.
  - rewrite self_resumed. destruct (suspensions w); [exact C|].
    now rewrite foldl_run_external_seconds.
Qed.

(** X6.  In "seconds" mode nothing moves the step counter: not the loop,
    whose waiting phase only sleeps, and not [increment_step] or [set_step]
    called by other tasks, with either kind of lock. *)
Theorem seconds_mode_never_moves_step_counter
    (fuel inner : nat) (w : world) :
  _trigger (self_ w) = seconds ->
  _step_counter (self_ (snd (start_loop fuel inner w)))
  = _step_counter (self_ w).
Proof.
  intros T.
  set (I := fun w' : world =>
              _trigger (self_ w') = seconds /\
              _step_counter (self_ w') = _step_counter (self_ w)).
  assert (Ir : forall e w', I w' -> I (recorded e w')) by (intros e w' H; exact H).
  assert (Is : forall w', I w' -> I (resumed w'))
    by (intros w'; apply seconds_counter_resumed).
  assert (It : forall w', I w' -> I (taken w')) by (intros w' H; exact H).
  assert (Sl : forall d, keeps I (sleep d)).
  { intros d w' H.
    destruct (sleep_cases d w') as [[_ E]|[(_ & _ & E)|(_ & e & E & _)]];
      rewrite E; cbn [snd]; auto. }
  assert (Iw : forall t, keeps I (wait_until_next inner t)).
  { intros t w' H. rewrite wait_until_next_eq, (proj1 H).
    destruct (fst (sample_rate_dynamic (self_ w'))) as [du| |]; cbn [snd]; auto.
    apply keeps_bind; [apply keeps_read_only, read_only_py_sub| |exact H].
    intros r. apply Sl. }
  assert (K : keeps I (start_loop fuel inner)).
  { unfold start_loop. apply keeps_while.
    - apply keeps_bind; [apply keeps_lift_gets|]. intros b. apply keeps_ret.
    - apply keeps_bind.
      { intros w' H. now rewrite idle_gate_seconds by apply H. }
      intros _. unfold sample_and_wait. apply keeps_try.
      + apply keeps_bind; [|intros l; apply Iw].
        intros w' H. rewrite forward_eq. cbn [snd]. auto.
      + intros e. apply keeps_bind; [|intros _; apply Sl].
        intros w' H. apply Ir, H. }
  apply K. split; [exact T | reflexivity].
Qed.

Lemma seconds_mode_never_moves_step_counter_witness :
  _step_counter
    (self_ (snd (start_loop 3 2
                   {| self_ :=
                        with_threading_lock
                          (scheduler seconds (PyInt 1) (PyInt 1) (PyInt 5) []
                             (PyInt 0));
                      trace := [];
                      suspensions := [[call_increment_step; call_set_step 9]];
                      forward_outcomes := [] |})))
  = PyInt 0.
Proof.
  apply (seconds_mode_never_moves_step_counter 3 2
           {| self_ :=
                with_threading_lock
                  (scheduler seconds (PyInt 1) (PyInt 1) (PyInt 5) []
                     (PyInt 0));
              trace := [];
              suspensions := [[call_increment_step; call_set_step 9]];
              forward_outcomes := [] |}).
  reflexivity.
Defined.

(** ** The waiting phase in "steps" mode, pass by pass *)

Lemma wait_until_next_steps_loop inner timer_elapsed w d :
  _trigger (self_ w) = steps ->
  fst (sample_rate_dynamic (self_ w)) = Returned (PyInt d) ->
  wait_until_next inner timer_elapsed w =
    while inner (ret true) (steps_wait_body (PyInt d)) w.
Proof. intros T R. now rewrite wait_until_next_eq, R, T. Qed.

Lemma while_True_S fuel (body : M world unit) w w' :
  body w = (Returned tt, w') ->
  while (S fuel) (ret true) body w = while fuel (ret true) body w'.
Proof.
  intros E. rewrite while_S. unfold bind at 1, ret at 1. unfold bind at 1.
  rewrite E. reflexivity.
Qed.

Lemma steps_wait_body_subtracts (c d : Z) w :
  _step_counter (self_ w) = PyInt c -> d <= c ->
  steps_wait_body (PyInt d) w = (Returned tt, counted (PyInt (c - d)) w).
Proof.
  intros C H. unfold steps_wait_body, bind. rewrite lift_gets, C.
  replace (py_ge (PyInt c) (PyInt d)) with true.
  - reflexivity.
  - symmetry. now apply py_ge_int.
Qed.

Lemma steps_wait_body_sleeps (c d : Z) w :
  _step_counter (self_ w) = PyInt c -> c < d ->
  steps_wait_body (PyInt d) w = (Returned tt, slept (PyInt 1) w).
Proof.
  intros C H. unfold steps_wait_body, bind. rewrite lift_gets, C.
  replace (py_ge (PyInt c) (PyInt d)) with false.
  - rewrite sleep_1, slept_1. reflexivity.
  - symmetry. apply not_true_iff_false. rewrite py_ge_int. lia.
Qed.

Lemma slept_quiet w :
  suspensions w = [] ->
  self_ (slept (PyInt 1) w) = self_ w /\
  suspensions (slept (PyInt 1) w) = [] /\
  trace (slept (PyInt 1) w) = trace w ++ [ev_sleep (PyInt 1)].
Proof.
  intros Q. rewrite slept_1, resumed_quiet by exact Q. now repeat split.
Qed.

(** Below the unit, with no other task running, the loop only sleeps. *)
Lemma steps_wait_sleeps_on (n : nat) (c d : Z) w :
  _step_counter (self_ w) = PyInt c -> c < d -> suspensions w = [] ->
  let w' := snd (while n (ret true) (steps_wait_body (PyInt d)) w) in
  self_ w' = self_ w /\
  trace w' = trace w ++ repeat (ev_sleep (PyInt 1)) n.
Proof.
  revert w. induction n as [|n IH]; intros w C H Q; cbv zeta.
  - cbn. now rewrite app_nil_r.
  - rewrite (while_True_S _ _ _ _ (steps_wait_body_sleeps c d w C H)).
    destruct (slept_quiet w Q) as (S1 & S2 & S3).
    destruct (IH (slept (PyInt 1) w)) as (I1 & I2);
      [now rewrite S1 | exact H | exact S2 |].
    split; [now rewrite I1|].
    rewrite I2, S3, <- app_assoc. reflexivity.
Qed.

Lemma counted_fields v w :
  _step_counter (self_ (counted v w)) = v /\
  suspensions (counted v w) = suspensions w /\
  trace (counted v w) = trace w.
Proof. destruct w. now repeat split. Qed.

Lemma steps_wait_drains (k n : nat) (c d : Z) w :
  _step_counter (self_ w) = PyInt c -> 0 <= c -> 0 < d ->
  suspensions w = [] -> Z.to_nat (c / d) = k ->
  let w' := snd (while (k + n) (ret true) (steps_wait_body (PyInt d)) w) in
  _step_counter (self_ w') = PyInt (c mod d) /\
  trace w' = trace w ++ repeat (ev_sleep (PyInt 1)) n.
Proof.
  revert c w. induction k as [|k IH]; intros c w C Hc Hd Q K; cbv zeta.
  - assert (L : c < d).
    { destruct (Z_lt_le_dec c d) as [L|L]; [exact L|].
      assert (1 <= c / d) by (apply Z.div_le_lower_bound; lia). lia. }
    destruct (steps_wait_sleeps_on n c d w C L Q) as (S1 & S2).
    cbn [Nat.add]. rewrite S1, C, Z.mod_small by lia. now split.
  - assert (L : d <= c).
    { destruct (Z_lt_le_dec c d) as [L|L]; [|exact L].
      rewrite Z.div_small in K by lia. discriminate K. }
    cbn [Nat.add].
    rewrite (while_True_S _ _ _ _ (steps_wait_body_subtracts c d w C L)).
    destruct (counted_fields (PyInt (c - d)) w) as (F1 & F2 & F3).
    destruct (IH (c - d) (counted (PyInt (c - d)) w)) as (I1 & I2).
    + exact F1.
    + lia.
    + exact Hd.
    + now rewrite F2.
    + replace (c - d) with (c + (-1) * d) by lia.
      rewrite Z.div_add by lia. lia.
    + rewrite I1, I2, F3. split; [|reflexivity].
      f_equal. replace (c - d) with (c + (-1) * d) by lia.
      apply Z.mod_add. lia.
Qed.

(** X8.  In "steps" mode, when [sample_rate_dynamic] returns a positive
    unit [d], with a counter at [c >= 0] and no other task running, the
    waiting phase subtracts the unit [c / d] times, one pass after the
    other, which leaves [c mod d] in the counter; every later pass sleeps
    one second and changes nothing. *)
Theorem steps_wait_leaves_the_remainder
    (n : nat) (timer_elapsed : number) (w : world) (c d : Z) :
  _trigger (self_ w) = steps ->
  fst (sample_rate_dynamic (self_ w)) = Returned (PyInt d) ->
  suspensions w = [] ->
  _step_counter (self_ w) = PyInt c ->
  0 <= c ->
  0 < d ->
  let w' := snd (wait_until_next (Z.to_nat (c / d) + n) timer_elapsed w) in
  _step_counter (self_ w') = PyInt (c mod d) /\
  trace w' = trace w ++ repeat (ev_sleep (PyInt 1)) n.
Proof.
  intros T R Q C Hc Hd w'. unfold w'.
  rewrite (wait_until_next_steps_loop _ _ _ d T R).
  now apply steps_wait_drains.
Qed.

(** A frequency of 12, a scaling factor of 0.3 and 3 queued entries:
    [3 / 0.3] is the double 10.0, the unit is 2, and a counter at 5 is left
    at 1. *)
Lemma steps_wait_leaves_the_remainder_witness :
  let w :=
    quiet (scheduler steps (PyInt 12) (PyInt 0)
             (PyFloat 0x1.3333333333333p-2) (repeat "x" 3) (PyInt 5)) in
  _step_counter
    (self_ (snd (wait_until_next (Z.to_nat (5 / 2) + 2) (PyInt 0) w)))
  = PyInt (5 mod 2) /\
  trace (snd (wait_until_next (Z.to_nat (5 / 2) + 2) (PyInt 0) w))
  = trace w ++ repeat (ev_sleep (PyInt 1)) 2.
Proof.
  cbv zeta.
  apply (steps_wait_leaves_the_remainder 2 (PyInt 0)
           (quiet (scheduler steps (PyInt 12) (PyInt 0)
                     (PyFloat 0x1.3333333333333p-2) (repeat "x" 3) (PyInt 5)))
           5 2); try reflexivity; lia.
Defined.

Lemma steps_wait_spins (fuel : nat) (c d : Z) w :
  _step_counter (self_ w) = PyInt c -> d <= 0 -> d <= c ->
  let w' := snd (while fuel (ret true) (steps_wait_body (PyInt d)) w) in
  _step_counter (self_ w') = PyInt (c - Z.of_nat fuel * d) /\
  trace w' = trace w /\
  suspensions w' = suspensions w.
Proof.
  revert c w. induction fuel as [|fuel IH]; intros c w C Hd Hc; cbv zeta.
  - cbn [while snd]. rewrite C. repeat split. f_equal. lia.
  - rewrite (while_True_S _ _ _ _ (steps_wait_body_subtracts c d w C Hc)).
    destruct (counted_fields (PyInt (c - d)) w) as (F1 & F2 & F3).
    destruct (IH (c - d) (counted (PyInt (c - d)) w) F1 Hd) as (I1 & I2 & I3);
      [lia|].
    rewrite I1, I2, I3, F2, F3. repeat split. f_equal. lia.
Qed.

(** X9.  In "steps" mode, when [sample_rate_dynamic] returns a unit [d]
    that is zero or negative and the counter is at least [d], every pass of
    the waiting phase subtracts and none sleeps: after any number of passes
    the trace is what it was and the calls other tasks are waiting to make
    are still waiting.  The coroutine never yields. *)
Theorem steps_wait_spins_without_yielding
    (fuel : nat) (timer_elapsed : number) (w : world) (c d : Z) :
  _trigger (self_ w) = steps ->
  fst (sample_rate_dynamic (self_ w)) = Returned (PyInt d) ->
  _step_counter (self_ w) = PyInt c ->
  d <= 0 ->
  d <= c ->
  let w' := snd (wait_until_next fuel timer_elapsed w) in
  fst (wait_until_next fuel timer_elapsed w) = Pending /\
  _step_counter (self_ w') = PyInt (c - Z.of_nat fuel * d) /\
  trace w' = trace w /\
  suspensions w' = suspensions w.
Proof.
  intros T R C Hd Hc w'. split.
  - apply (wait_until_next_steps_pending fuel timer_elapsed w (PyInt d) T R).
    now exists c.
  - unfold w'. rewrite (wait_until_next_steps_loop _ _ _ d T R).
    now apply steps_wait_spins.
Qed.

(** A frequency of 0.5 and a minimum of 0: the unit is [int(0.5)], 0. *)
Lemma steps_wait_spins_without_yielding_witness :
  let w := {| self_ :=
                scheduler steps (PyFloat 0.5) (PyInt 0) (PyInt 5) []
                  (PyInt 0);
              trace := [];
              suspensions := [[call_stop]];
              forward_outcomes := [] |} in
  fst (wait_until_next 6 (PyInt 0) w) = Pending /\
  _step_counter (self_ (snd (wait_until_next 6 (PyInt 0) w)))
  = PyInt (0 - Z.of_nat 6 * 0) /\
  trace (snd (wait_until_next 6 (PyInt 0) w)) = [] /\
  suspensions (snd (wait_until_next 6 (PyInt 0) w)) = [[call_stop]].
Proof.
  cbv zeta.
  apply (steps_wait_spins_without_yielding 6 (PyInt 0)
           {| self_ :=
                scheduler steps (PyFloat 0.5) (PyInt 0) (PyInt 5) []
                  (PyInt 0);
              trace := [];
              suspensions := [[call_stop]];
              forward_outcomes := [] |} 0 0); try reflexivity; lia.
Defined.

(** ** The trace of the loop in "seconds" mode *)








(** * Facts about the handlers *)

(** ** Strings *)

Lemma append_nil (s : string) : EmptyString +:+ s = s.
Proof. reflexivity. Qed.

Lemma append_cons (c : ascii) (a b : string) :
  String c a +:+ b = String c (a +:+ b).
Proof. reflexivity. Qed.

Lemma split_not_nil sep s : split sep s <> [].
Proof.
  destruct s as [|c s]; cbn; [discriminate|].
  destruct (Ascii.eqb c sep); [discriminate|].
  destruct (split sep s); discriminate.
Qed.

Lemma split_no_sep sep s : has_char sep s = false -> split sep s = [s].
Proof.
  induction s as [|c s IH]; cbn; [reflexivity|].
  intros H. apply orb_false_iff in H as [H1 H2].
  rewrite H1, (IH H2). reflexivity.
Qed.

Lemma split_has_sep sep s :
  has_char sep s = true -> exists x y ys, split sep s = x :: y :: ys.
Proof.
  induction s as [|c s IH]; cbn; [discriminate|].
  destruct (Ascii.eqb c sep) eqn:E; cbn.
  - intros _. destruct (split sep s) as [|y ys] eqn:S.
    + now apply split_not_nil in S.
    + now eexists _, _, _.
  - intros H. destruct (IH H) as (x & y & ys & ->). now eexists _, _, _.
Qed.

(** The last component of a split has no separator in it. *)
Lemma last_split sep s :
  exists x, last (split sep s) = Some x /\ has_char sep x = false.
Proof.
  induction s as [|c s (x & L & N)]; cbn.
  - exists EmptyString. now split.
  - destruct (Ascii.eqb c sep) eqn:E.
    + exists x. split; [|exact N].
      destruct (split sep s) as [|y ys] eqn:S; [now apply split_not_nil in S|].
      exact L.
    + destruct (split sep s) as [|y ys] eqn:S; [now apply split_not_nil in S|].
      destruct ys as [|z zs].
      * cbn in L. injection L as ->. exists (String c x). cbn.
        split; [reflexivity|]. now rewrite E, N.
      * exists x. split; [exact L | exact N].
Qed.

Lemma has_char_app_sep sep a b : has_char sep (a +:+ String sep b) = true.
Proof.
  induction a as [|c a IH]; rewrite ?append_nil, ?append_cons; cbn [has_char].
  - now rewrite Ascii.eqb_refl.
  - rewrite IH. apply orb_true_r.
Qed.

Lemma last_split_app sep a b :
  last (split sep (a +:+ String sep b)) = last (split sep b).
Proof.
  induction a as [|c a IH]; rewrite ?append_nil, ?append_cons; cbn [split].
  - rewrite Ascii.eqb_refl.
    destruct (split sep b) as [|y ys] eqn:S; [now apply split_not_nil in S|].
    reflexivity.
  - destruct (Ascii.eqb c sep).
    + destruct (split sep (a +:+ String sep b)) as [|y ys] eqn:S;
        [now apply split_not_nil in S|].
      exact IH.
    + destruct (split_has_sep sep (a +:+ String sep b)) as (x & y & ys & S);
        [apply has_char_app_sep|].
      rewrite S in *. exact IH.
Qed.

Lemma last_split_no_sep sep a b :
  has_char sep b = false ->
  last (split sep (a +:+ String sep b)) = Some b.
Proof. intros H. now rewrite last_split_app, split_no_sep. Qed.

(** Removing occurrences adds no character. *)
Lemma has_char_replace_from c old skip s :
  has_char c s = false ->
  has_char c (replace_from old EmptyString skip s) = false.
Proof.
  revert skip. induction s as [|x s IH]; intros skip; cbn [replace_from];
    [reflexivity|].
  cbn [has_char]. intros H. apply orb_false_iff in H as [H1 H2].
  destruct skip as [|k]; [|now apply IH].
  destruct (String.prefix old (String x s)).
  - cbn. now apply IH.
  - cbn. rewrite H1. now apply IH.
Qed.

Lemma replace_from_no_dot (name rest : string) :
  has_char "."%char name = false ->
  replace_from ".git" EmptyString 0 (name +:+ ".git" +:+ rest)
  = name +:+ replace_from ".git" EmptyString 0 rest.
Proof.
  induction name as [|c name IH]; intros H.
  - rewrite !append_nil.
    change (".git" +:+ rest)
      with (String "." (String "g" (String "i" (String "t" rest)))).
    cbn [replace_from].
    replace (String.prefix ".git"
               (String "." (String "g" (String "i" (String "t" rest)))))
      with true.
    2:{ cbn [String.prefix].
        repeat (destruct (ascii_dec _ _); [|contradiction]). now destruct rest. }
    cbn [String.length Nat.sub]. now rewrite append_nil.
  - cbn [has_char] in H. apply orb_false_iff in H as [H1 H2].
    rewrite !(append_cons c name). cbn [replace_from].
    replace (String.prefix ".git" (String c (name +:+ ".git" +:+ rest)))
      with false.
    + now rewrite (IH H2).
    + cbn [String.prefix].
      destruct (ascii_dec "." c) as [<-|N]; [|reflexivity].
      rewrite Ascii.eqb_refl in H1. discriminate H1.
Qed.

Lemma has_char_app c a b :
  has_char c (a +:+ b) = has_char c a || has_char c b.
Proof.
  induction a as [|x a IH]; rewrite ?append_nil, ?append_cons; cbn [has_char];
    [reflexivity|].
  now rewrite IH, orb_assoc.
Qed.

Lemma prefix_sep_has_char b :
  has_char "/"%char b = false -> String.prefix "/" b = false.
Proof.
  destruct b as [|c b]; [reflexivity|]. cbn [has_char String.prefix].
  intros H. apply orb_false_iff in H as [H _].
  destruct (ascii_dec "/" c) as [<-|N]; [|reflexivity].
  rewrite Ascii.eqb_refl in H. discriminate H.
Qed.

Lemma prefix_append a b : String.prefix a (a +:+ b) = true.
Proof.
  induction a as [|c a IH]; rewrite ?append_nil, ?append_cons;
    cbn [String.prefix].
  - now destruct b.
  - destruct (ascii_dec c c); [exact IH | contradiction].
Qed.

Lemma append_assoc_str a b c : (a +:+ b) +:+ c = a +:+ (b +:+ c).
Proof.
  induction a as [|x a IH]; rewrite ?append_nil, ?append_cons;
    [reflexivity | now rewrite IH].
Qed.

(** Joining a name without separator keeps the directory in front. *)
Lemma os_path_join_prefix a b :
  has_char "/"%char b = false -> String.prefix a (os_path_join a b) = true.
Proof.
  intros H. unfold os_path_join. rewrite (prefix_sep_has_char b H).
  destruct (String.eqb a EmptyString || endswith_sep a).
  - apply prefix_append.
  - apply prefix_append.
Qed.

Lemma append_nil_r (s : string) : s +:+ EmptyString = s.
Proof.
  induction s as [|c s IH]; rewrite ?append_nil, ?append_cons;
    [reflexivity | now rewrite IH].
Qed.

(** ** [GithubHandler.__init__] *)

Lemma github_init_eq (repo_url x : string) (p : GithubHandler.process) :
  last (split "/"%char repo_url) = Some x ->
  GithubHandler.__init__ repo_url p =
    (Returned
       {| GithubHandler.REPO_URL := repo_url;
          GithubHandler.original_dir := GithubHandler.cwd p;
          GithubHandler.repo_name := replace ".git" EmptyString x;
          GithubHandler.repo_path :=
            os_path_join (GithubHandler.cwd p)
              (replace ".git" EmptyString x) |},
     p).
Proof.
  intros L. unfold GithubHandler.__init__, bind, gets, last_item.
  rewrite L. reflexivity.
Qed.

(** X11.  [GithubHandler(repo_url)] never fails.  The name it derives holds
    no "/", so joining it to the working directory cannot replace that
    directory: the path of the clone always starts with the working
    directory. *)
Theorem github_repo_path_starts_with_cwd
    (repo_url : string) (p : GithubHandler.process) :
  exists h,
    GithubHandler.__init__ repo_url p = (Returned h, p) /\
    GithubHandler.REPO_URL h = repo_url /\
    GithubHandler.original_dir h = GithubHandler.cwd p /\
    has_char "/"%char (GithubHandler.repo_name h) = false /\
    GithubHandler.repo_path h
    = os_path_join (GithubHandler.cwd p) (GithubHandler.repo_name h) /\
    String.prefix (GithubHandler.cwd p) (GithubHandler.repo_path h) = true.
Proof.
  destruct (last_split "/"%char repo_url) as (x & L & N).
  eexists. split; [exact (github_init_eq _ _ _ L)|]. cbn.
  assert (R : has_char "/"%char (replace ".git" EmptyString x) = false)
    by now apply has_char_replace_from.
  repeat split; try exact R. now apply os_path_join_prefix.
Qed.

(** X12.  Every occurrence of ".git" is cut out of the last component of
    the URL, not only a trailing one: for a component [name.git] the name
    is [name], and for [name.git] followed by [rest] it is [name] followed
    by what is left of [rest]. *)
Theorem github_repo_name_cuts_every_dot_git
    (base name rest : string) (p : GithubHandler.process) :
  has_char "/"%char name = false ->
  has_char "."%char name = false ->
  has_char "/"%char rest = false ->
  exists h,
    GithubHandler.__init__ (base +:+ "/" +:+ name +:+ ".git" +:+ rest) p
    = (Returned h, p) /\
    GithubHandler.repo_name h = name +:+ replace ".git" EmptyString rest /\
    (rest = EmptyString -> GithubHandler.repo_name h = name).
Proof.
  intros N1 N2 N3.
  assert (L : last (split "/"%char (base +:+ "/" +:+ name +:+ ".git" +:+ rest))
              = Some (name +:+ ".git" +:+ rest)).
  { change ("/" +:+ name +:+ ".git" +:+ rest)
      with (String "/" (name +:+ ".git" +:+ rest)).
    apply last_split_no_sep. rewrite !has_char_app, N1, N3. reflexivity. }
  eexists. split; [exact (github_init_eq _ _ _ L)|]. cbn [GithubHandler.repo_name].
  unfold replace. rewrite replace_from_no_dot by exact N2.
  split; [reflexivity|]. intros ->. apply append_nil_r.
Qed.

Lemma github_repo_name_cuts_every_dot_git_witness :
  exists h,
    GithubHandler.__init__
      ("https://github.com/org" +:+ "/" +:+ "user" +:+ ".git" +:+ "hub.io")
      {| GithubHandler.cwd := "/home/validator" |}
    = (Returned h, {| GithubHandler.cwd := "/home/validator" |}) /\
    GithubHandler.repo_name h = "user" +:+ replace ".git" EmptyString "hub.io" /\
    ("hub.io" = EmptyString -> GithubHandler.repo_name h = "user").
Proof.
  apply (github_repo_name_cuts_every_dot_git "https://github.com/org" "user"
           "hub.io" {| GithubHandler.cwd := "/home/validator" |});
    reflexivity.
Defined.

(** X13.  For a URL that ends in "/" the derived name is empty and the path
    of the clone is the working directory itself, with a "/" at its end. *)
Theorem github_trailing_slash_names_cwd
    (base : string) (p : GithubHandler.process) :
  exists h,
    GithubHandler.__init__ (base +:+ "/") p = (Returned h, p) /\
    GithubHandler.repo_name h = EmptyString /\
    GithubHandler.repo_path h
    = if String.eqb (GithubHandler.cwd p) EmptyString
         || endswith_sep (GithubHandler.cwd p)
      then GithubHandler.cwd p
      else GithubHandler.cwd p +:+ "/".
Proof.
  assert (L : last (split "/"%char (base +:+ "/")) = Some EmptyString).
  { change "/"%string with (String "/" EmptyString).
    now apply last_split_no_sep. }
  eexists. split; [exact (github_init_eq _ _ _ L)|].
  cbn [GithubHandler.repo_name GithubHandler.repo_path].
  split; [reflexivity|]. unfold os_path_join.
  change (replace ".git" EmptyString EmptyString) with EmptyString.
  cbn [String.prefix].
  destruct (String.eqb (GithubHandler.cwd p) EmptyString
            || endswith_sep (GithubHandler.cwd p)).
  - apply append_nil_r.
  - now rewrite append_nil_r.
Qed.

(** ** [S3Handler] *)

(** X14.  [S3Handler(bucket_name)] without a client raises
    [AttributeError]: the fallback reads [self.default_s3_client], a name
    that neither the instance nor the class nor its base binds (the class
    attribute is called [s3_client]).  With a client the constructor
    returns a handler on that client, with an empty MIME table when none is
    given. *)
Theorem s3_handler_init_needs_a_client {St}
    (class_client : S3Handler.object) (bucket_name : string)
    (custom_mime_types : option (gmap string string)) (s : St) :
  S3Handler.__init__ class_client bucket_name None custom_mime_types s
  = (Raised
       (mk_exn (UserException "AttributeError")
          "'S3Handler' object has no attribute 'default_s3_client'"),
     s) /\
  (forall client,
     S3Handler.__init__ class_client bucket_name (Some client)
       custom_mime_types s
     = (Returned
          {| S3Handler.bucket_name := bucket_name;
             S3Handler.s3_client := client;
             S3Handler.custom_mime_types := default ∅ custom_mime_types |},
        s)).
Proof.
  split.
  - unfold S3Handler.__init__, S3Handler.getattr, bind.
    unfold S3Handler.class_namespace, S3Handler.base_namespace.
    reflexivity.
  - intros client. unfold S3Handler.__init__, bind, ret.
    destruct custom_mime_types; reflexivity.
Qed.

Lemma s3_put_body_eq (self : S3Handler.t)
    (local_file_path s3_bucket_location file_name : string)
    (content_type : option string) (public : bool) (w : S3Handler.world) :
  last (split "/"%char local_file_path) = Some file_name ->
  let key := os_path_join s3_bucket_location file_name in
  let request data :=
    {| S3Handler.Bucket := S3Handler.bucket_name self;
       S3Handler.Key := key;
       S3Handler.Body := data;
       S3Handler.ContentType :=
         S3Handler.resolve_content_type (S3Handler.custom_mime_types self)
           file_name (S3Handler.guess_type w local_file_path) content_type;
       S3Handler.ACL := if public then "public-read" else "private" |} in
  S3Handler.put self local_file_path s3_bucket_location content_type public w
  = match S3Handler.read_file w local_file_path with
    | inr e =>
        if isinstance_Exception e then (Returned (S3Handler.Bool false), w)
        else (Raised e, w)
    | inl data =>
        match S3Handler.put_object_raises w (S3Handler.s3_client self)
                (request data) with
        | Some e =>
            if isinstance_Exception e then (Returned (S3Handler.Bool false), w)
            else (Raised e, w)
        | None =>
            (Returned (S3Handler.Str key),
             {| S3Handler.read_file := S3Handler.read_file w;
                S3Handler.guess_type := S3Handler.guess_type w;
                S3Handler.put_object_raises := S3Handler.put_object_raises w;
                S3Handler.uploaded := S3Handler.uploaded w ++ [request data] |})
        end
    end.
Proof.
  intros L key request.
  unfold S3Handler.put, try_except_Exception, bind, last_item, gets,
    S3Handler.read, S3Handler.put_object, ret.
  rewrite L.
  destruct (S3Handler.read_file w local_file_path) as [data|e].
  - fold key. fold (request data).
    destruct (S3Handler.put_object_raises w (S3Handler.s3_client self)
                (request data)) as [e|]; [|reflexivity].
    destruct (isinstance_Exception e); [|reflexivity].
    destruct (S3Handler.isinstance_FileNotFoundError e); reflexivity.
  - destruct (isinstance_Exception e); [|reflexivity].
    destruct (S3Handler.isinstance_FileNotFoundError e); reflexivity.
Qed.

Lemma has_char_last_split sep s x :
  last (split sep s) = Some x -> has_char sep x = false.
Proof.
  intros L. destruct (last_split sep s) as (y & L' & N). congruence.
Qed.

Lemma or_str_not_empty (a : option string) (b : string) :
  b <> EmptyString -> or_str a b <> EmptyString.
Proof.
  intros Hb. unfold or_str. destruct a as [s|]; [|exact Hb].
  destruct (String.eqb s EmptyString) eqn:E; [exact Hb|].
  now apply String.eqb_neq in E.
Qed.

Lemma resolve_content_type_not_empty custom file_name guessed content_type :
  S3Handler.resolve_content_type custom file_name guessed content_type
  <> EmptyString.
Proof.
  unfold S3Handler.resolve_content_type.
  destruct (truthy content_type) eqn:T; cbn [negb].
  - destruct content_type as [s|]; [|discriminate T]. cbn in *.
    destruct (String.eqb s EmptyString) eqn:E; [discriminate T|].
    now apply String.eqb_neq in E.
  - apply or_str_not_empty. discriminate.
Qed.

(** X15.  [S3Handler.put] does one of three things.  It returns the key,
    which is the bucket location joined with the last component of the
    local path, after exactly one [put_object] of the bytes read, with a
    content type that is not empty.  Or it returns [False] and has sent
    nothing.  Or an exception that is not an instance of [Exception] passes
    through, and nothing was sent.  It never returns [True] and never
    raises an instance of [Exception]. *)
Theorem s3_put_uploads_once_or_not_at_all
    (self : S3Handler.t) (local_file_path s3_bucket_location : string)
    (content_type : option string) (public : bool) (w : S3Handler.world) :
  let r :=
    S3Handler.put self local_file_path s3_bucket_location content_type
      public w in
  match fst r with
  | Returned (S3Handler.Str key) =>
      exists file_name data mime,
        last (split "/"%char local_file_path) = Some file_name /\
        has_char "/"%char file_name = false /\
        key = os_path_join s3_bucket_location file_name /\
        S3Handler.read_file w local_file_path = inl data /\
        mime <> EmptyString /\
        S3Handler.uploaded (snd r)
        = S3Handler.uploaded w
          ++ [{| S3Handler.Bucket := S3Handler.bucket_name self;
                 S3Handler.Key := key;
                 S3Handler.Body := data;
                 S3Handler.ContentType := mime;
                 S3Handler.ACL :=
                   if public then "public-read" else "private" |}]
  | Returned (S3Handler.Bool b) => b = false /\ snd r = w
  | Raised e => isinstance_Exception e = false /\ snd r = w
  | Pending => False
  end.
Proof.
  destruct (last_split "/"%char local_file_path) as (file_name & L & N).
  cbv zeta.
  rewrite (s3_put_body_eq self local_file_path s3_bucket_location file_name
             content_type public w L).
  destruct (S3Handler.read_file w local_file_path) as [data|e] eqn:R.
  - destruct (S3Handler.put_object_raises w _ _) as [e|] eqn:P.
    + destruct (isinstance_Exception e) eqn:X; cbn; now split.
    + cbn [fst snd S3Handler.uploaded].
      exists file_name, data,
        (S3Handler.resolve_content_type (S3Handler.custom_mime_types self)
           file_name (S3Handler.guess_type w local_file_path) content_type).
      repeat split; try assumption.
      apply resolve_content_type_not_empty.
  - destruct (isinstance_Exception e) eqn:X; cbn; now split.
Qed.

(** X16.  When the local file can be read and [put_object] accepts the
    request, [S3Handler.put] returns the key and the store has received
    exactly that request: the handler's bucket, the key, the bytes of the
    file, the resolved content type, and the ACL "public-read" when
    [public] is set and "private" otherwise. *)
Theorem s3_put_succeeds
    (self : S3Handler.t)
    (local_file_path s3_bucket_location file_name data : string)
    (content_type : option string) (public : bool) (w : S3Handler.world) :
  last (split "/"%char local_file_path) = Some file_name ->
  S3Handler.read_file w local_file_path = inl data ->
  let request :=
    {| S3Handler.Bucket := S3Handler.bucket_name self;
       S3Handler.Key := os_path_join s3_bucket_location file_name;
       S3Handler.Body := data;
       S3Handler.ContentType :=
         S3Handler.resolve_content_type (S3Handler.custom_mime_types self)
           file_name (S3Handler.guess_type w local_file_path) content_type;
       S3Handler.ACL := if public then "public-read" else "private" |} in
  S3Handler.put_object_raises w (S3Handler.s3_client self) request = None ->
  let r :=
    S3Handler.put self local_file_path s3_bucket_location content_type
      public w in
  fst r = Returned (S3Handler.Str (os_path_join s3_bucket_location file_name)) /\
  S3Handler.uploaded (snd r) = S3Handler.uploaded w ++ [request].
Proof.
  intros L R request P. cbv zeta.
  rewrite (s3_put_body_eq self local_file_path s3_bucket_location file_name
             content_type public w L).
  rewrite R. fold request. rewrite P. now split.
Qed.

Lemma s3_put_succeeds_witness :
  fst (S3Handler.put makefile_handler "/tmp/Makefile" "builds" None true
         local_disk)
  = Returned (S3Handler.Str (os_path_join "builds" "Makefile")) /\
  S3Handler.uploaded
    (snd (S3Handler.put makefile_handler "/tmp/Makefile" "builds" None true
            local_disk))
  = [] ++ [{| S3Handler.Bucket := "models";
              S3Handler.Key := "builds/Makefile";
              S3Handler.Body := "all:";
              S3Handler.ContentType := "text/x-makefile";
              S3Handler.ACL := "public-read" |}].
Proof.
  apply (s3_put_succeeds makefile_handler "/tmp/Makefile" "builds" "Makefile"
           "all:" None true local_disk); reflexivity.
Defined.

Lemma length_append (a b : string) :
  String.length (a +:+ b) = (String.length a + String.length b)%nat.
Proof.
  induction a as [|c a IH]; rewrite ?append_nil, ?append_cons;
    [reflexivity|]. cbn [String.length]. now rewrite IH.
Qed.

Lemma string_drop_append (a b : string) :
  string_drop (String.length a) (a +:+ b) = b.
Proof.
  induction a as [|c a IH]; rewrite ?append_nil, ?append_cons.
  - now destruct b.
  - cbn [String.length string_drop]. exact IH.
Qed.

Lemma rfind_from_absent c s i found :
  has_char c s = false -> rfind_from c s i found = found.
Proof.
  revert i found. induction s as [|x s IH]; intros i found; cbn [has_char rfind_from];
    [reflexivity|].
  intros H. apply orb_false_iff in H as [H1 H2]. rewrite H1. now apply IH.
Qed.

Lemma rfind_from_last c a b i found :
  has_char c b = false ->
  rfind_from c (a +:+ String c b) i found = i + Z.of_nat (String.length a).
Proof.
  intros H. revert i found.
  induction a as [|x a IH]; intros i found; rewrite ?append_nil, ?append_cons;
    cbn [rfind_from String.length].
  - rewrite Ascii.eqb_refl, rfind_from_absent by exact H. lia.
  - rewrite IH. lia.
Qed.

(** The key under which [put] looks the MIME table up. *)
Lemma mime_key_with_dot (a b : string) :
  has_char "."%char b = false ->
  slice_from (rfind "."%char (a +:+ String "." b)) (a +:+ String "." b)
  = String "." b.
Proof.
  intros H. unfold rfind, slice_from. rewrite rfind_from_last by exact H.
  replace (0 + Z.of_nat (String.length a) <? 0) with false
    by (symmetry; apply Z.ltb_ge; lia).
  rewrite Z.add_0_l, Nat2Z.id. apply string_drop_append.
Qed.

Lemma mime_key_without_dot (a : string) (c : ascii) :
  has_char "."%char (a +:+ String c EmptyString) = false ->
  slice_from (rfind "."%char (a +:+ String c EmptyString))
    (a +:+ String c EmptyString)
  = String c EmptyString.
Proof.
  intros H. unfold rfind, slice_from. rewrite rfind_from_absent by exact H.
  rewrite length_append. cbn [String.length Z.ltb Z.compare].
  replace (Z.to_nat (Z.max (Z.of_nat (String.length a + 1) + -1) 0))
    with (String.length a) by lia.
  apply string_drop_append.
Qed.

(** X17.  With no content type given, [put] looks its MIME table up under
    the end of the file name from its last "." on (".gz" for "a.tar.gz").
    For a name without a ".", [rfind] answers -1 and the slice is the last
    character of the name: the table is consulted under that one character.
    A table entry that is the empty string counts as missing; then
    [guess_type] decides, and "application/octet-stream" when it has no
    answer either. *)
Theorem s3_put_mime_table_key
    (custom : gmap string string) (guessed : option string) :
  (forall a b,
     has_char "."%char b = false ->
     S3Handler.resolve_content_type custom (a +:+ String "." b) guessed None
     = or_str (or_opt (custom !! String "." b) guessed)
         "application/octet-stream") /\
  (forall a c,
     has_char "."%char (a +:+ String c EmptyString) = false ->
     S3Handler.resolve_content_type custom (a +:+ String c EmptyString)
       guessed None
     = or_str (or_opt (custom !! String c EmptyString) guessed)
         "application/octet-stream") /\
  (forall file_name key,
     slice_from (rfind "."%char file_name) file_name = key ->
     custom !! key = Some EmptyString ->
     S3Handler.resolve_content_type custom file_name guessed None
     = or_str guessed "application/octet-stream").
Proof.
  unfold S3Handler.resolve_content_type. cbn [truthy negb].
  split; [|split].
  - intros a b H. now rewrite mime_key_with_dot.
  - intros a c H. now rewrite mime_key_without_dot.
  - intros file_name key -> E. rewrite E. reflexivity.
Qed.

Lemma s3_put_mime_table_key_witness :
  S3Handler.resolve_content_type {[ ".gz" := "application/gzip" ]}
    ("a.tar" +:+ String "." "gz") None None
  = or_str
      (or_opt
         (({[ ".gz" := "application/gzip" ]} : gmap string string)
            !! String "." "gz")
         None)
      "application/octet-stream" /\
  S3Handler.resolve_content_type {[ "e" := "text/x-makefile" ]}
    ("Makefil" +:+ String "e" EmptyString) None None
  = or_str
      (or_opt
         (({[ "e" := "text/x-makefile" ]} : gmap string string)
            !! String "e" EmptyString)
         None)
      "application/octet-stream" /\
  S3Handler.resolve_content_type {[ ".bin" := EmptyString ]} "model.bin"
    (Some "application/x-binary") None
  = or_str (Some "application/x-binary") "application/octet-stream".
Proof.
  destruct (s3_put_mime_table_key {[ ".gz" := "application/gzip" ]} None)
    as (A & _ & _).
  destruct (s3_put_mime_table_key {[ "e" := "text/x-makefile" ]} None)
    as (_ & B & _).
  destruct (s3_put_mime_table_key {[ ".bin" := EmptyString ]}
              (Some "application/x-binary")) as (_ & _ & C).
  split; [|split].
  - apply A. reflexivity.
  - apply B. reflexivity.
  - apply (C "model.bin" ".bin"); reflexivity.
Defined.

(** ** The handlers' calls, step by step *)

Lemma triple_ret {St A} (P : St -> Prop) (a : A) Q E :
  (forall s, P s -> Q a s) -> triple P (ret a) Q E.
Proof. intros H s Hs. cbn. now apply H. Qed.

Lemma triple_bind {St A B} (P : St -> Prop) (m : M St A) (f : A -> M St B)
    (R : A -> St -> Prop) Q E :
  triple P m R E ->
  (forall a, triple (R a) (f a) Q E) ->
  triple P (bind m f) Q E.
Proof.
  intros Hm Hf s Hs. unfold bind. specialize (Hm s Hs).
  destruct (m s) as [[a|e|] s']; [|exact Hm|exact Hm].
  exact (Hf a s' Hm).
Qed.

Lemma triple_weaken {St A} (P P' : St -> Prop) (m : M St A)
    (Q Q' : A -> St -> Prop) (E E' : exn -> St -> Prop) :
  triple P' m Q' E' ->
  (forall s, P s -> P' s) ->
  (forall a s, Q' a s -> Q a s) ->
  (forall e s, E' e s -> E e s) ->
  triple P m Q E.
Proof.
  intros Hm HP HQ HE s Hs. specialize (Hm s (HP s Hs)).
  destruct (m s) as [[a|e|] s']; auto.
Qed.

Lemma triple_if {St A} (P : St -> Prop) (b : bool) (m1 m2 : M St A) Q E :
  (b = true -> triple P m1 Q E) ->
  (b = false -> triple P m2 Q E) ->
  triple P (if b then m1 else m2) Q E.
Proof. destruct b; auto. Qed.

Lemma triple_try_except1 {St A} (P : St -> Prop) (body : M St A)
    (is_C : exn -> bool) (h : exn -> M St A) Q E (E1 : exn -> St -> Prop) :
  triple P body Q E1 ->
  (forall e, is_C e = true -> triple (E1 e) (h e) Q E) ->
  (forall e s, is_C e = false -> E1 e s -> E e s) ->
  triple P (GithubHandler.try_except1 body is_C h) Q E.
Proof.
  intros Hb Hh HE s Hs. unfold GithubHandler.try_except1.
  specialize (Hb s Hs). destruct (body s) as [[a|e|] s']; auto.
  destruct (is_C e) eqn:C.
  - exact (Hh e C s' Hb).
  - now apply HE.
Qed.

Lemma triple_try_except2 {St A} (P : St -> Prop) (body : M St A)
    (is_C1 is_C2 : exn -> bool) (h1 h2 : exn -> M St A) Q E
    (E1 : exn -> St -> Prop) :
  triple P body Q E1 ->
  (forall e, is_C1 e = true -> triple (E1 e) (h1 e) Q E) ->
  (forall e, is_C1 e = false -> is_C2 e = true -> triple (E1 e) (h2 e) Q E) ->
  (forall e s, is_C1 e = false -> is_C2 e = false -> E1 e s -> E e s) ->
  triple P (GithubHandler.try_except2 body is_C1 h1 is_C2 h2) Q E.
Proof.
  intros Hb H1 H2 HE s Hs. unfold GithubHandler.try_except2.
  specialize (Hb s Hs). destruct (body s) as [[a|e|] s']; auto.
  destruct (is_C1 e) eqn:C1.
  - exact (H1 e C1 s' Hb).
  - destruct (is_C2 e) eqn:C2.
    + exact (H2 e C1 C2 s' Hb).
    + now apply HE.
Qed.

(** [finally]: the cleanup starts from wherever the body ended. *)
Lemma triple_try_finally {St A} (P : St -> Prop) (body : M St A)
    (cleanup : M St unit) (Q : A -> St -> Prop) (E : exn -> St -> Prop)
    (Qb : A -> St -> Prop) (Eb : exn -> St -> Prop) :
  triple P body Qb Eb ->
  (forall a, triple (Qb a) cleanup (fun _ => Q a) E) ->
  (forall e, triple (Eb e) cleanup (fun _ => E e) E) ->
  triple P (GithubHandler.try_finally body cleanup) Q E.
Proof.
  intros Hb Hr He s Hs. unfold GithubHandler.try_finally.
  specialize (Hb s Hs). destruct (body s) as [[a|e|] s']; [| |exact Hb].
  - specialize (Hr a s' Hb). destruct (cleanup s') as [[[]|e'|] s'']; auto.
  - specialize (He e s' Hb). destruct (cleanup s') as [[[]|e'|] s'']; auto.
Qed.

Section GithubCalls.
Import GithubHandler.

Lemma triple_log (P : world -> Prop) level message Q E :
  (forall s, P s ->
     Q tt {| proc := proc s;
             calls := calls s ++ [logging level message];
             exists_answers := exists_answers s;
             outcomes := outcomes s |}) ->
  triple P (log level message) Q E.
Proof. intros H s Hs. cbn. now apply H. Qed.

Lemma triple_exists (P : world -> Prop) path Q E :
  (forall s, P s ->
     Q (hd false (exists_answers s))
       {| proc := proc s;
          calls := calls s
                   ++ [os_path_exists path (hd false (exists_answers s))];
          exists_answers := tail (exists_answers s);
          outcomes := outcomes s |}) ->
  triple P (exists_ path) Q E.
Proof. intros H s Hs. cbn. now apply H. Qed.

Lemma triple_external (P : world -> Prop) c Q E :
  (forall s out, P s ->
     Q out {| proc := proc s;
              calls := calls s ++ [c];
              exists_answers := exists_answers s;
              outcomes := tail (outcomes s) |}) ->
  (forall s e, P s ->
     E e {| proc := proc s;
            calls := calls s ++ [c];
            exists_answers := exists_answers s;
            outcomes := tail (outcomes s) |}) ->
  triple P (external c) Q E.
Proof.
  intros HQ HE s Hs. unfold external.
  pose proof (fun out => HQ s out Hs) as HQs.
  pose proof (fun e => HE s e Hs) as HEs.
  destruct (outcomes s) as [|[out|e] rest]; cbn in *; auto.
Qed.

Lemma triple_chdir (P : world -> Prop) path Q E :
  (forall s, P s ->
     Q tt {| proc := {| cwd := os_path_join (cwd (proc s)) path |};
             calls := calls s ++ [os_chdir path];
             exists_answers := exists_answers s;
             outcomes := tail (outcomes s) |}) ->
  (forall s e, P s ->
     E e {| proc := proc s;
            calls := calls s ++ [os_chdir path];
            exists_answers := exists_answers s;
            outcomes := tail (outcomes s) |}) ->
  triple P (chdir path) Q E.
Proof.
  intros HQ HE s Hs. unfold chdir, bind, external, modify.
  pose proof (HQ s Hs) as HQs.
  pose proof (fun e => HE s e Hs) as HEs.
  destruct (outcomes s) as [|[out|e] rest]; cbn in *; auto.
Qed.

End GithubCalls.

(** Walks a straight-line body whose every step keeps [I], whatever it
    returns or raises. *)
Ltac walk I :=
  lazymatch goal with
  | |- triple _ (bind _ _) _ _ =>
      eapply (triple_bind _ _ _ (fun _ => I)); [walk I | intros; walk I]
  | |- triple _ (if _ then _ else _) _ _ =>
      apply triple_if; intros; walk I
  | |- triple _ (ret _) _ _ => apply triple_ret; intros; trivial
  | |- triple _ (GithubHandler.log _ _) _ _ =>
      apply triple_log; intros; trivial
  | |- triple _ (GithubHandler.exists_ _) _ _ =>
      apply triple_exists; intros; trivial
  | |- triple _ (GithubHandler.external _) _ _ =>
      apply triple_external; intros; trivial
  | |- triple _ (GithubHandler.chdir _) _ _ =>
      apply triple_chdir; intros; trivial
  | |- triple _ (GithubHandler.try_except1 _ _ _) _ _ =>
      eapply (triple_try_except1 _ _ _ _ _ _ (fun _ => I));
      [walk I | intros; walk I | intros; trivial]
  | |- triple _ (GithubHandler.try_except2 _ _ _ _ _) _ _ =>
      eapply (triple_try_except2 _ _ _ _ _ _ _ _ (fun _ => I));
      [walk I | intros; walk I | intros; walk I | intros; trivial]
  | |- triple _ (GithubHandler.clone _) _ _ =>
      unfold GithubHandler.clone; walk I
  | |- triple _ (GithubHandler.fetch_all _) _ _ =>
      unfold GithubHandler.fetch_all; walk I
  | _ => idtac
  end.

Section GithubGet.
Import GithubHandler.

Lemma get_body_ends (self : t) (commit_sha filepath : string) :
  triple anywhere
    (try_except2
       (clone self ;;
        fetch_all self ;;
        log "info" ("Checking out commit: " +:+ commit_sha) ;;
        external (subprocess_run ["git"; "checkout"; commit_sha]) ;;
        there <- exists_ filepath ;;
        if there
        then
          log "info"
            ("File '" +:+ filepath +:+ "' found. Reading contents...") ;;
          content <- external (reader filepath) ;;
          ret (Some content)
        else
          log "error"
            ("File '" +:+ filepath +:+ "' not found in this commit.") ;;
          ret None)
       isinstance_CalledProcessError
       (fun e =>
          log "error"
            ("An error occurred during Git operations: " +:+ exc_msg e) ;;
          ret None)
       isinstance_IOError
       (fun e =>
          log "error"
            ("An error occurred while reading the file: " +:+ exc_msg e) ;;
          ret None))
    (fun _ => anywhere)
    (fun e _ =>
       isinstance_CalledProcessError e = false
       /\ isinstance_IOError e = false).
Proof.
  eapply (triple_try_except2 _ _ _ _ _ _ _ _ (fun _ => anywhere)).
  - walk (@anywhere world).
  - intros. walk (@anywhere world).
  - intros. walk (@anywhere world).
  - intros. now split.
Qed.

(** The calls of the [finally] clause of [get]. *)
Lemma get_cleanup_calls (self : t) (s : world) :
  exists answer,
    calls
      (snd
         ((there <- exists_ (repo_path self) ;;
           if there
           then
             log "info"
               ("Deleting the cloned repository folder: " +:+ repo_name self) ;;
             external (shutil_rmtree (repo_path self)) ;;
             ret tt
           else ret tt) s))
    = calls s
      ++ os_path_exists (repo_path self) answer
         :: (if answer
             then [ logging "info"
                      ("Deleting the cloned repository folder: "
                       +:+ repo_name self);
                    shutil_rmtree (repo_path self) ]
             else []).
Proof.
  exists (hd false (exists_answers s)).
  unfold bind, exists_, log, record_call, modify, external, ret.
  cbn [fst snd calls exists_answers outcomes proc].
  destruct (hd false (exists_answers s)); [|reflexivity].
  destruct (outcomes s) as [|[out|e] rest];
    cbn [fst snd calls]; now rewrite <- !app_assoc.
Qed.

Lemma cleanup_ends (self : t) (s : world) :
  fst ((there <- exists_ (repo_path self) ;;
        if there
        then
          log "info"
            ("Deleting the cloned repository folder: " +:+ repo_name self) ;;
          external (shutil_rmtree (repo_path self)) ;;
          ret tt
        else ret tt) s) <> Pending.
Proof.
  unfold bind, exists_, log, record_call, modify, external, ret.
  cbn [fst snd calls exists_answers outcomes proc].
  destruct (hd false (exists_answers s)); [|discriminate].
  destruct (outcomes s) as [|[out|e] rest]; discriminate.
Qed.

(** X18.  However [get] ends, whether it returns the content, returns
    [None] or raises, the last thing it did was its [finally] clause: it
    asked whether the clone exists and, on the answer yes, logged the
    deletion and called [shutil.rmtree] on it.  [get] always ends. *)
Theorem github_get_always_cleans_up
    (self : t) (commit_sha filepath : string) (w : world) :
  fst (get self commit_sha filepath w) <> Pending
  /\ exists before answer,
       calls (snd (get self commit_sha filepath w))
       = before
         ++ os_path_exists (repo_path self) answer
            :: (if answer
                then [ logging "info"
                         ("Deleting the cloned repository folder: "
                          +:+ repo_name self);
                       shutil_rmtree (repo_path self) ]
                else []).
Proof.
  unfold get, try_finally.
  pose proof (get_body_ends self commit_sha filepath w I) as B.
  match goal with
  | B : match ?body w with _ => _ end |- _ =>
      destruct (body w) as [[a|e|] s'] eqn:R
  end; try contradiction.
  - destruct (get_cleanup_calls self s') as [answer C].
    pose proof (cleanup_ends self s') as K.
    destruct ((there <- exists_ (repo_path self) ;;
               if there
               then
                 log "info"
                   ("Deleting the cloned repository folder: "
                    +:+ repo_name self) ;;
                 external (shutil_rmtree (repo_path self)) ;;
                 ret tt
               else ret tt) s') as [[[]|e'|] s''];
      cbn [fst snd] in *; try contradiction;
      (split; [discriminate | now exists (calls s'), answer]).
  - destruct (get_cleanup_calls self s') as [answer C].
    pose proof (cleanup_ends self s') as K.
    destruct ((there <- exists_ (repo_path self) ;;
               if there
               then
                 log "info"
                   ("Deleting the cloned repository folder: "
                    +:+ repo_name self) ;;
                 external (shutil_rmtree (repo_path self)) ;;
                 ret tt
               else ret tt) s') as [[[]|e'|] s''];
      cbn [fst snd] in *; try contradiction;
      (split; [discriminate | now exists (calls s'), answer]).
Qed.

Lemma last_snoc_call (cs : list call) (c : call) : last (cs ++ [c]) = Some c.
Proof. apply last_snoc. Qed.

(** X19.  An exception leaves [get] only if neither clause catches it, that
    is if it is neither a [CalledProcessError] nor an [OSError], or if the
    [shutil.rmtree] of the [finally] clause raised it. *)
Theorem github_get_raises_only_uncaught
    (self : t) (commit_sha filepath : string) (w : world) (e : exn) :
  fst (get self commit_sha filepath w) = Raised e ->
  (isinstance_CalledProcessError e = false /\ isinstance_IOError e = false)
  \/ last (calls (snd (get self commit_sha filepath w)))
     = Some (shutil_rmtree (repo_path self)).
Proof.
  assert (T : triple anywhere (get self commit_sha filepath)
                (fun _ => anywhere)
                (fun e s' =>
                   (isinstance_CalledProcessError e = false
                    /\ isinstance_IOError e = false)
                   \/ last (calls s') = Some (shutil_rmtree (repo_path self)))).
  { unfold get.
    eapply triple_try_finally; [apply get_body_ends | |].
    - intros a. walk (@anywhere world).
      right. apply last_snoc_call.
    - intros x.
      walk (fun _ : world =>
              isinstance_CalledProcessError x = false
              /\ isinstance_IOError x = false).
      all: try (now left).
      right. apply last_snoc_call. }
  intros R. specialize (T w I).
  destruct (get self commit_sha filepath w) as [[a|x|] s']; try discriminate.
  cbn in R. injection R as ->. exact T.
Qed.

Lemma github_get_raises_only_uncaught_witness :
  (isinstance_CalledProcessError
     (mk_exn (UserException "JSONDecodeError") "Expecting value") = false
   /\ isinstance_IOError
        (mk_exn (UserException "JSONDecodeError") "Expecting value") = false)
  \/ last (calls (snd (get models_handler "1f3a" "models/5F.json"
                         malformed_file)))
     = Some (shutil_rmtree (repo_path models_handler)).
Proof.
  apply (github_get_raises_only_uncaught models_handler "1f3a"
           "models/5F.json" malformed_file).
  vm_compute. reflexivity.
Defined.

End GithubGet.

(** The same walk, up to the next [os.chdir]; [E1] is what a [try] body
    leaves when it raises. *)
Ltac walk_in I E1 :=
  lazymatch goal with
  | |- triple _ (bind (GithubHandler.chdir _) _) _ _ => idtac
  | |- triple _ (bind _ _) _ _ =>
      eapply (triple_bind _ _ _ (fun _ => I));
      [walk_in I E1 | intros; walk_in I E1]
  | |- triple _ (if _ then _ else _) _ _ =>
      apply triple_if; intros; walk_in I E1
  | |- triple _ (ret _) _ _ => apply triple_ret; intros; trivial
  | |- triple _ (GithubHandler.log _ _) _ _ =>
      apply triple_log; intros; trivial
  | |- triple _ (GithubHandler.exists_ _) _ _ =>
      apply triple_exists; intros; trivial
  | |- triple _ (GithubHandler.external _) _ _ =>
      apply triple_external; intros; trivial
  | |- triple _ (GithubHandler.try_except1 _ _ _) _ _ =>
      eapply (triple_try_except1 _ _ _ _ _ _ E1);
      [walk_in I E1 | intros; walk_in I E1 | intros; trivial]
  | |- triple _ (GithubHandler.clone _) _ _ =>
      unfold GithubHandler.clone; walk_in I E1
  | _ => idtac
  end.

Lemma removals_app (cs ds : list GithubHandler.call) :
  removals (cs ++ ds) = (removals cs + removals ds)%nat.
Proof.
  induction cs as [|c cs IH]; [reflexivity|].
  destruct c; cbn; now rewrite IH.
Qed.

Section GithubPut.
Import GithubHandler.

Variable self : t.
Variables content folder_name file_ext hotkey branch_name : string.

Ltac snoc :=
  unfold put_failure;
  cbn [proc calls cwd exists_answers outcomes];
  rewrite ?removals_app, ?last_snoc; cbn [removals];
  rewrite ?Nat.add_0_r.

Lemma put_triple (dir : string) (n : nat) :
  triple (fun s => cwd (proc s) = dir /\ removals (calls s) = n)
    (put self content folder_name file_ext hotkey branch_name)
    (fun _ s' =>
       cwd (proc s') = os_path_join (os_path_join dir (repo_path self)) ".."
       /\ last (calls s') = Some (shutil_rmtree (repo_name self)))
    (fun _ => put_failure self dir n).
Proof.
  set (I1 := fun s : world => cwd (proc s) = dir /\ removals (calls s) = n).
  set (I2 := fun s : world =>
               cwd (proc s) = os_path_join dir (repo_path self)
               /\ removals (calls s) = n).
  set (I3 := fun s : world =>
               cwd (proc s)
               = os_path_join (os_path_join dir (repo_path self)) "..").
  unfold put.
  eapply (triple_bind _ _ _ (fun _ => I1)).
  { walk_in I1
      (fun (_ : exn) s =>
         I1 s
         /\ last (calls s)
            = Some (run_command ["git"; "clone"; REPO_URL self] None)).
    all: unfold I1 in *; intros.
    all: repeat match goal with H : _ /\ _ |- _ => destruct H end.
    all: snoc; try (now split).
    left. repeat split; auto. }
  intros _.
  eapply (triple_bind _ _ _ (fun _ => I2)).
  { apply triple_chdir; unfold I1, I2; intros s; intros; snoc.
    - destruct H as [-> H]. now split.
    - destruct H as [H1 H2]. left. repeat split; auto. }
  intros _.
  walk_in I2 (fun (_ : exn) => I2).
  all: unfold I2 in *; intros.
  all: repeat match goal with H : _ /\ _ |- _ => destruct H end.
  all: try (snoc; try (now split); right; left; now split).
  eapply (triple_bind _ _ _ (fun _ => I3)).
  { apply triple_chdir; unfold I3; intros s; intros; snoc.
    - destruct H as [-> H]. reflexivity.
    - right; left. exact H. }
  intros _.
  eapply (triple_bind _ _ _ (fun _ => I3)).
  { apply triple_log. now unfold I3. }
  intros _.
  eapply (triple_bind _ _ _
            (fun _ s =>
               I3 s /\ last (calls s) = Some (shutil_rmtree (repo_name self)))).
  { apply triple_external; unfold I3; intros; snoc; [now split|].
    right; right. now split. }
  intros _. apply triple_ret. now unfold I3.
Qed.

(** X20.  When [put] raises, the process is in one of three places: where it
    was, the last call being the [git clone] or the [os.chdir] into the
    clone; inside the clone, nothing having been removed; or back out of
    the clone, the last call being the [shutil.rmtree] that raised.  So a
    failure of any git command after the clone leaves the process inside
    the clone, and the clone on disk. *)
Theorem github_put_failure_states (w : world) (e : exn) :
  fst (put self content folder_name file_ext hotkey branch_name w)
  = Raised e ->
  put_failure self (cwd (proc w)) (removals (calls w))
    (snd (put self content folder_name file_ext hotkey branch_name w)).
Proof.
  intros R.
  pose proof (put_triple (cwd (proc w)) (removals (calls w)) w
                (conj eq_refl eq_refl)) as T.
  destruct (put self content folder_name file_ext hotkey branch_name w)
    as [[a|x|] s']; try discriminate.
  exact T.
Qed.

(** X21.  A [CalledProcessError] raised by [git add], [git commit] or
    [git push] never leaves [put]: when [put] raises and its last call was
    one of those three, the exception is of another class. *)
Theorem github_put_swallows_publishing_errors
    (w : world) (e : exn) (c : call) :
  fst (put self content folder_name file_ext hotkey branch_name w)
  = Raised e ->
  last (calls (snd (put self content folder_name file_ext hotkey
                      branch_name w))) = Some c ->
  publishes c = true ->
  isinstance_CalledProcessError e = false.
Proof.
  set (E := fun (e : exn) (s' : world) =>
              forall c, last (calls s') = Some c -> publishes c = true ->
                        isinstance_CalledProcessError e = false).
  assert (T : triple anywhere
                (put self content folder_name file_ext hotkey branch_name)
                (fun _ => anywhere) E).
  { unfold put.
    walk (@anywhere world).
    all: unfold E; intros x; intros.
    all: try match goal with
         | L : last (calls _) = Some _ |- _ =>
             cbn [calls] in L; rewrite last_snoc in L; injection L as <-
         end.
    all: try discriminate.
    all: auto. }
  intros R L P. specialize (T w I).
  destruct (put self content folder_name file_ext hotkey branch_name w)
    as [[a|x|] s']; try discriminate.
  cbn in R. injection R as ->. exact (T c L P).
Qed.

(** X22.  When the clone and the folder are there, every other call succeeds
    and [git push] fails with a [CalledProcessError],
    [put] does not raise: it logs the warning about an unchanged commit and
    returns what [git rev-parse origin/<branch>] printed, the hash the
    remote already had. *)
Theorem github_put_returns_when_push_fails
    (w : world) (e : exn) (answers : list bool)
    (chdir_out checkout_out pull_out write_out add_out commit_out : string)
    (local_commit_hash fetch_out remote_commit_hash : string)
    (back_out rmtree_out : string)
    (rest : list (string + exn)) :
  exists_answers w = true :: true :: answers ->
  outcomes w
  = inl chdir_out :: inl checkout_out :: inl pull_out :: inl write_out
    :: inl add_out :: inl commit_out :: inr e
    :: inl local_commit_hash :: inl fetch_out :: inl remote_commit_hash
    :: inl back_out :: inl rmtree_out :: rest ->
  isinstance_CalledProcessError e = true ->
  fst (put self content folder_name file_ext hotkey branch_name w)
  = Returned remote_commit_hash
  /\ In (logging "warning"
          "What you're currently trying to commit has no differences to your last commit. Proceeding with last commit...")
       (calls (snd (put self content folder_name file_ext hotkey
                      branch_name w))).
Proof.
  destruct w as [p cs ans outs]. cbn [exists_answers outcomes].
  intros -> -> C.
  unfold put, clone, chdir, log, record_call, try_except1, bind, exists_,
    external, modify, ret.
  cbn [fst snd hd tail negb proc calls exists_answers outcomes].
  rewrite C.
  cbn [fst snd hd tail negb proc calls exists_answers outcomes].
  destruct (String.eqb local_commit_hash remote_commit_hash);
    cbn [fst snd hd tail negb proc calls exists_answers outcomes].
  all: (split; [reflexivity|]).
  all: rewrite !in_app_iff; cbn [In]; auto 20.
Qed.

End GithubPut.

Lemma github_put_failure_states_witness :
  put_failure models_handler
    (GithubHandler.cwd (GithubHandler.proc missing_branch))
    (removals (GithubHandler.calls missing_branch))
    (snd (GithubHandler.put models_handler "{}" "models" "json" "5F" "dev"
            missing_branch)).
Proof.
  apply (github_put_failure_states models_handler "{}" "models" "json"
           "5F" "dev" missing_branch
           (mk_exn (UserException "CalledProcessError")
              "Command '['git', 'checkout', 'dev']' returned non-zero exit status 1.")).
  vm_compute. reflexivity.
Defined.

Lemma github_put_swallows_publishing_errors_witness :
  GithubHandler.isinstance_CalledProcessError
    (mk_exn KeyboardInterrupt EmptyString) = false.
Proof.
  apply (github_put_swallows_publishing_errors models_handler "{}" "models"
           "json" "5F" "main" interrupted_push
           (mk_exn KeyboardInterrupt EmptyString)
           (GithubHandler.run_command ["git"; "push"; "origin"; "main"] None)).
  - vm_compute. reflexivity.
  - vm_compute. reflexivity.
  - vm_compute. reflexivity.
Defined.

Lemma github_put_returns_when_push_fails_witness :
  fst (GithubHandler.put models_handler "{}" "models" "json" "5F" "main"
         rejected_push)
  = Returned "9c0d"
  /\ In (GithubHandler.logging "warning"
          "What you're currently trying to commit has no differences to your last commit. Proceeding with last commit...")
       (GithubHandler.calls
          (snd (GithubHandler.put models_handler "{}" "models" "json" "5F"
                  "main" rejected_push))).
Proof.
  apply (github_put_returns_when_push_fails models_handler "{}" "models"
           "json" "5F" "main" rejected_push
           (mk_exn (UserException "CalledProcessError") "rejected")
           [] EmptyString EmptyString EmptyString EmptyString EmptyString
           EmptyString "1f3a" EmptyString "9c0d" EmptyString EmptyString []).
  - reflexivity.
  - reflexivity.
  - vm_compute. reflexivity.
Defined.

Section S3Get.
Import S3Handler.

Ltac fields :=
  cbn [fst snd files open_raises inner_client download_fileobj NoSuchKey].

(** X23.  When the client the handler holds has no attribute [s3_client],
    [get] raises the error of that attribute access instead of returning
    [False]: reading the class of its first [except] clause fails the same
    way, and what a clause's expression raises is caught by no clause after
    it. *)
Theorem s3_get_raises_without_inner_client
    (self : t) (s3_key local_file_path : string) (w : disk) (e : exn) :
  inner_client w (s3_client self) = inr e ->
  fst (get self s3_key local_file_path w) = Raised e.
Proof.
  intros H.
  unfold get, try_except_expr, bind, open_wb, attr_s3_client.
  destruct (open_raises w local_file_path) as [e0|];
    cbn [fst snd inner_client]; rewrite ?H; cbn [fst snd inner_client];
    rewrite ?H; reflexivity.
Qed.

(** X24.  A download that fails with an error the clauses catch makes [get]
    return [False], and leaves at the local path whatever was written before
    the failure: what the file held before is gone, and a file that did not
    exist now does. *)
Theorem s3_get_failure_overwrites_the_file
    (self : t) (s3_key local_file_path : string) (w : disk)
    (client : object) (written : string) (e : exn) (class : exn -> bool) :
  open_raises w local_file_path = None ->
  inner_client w (s3_client self) = inl client ->
  download_fileobj w client (bucket_name self) s3_key = (written, Some e) ->
  NoSuchKey w client = inl class ->
  class e = true \/ isinstance_Exception e = true ->
  fst (get self s3_key local_file_path w) = Returned false
  /\ files (snd (get self s3_key local_file_path w)) !! local_file_path
     = Some written.
Proof.
  intros O C D K X.
  unfold get, try_except_expr, bind, open_wb, attr_s3_client, download,
    attr_NoSuchKey, ret.
  rewrite O. fields.
  rewrite C. fields.
  rewrite D. fields.
  rewrite C. fields.
  rewrite K.
  assert (F : forall o : outcome bool,
            files (snd (o,
              {| files := <[local_file_path:=written]>
                            (<[local_file_path:=EmptyString]> (files w));
                 open_raises := open_raises w;
                 inner_client := inner_client w;
                 download_fileobj := download_fileobj w;
                 NoSuchKey := NoSuchKey w |})) !! local_file_path
            = Some written).
  { intros o. cbn [snd files]. apply lookup_insert_eq. }
  destruct (class e); [split; [reflexivity | apply F]|].
  destruct X as [X|X]; [discriminate|].
  rewrite X. split; [reflexivity | apply F].
Qed.

End S3Get.

Lemma s3_get_raises_without_inner_client_witness :
  fst (S3Handler.get makefile_handler "models/5F.bin" "/tmp/model.bin"
         bare_client_disk)
  = Raised attribute_error.
Proof.
  apply (s3_get_raises_without_inner_client makefile_handler "models/5F.bin"
           "/tmp/model.bin" bare_client_disk attribute_error).
  reflexivity.
Defined.

Lemma s3_get_failure_overwrites_the_file_witness :
  fst (S3Handler.get makefile_handler "models/5F.bin" "/tmp/model.bin"
         missing_key_disk)
  = Returned false
  /\ S3Handler.files
       (snd (S3Handler.get makefile_handler "models/5F.bin" "/tmp/model.bin"
               missing_key_disk)) !! "/tmp/model.bin"
     = Some EmptyString.
Proof.
  apply (s3_get_failure_overwrites_the_file makefile_handler "models/5F.bin"
           "/tmp/model.bin" missing_key_disk (S3Handler.obj_client "inner")
           EmptyString client_error (fun _ => false)).
  - reflexivity.
  - reflexivity.
  - reflexivity.
  - reflexivity.
  - right. reflexivity.
Defined.
